(** * Vehicle locomotion and collision response

    A shallow embedding of [CollisionPhysics.ts], of the [Vehicle] class
    (creation and surface detection, per-frame control integration, ground
    and planet integrators, collision hooks), of [InputManager.ts] and of
    the render loop and follow camera of [Game], with the properties stated
    for them.

    JavaScript numbers are read over the real numbers: every arithmetic
    operation is the exact one, comparisons are the order of [R], and the
    non-finite values (NaN, the infinities) have no counterpart in [R].
    A frame can compute one from finite numbers: by a rotation about an
    axis of length zero, by a division by a planet radius of 0, by a power
    that has no finite value.  [Checked] tells those frames apart, and what
    is stated of the position and the orientation after a planet frame is
    stated for the frames it finds finite. *)

From Stdlib Require Import Reals Lra Lia List Bool.
From Stdlib Require Import Ascii String.
Import ListNotations.
Open Scope R_scope.

(** ** The [Math] functions used by the source *)

(** [Math.sign]: 1, -1 or 0. *)
Definition Math_sign (x : R) : R :=
  if Rlt_dec 0 x then 1 else if Rlt_dec x 0 then -1 else 0.

(** [Math.pow(b, e)] for a positive base [b]; [Checked.Math_pow] below has
    the other bases. *)
Definition Math_pow (b e : R) : R := Rpower b e.

(** ** Vectors *)

Record Vector3 := mkVector3 { vx : R; vy : R; vz : R }.

(** Modelled from the spec: the vector primitives come from the math library
    ([Vector3] of [@babylonjs/core]), which is not under [src/]; they are the
    usual componentwise operations, and [normalize] leaves a vector of length
    0 (or 1) as it is. *)
Module Vector3.

Definition Zero : Vector3 := mkVector3 0 0 0.
Definition Up : Vector3 := mkVector3 0 1 0.

Definition scale (v : Vector3) (k : R) : Vector3 :=
  mkVector3 (vx v * k) (vy v * k) (vz v * k).

Definition add (a b : Vector3) : Vector3 :=
  mkVector3 (vx a + vx b) (vy a + vy b) (vz a + vz b).

Definition subtract (a b : Vector3) : Vector3 :=
  mkVector3 (vx a - vx b) (vy a - vy b) (vz a - vz b).

Definition Dot (a b : Vector3) : R :=
  vx a * vx b + vy a * vy b + vz a * vz b.

Definition Cross (a b : Vector3) : Vector3 :=
  mkVector3 (vy a * vz b - vz a * vy b)
            (vz a * vx b - vx a * vz b)
            (vx a * vy b - vy a * vx b).

Definition length (v : Vector3) : R :=
  sqrt (vx v * vx v + vy v * vy v + vz v * vz v).

Definition normalizeFromLength (v : Vector3) (len : R) : Vector3 :=
  if Req_dec_T len 0 then v
  else if Req_dec_T len 1 then v
  else scale v (1 / len).

Definition normalize (v : Vector3) : Vector3 :=
  normalizeFromLength v (length v).

Definition Distance (a b : Vector3) : R := length (subtract a b).

Definition clone (v : Vector3) : Vector3 := v.

(** [Vector3.Lerp(start, end, amount)] *)
Definition Lerp (start finish : Vector3) (amount : R) : Vector3 :=
  mkVector3 (vx start + (vx finish - vx start) * amount)
            (vy start + (vy finish - vy start) * amount)
            (vz start + (vz finish - vz start) * amount).

End Vector3.

(** ** CollisionPhysics.ts *)

Record PhysicsBody := mkPhysicsBody {
  body_velocity : Vector3;
  body_mass : R;
  body_position : Vector3
}.

Record CollisionResult := mkCollisionResult {
  body1NewVelocity : Vector3;
  body2NewVelocity : Vector3;
  impulse : Vector3;
  shouldSeparate : bool
}.

Record CollisionConfig := mkCollisionConfig {
  cfg_restitution : option R;
  cfg_staticObjectDamping : option R;
  cfg_momentumFriction : option R;
  cfg_momentumThreshold : option R
}.

Record CollisionPhysics := mkCollisionPhysics {
  restitution : R;
  staticObjectDamping : R;
  momentumFriction : R;
  momentumThreshold : R
}.

Record SeparationResult := mkSeparationResult {
  body1Separation : R;
  body2Separation : R
}.

Module CollisionPhysics.

(** [x ?? d] *)
Definition orDefault (x : option R) (d : R) : R :=
  match x with Some r => r | None => d end.

Definition emptyConfig : CollisionConfig :=
  mkCollisionConfig None None None None.

Definition constructor (config : CollisionConfig) : CollisionPhysics :=
  {| restitution := orDefault (cfg_restitution config) 0.3;
     staticObjectDamping := orDefault (cfg_staticObjectDamping config) 0.4;
     momentumFriction := orDefault (cfg_momentumFriction config) 0.4;
     momentumThreshold := orDefault (cfg_momentumThreshold config) 0.05 |}.

(** [new CollisionPhysics()] *)
Definition default : CollisionPhysics := constructor emptyConfig.

Definition calculateStaticCollision
    (this : CollisionPhysics) (body : PhysicsBody) (collisionNormal : Vector3)
    : Vector3 :=
  let v := body_velocity body in
  let currentMomentum := Vector3.scale v (body_mass body) in
  let velocityAlongNormal := Vector3.Dot v collisionNormal in
  let reflectedMomentum :=
    Vector3.subtract currentMomentum
      (Vector3.scale collisionNormal
         (2 * velocityAlongNormal * body_mass body)) in
  let dampedMomentum :=
    Vector3.scale reflectedMomentum (staticObjectDamping this) in
  dampedMomentum.

Definition calculateDynamicCollision
    (this : CollisionPhysics) (body1 body2 : PhysicsBody)
    (collisionNormal : Vector3) : CollisionResult :=
  let v1 := body_velocity body1 in
  let v2 := body_velocity body2 in
  let m1 := body_mass body1 in
  let m2 := body_mass body2 in
  let relativeVelocity := Vector3.subtract v1 v2 in
  let velocityAlongNormal := Vector3.Dot relativeVelocity collisionNormal in
  let isApproaching :=
    if Rlt_dec 0 velocityAlongNormal then true else false in
  let e := restitution this in
  let j := (- (1 + e) * velocityAlongNormal) / (1 / m1 + 1 / m2) in
  let impulse := Vector3.scale collisionNormal j in
  let body1NewVelocity := Vector3.add v1 (Vector3.scale impulse (1 / m1)) in
  let body2NewVelocity := Vector3.add v2 (Vector3.scale impulse (-1 / m2)) in
  {| body1NewVelocity := body1NewVelocity;
     body2NewVelocity := body2NewVelocity;
     impulse := impulse;
     shouldSeparate := isApproaching |}.

Definition calculateCollisionNormal
    (this : CollisionPhysics) (position1 position2 : Vector3) : Vector3 :=
  Vector3.normalize (Vector3.subtract position2 position1).

Definition applyMomentumFriction
    (this : CollisionPhysics) (momentum : Vector3) (deltaTime : R)
    : Vector3 :=
  let dragFactor := 1 - momentumFriction this * deltaTime in
  let newMomentum := Vector3.scale momentum (Rmax 0 dragFactor) in
  if Rlt_dec (Vector3.length newMomentum) (momentumThreshold this)
  then Vector3.Zero
  else newMomentum.

Definition calculateReverseImpulse
    (this : CollisionPhysics) (velocity : Vector3) (mass : R)
    (collisionNormal : Vector3) : Vector3 :=
  Vector3.scale collisionNormal (Vector3.length velocity * mass * -1).

Definition impulseToMomentum
    (this : CollisionPhysics) (impulse : Vector3) : Vector3 :=
  Vector3.clone impulse.

Definition velocityToMomentum
    (this : CollisionPhysics) (velocity : Vector3) (mass : R) : Vector3 :=
  Vector3.scale velocity mass.

Definition momentumToVelocity
    (this : CollisionPhysics) (momentum : Vector3) (mass : R) : Vector3 :=
  if Req_dec_T mass 0 then Vector3.Zero
  else Vector3.scale momentum (1 / mass).

Definition isMomentumNegligible
    (this : CollisionPhysics) (momentum : Vector3) : bool :=
  if Rlt_dec (Vector3.length momentum) (momentumThreshold this)
  then true else false.

(** [n] successive calls of [applyMomentumFriction] with the same step. *)
Fixpoint applyMomentumFrictionN
    (this : CollisionPhysics) (n : nat) (momentum : Vector3) (deltaTime : R)
    : Vector3 :=
  match n with
  | O => momentum
  | S k =>
      applyMomentumFriction this
        (applyMomentumFrictionN this k momentum deltaTime) deltaTime
  end.

Definition calculateSeparation
    (this : CollisionPhysics) (mass1 mass2 separationDistance : R)
    (isInterpenetrating : bool) : SeparationResult :=
  let separationMultiplier := if isInterpenetrating then 2 else 1 in
  let totalMass := mass1 + mass2 in
  {| body1Separation :=
       (mass2 / totalMass) * separationDistance * separationMultiplier;
     body2Separation :=
       (mass1 / totalMass) * separationDistance * separationMultiplier |}.

End CollisionPhysics.

(** ** Quaternions *)

Record Quaternion := mkQuaternion { qx : R; qy : R; qz : R; qw : R }.

(** Modelled from the spec: the quaternion primitives come from the math
    library ([Quaternion] of [@babylonjs/core]), which is not under [src/]:
    the identity, the rotation by an angle about an axis (the axis divided by
    its length), and the Hamilton product [this * q1].  [RotationAxis] is the
    rotation about an axis of length other than 0; for an axis of length 0
    the library's quotient is not finite, see [Checked.RotationAxis]. *)
Module Quaternion.

Definition Identity : Quaternion := mkQuaternion 0 0 0 1.

Definition RotationAxis (axis : Vector3) (angle : R) : Quaternion :=
  let sinByLength := sin (angle / 2) / Vector3.length axis in
  mkQuaternion (vx axis * sinByLength)
               (vy axis * sinByLength)
               (vz axis * sinByLength)
               (cos (angle / 2)).

Definition multiply (this q1 : Quaternion) : Quaternion :=
  mkQuaternion
    (qx this * qw q1 + qy this * qz q1 - qz this * qy q1 + qw this * qx q1)
    (- qx this * qz q1 + qy this * qw q1 + qz this * qx q1 + qw this * qy q1)
    (qx this * qy q1 - qy this * qx q1 + qz this * qw q1 + qw this * qz q1)
    (- qx this * qx q1 - qy this * qy q1 - qz this * qz q1 + qw this * qw q1).

Definition lengthSquared (q : Quaternion) : R :=
  qx q * qx q + qy q * qy q + qz q * qz q + qw q * qw q.

End Quaternion.

(** Modelled from the spec: [v.rotateByQuaternionToRef(q, result)] of the math
    library (not under [src/]), the rotation of [v] by [q] computed as
    [v + w t + q x t] with [t = 2 q x v]. *)
Definition rotateByQuaternionToRef (v : Vector3) (q : Quaternion) : Vector3 :=
  let tx := 2 * (qy q * vz v - qz q * vy v) in
  let ty := 2 * (qz q * vx v - qx q * vz v) in
  let tz := 2 * (qx q * vy v - qy q * vx v) in
  mkVector3 (vx v + qw q * tx + qy q * tz - qz q * ty)
            (vy v + qw q * ty + qz q * tx - qx q * tz)
            (vz v + qw q * tz + qx q * ty - qy q * tx).

(** ** The Vehicle class *)

Inductive SurfaceType := planet | ground.

(** The fields of a [Vehicle] that the integrator reads or writes.
    [rotationQuaternion] is [rootNode.rotationQuaternion], which may be unset;
    the scene, the meshes and the render node's own position are left out. *)
Record Vehicle := mkVehicle {
  rotationQuaternion : option Quaternion;
  position : Vector3;
  speed : R;
  velocity : Vector3;
  momentum : Vector3;
  mass : R;
  maxSpeed : R;
  acceleration : R;
  friction : R;
  steerAngle : R;
  maxSteerAngle : R;
  inputAccelerate : R;
  inputSteer : R;
  inputHandbrake : bool;
  surfaceType : SurfaceType;
  planetRadius : R;
  planetCenter : Vector3;
  groundHeight : R;
  heightOffset : R;
  collisionPhysics : CollisionPhysics
}.

Module Vehicle.

(** *** Field assignments *)

Definition set_rotationQuaternion (this : Vehicle) (q : option Quaternion)
    : Vehicle :=
  mkVehicle q (position this) (speed this) (velocity this) (momentum this)
    (mass this) (maxSpeed this) (acceleration this) (friction this)
    (steerAngle this) (maxSteerAngle this) (inputAccelerate this)
    (inputSteer this) (inputHandbrake this) (surfaceType this)
    (planetRadius this) (planetCenter this) (groundHeight this)
    (heightOffset this) (collisionPhysics this).

Definition set_position (this : Vehicle) (p : Vector3) : Vehicle :=
  mkVehicle (rotationQuaternion this) p (speed this) (velocity this)
    (momentum this) (mass this) (maxSpeed this) (acceleration this)
    (friction this) (steerAngle this) (maxSteerAngle this)
    (inputAccelerate this) (inputSteer this) (inputHandbrake this)
    (surfaceType this) (planetRadius this) (planetCenter this)
    (groundHeight this) (heightOffset this) (collisionPhysics this).

Definition set_speed (this : Vehicle) (s : R) : Vehicle :=
  mkVehicle (rotationQuaternion this) (position this) s (velocity this)
    (momentum this) (mass this) (maxSpeed this) (acceleration this)
    (friction this) (steerAngle this) (maxSteerAngle this)
    (inputAccelerate this) (inputSteer this) (inputHandbrake this)
    (surfaceType this) (planetRadius this) (planetCenter this)
    (groundHeight this) (heightOffset this) (collisionPhysics this).

Definition set_velocity (this : Vehicle) (v : Vector3) : Vehicle :=
  mkVehicle (rotationQuaternion this) (position this) (speed this) v
    (momentum this) (mass this) (maxSpeed this) (acceleration this)
    (friction this) (steerAngle this) (maxSteerAngle this)
    (inputAccelerate this) (inputSteer this) (inputHandbrake this)
    (surfaceType this) (planetRadius this) (planetCenter this)
    (groundHeight this) (heightOffset this) (collisionPhysics this).

Definition set_momentum (this : Vehicle) (m : Vector3) : Vehicle :=
  mkVehicle (rotationQuaternion this) (position this) (speed this)
    (velocity this) m (mass this) (maxSpeed this) (acceleration this)
    (friction this) (steerAngle this) (maxSteerAngle this)
    (inputAccelerate this) (inputSteer this) (inputHandbrake this)
    (surfaceType this) (planetRadius this) (planetCenter this)
    (groundHeight this) (heightOffset this) (collisionPhysics this).

Definition set_steerAngle (this : Vehicle) (a : R) : Vehicle :=
  mkVehicle (rotationQuaternion this) (position this) (speed this)
    (velocity this) (momentum this) (mass this) (maxSpeed this)
    (acceleration this) (friction this) a (maxSteerAngle this)
    (inputAccelerate this) (inputSteer this) (inputHandbrake this)
    (surfaceType this) (planetRadius this) (planetCenter this)
    (groundHeight this) (heightOffset this) (collisionPhysics this).

Definition set_input (this : Vehicle) (a s : R) (h : bool) : Vehicle :=
  mkVehicle (rotationQuaternion this) (position this) (speed this)
    (velocity this) (momentum this) (mass this) (maxSpeed this)
    (acceleration this) (friction this) (steerAngle this)
    (maxSteerAngle this) a s h
    (surfaceType this) (planetRadius this) (planetCenter this)
    (groundHeight this) (heightOffset this) (collisionPhysics this).

(** [this.rootNode.rotationQuaternion || Quaternion.Identity()] *)
Definition currentRotationOf (this : Vehicle) : Quaternion :=
  match rotationQuaternion this with
  | Some q => q
  | None => Quaternion.Identity
  end.

(** *** Placement *)

(** [positionOnGround]; [rootNodePosition] is [this.rootNode.position] as the
    method finds it. *)
Definition positionOnGround (rootNodePosition : Vector3) (this : Vehicle)
    : Vehicle :=
  let this :=
    match surfaceType this with
    | planet =>
        let direction :=
          Vector3.normalize
            (Vector3.subtract rootNodePosition (planetCenter this)) in
        let targetDistance := planetRadius this + heightOffset this in
        set_position this
          (Vector3.add (planetCenter this)
             (Vector3.scale direction targetDistance))
    | ground =>
        set_position this
          (mkVector3 0 (groundHeight this + heightOffset this) 0)
    end in
  match rotationQuaternion this with
  | Some _ => this
  | None => set_rotationQuaternion this (Some Quaternion.Identity)
  end.

(** *** Control integration *)

Definition updateMovement (deltaTime : R) (this : Vehicle) : Vehicle :=
  let this :=
    if inputHandbrake this then
      let brakingForce := 30 in
      let speedSign := Math_sign (speed this) in
      let brakingAmount := brakingForce * deltaTime in
      if Rle_dec (Rabs (speed this)) brakingAmount
      then set_speed this 0
      else set_speed this (speed this - speedSign * brakingAmount)
    else
      let this :=
        set_speed this
          (speed this + inputAccelerate this * acceleration this * deltaTime) in
      let this :=
        set_speed this
          (Rmax (- maxSpeed this * 0.5) (Rmin (maxSpeed this) (speed this))) in
      set_speed this (speed this * Math_pow (friction this) deltaTime) in
  let absSpeed := Rabs (speed this) in
  if Rlt_dec absSpeed 0.5
  then set_steerAngle this 0
  else set_steerAngle this (inputSteer this * maxSteerAngle this * speed this).

Definition updateMomentum (deltaTime : R) (this : Vehicle) : Vehicle :=
  set_momentum this
    (CollisionPhysics.applyMomentumFriction (collisionPhysics this)
       (momentum this) deltaTime).

(** *** Ground mode *)

Definition updatePositionGround (deltaTime : R) (this : Vehicle) : Vehicle :=
  let this := updateMomentum deltaTime this in
  let currentRotation := currentRotationOf this in
  let localForward := mkVector3 0 0 1 in
  let forward := rotateByQuaternionToRef localForward currentRotation in
  let drivingVelocity := Vector3.scale forward (speed this) in
  let momentumVelocity :=
    CollisionPhysics.momentumToVelocity (collisionPhysics this)
      (momentum this) (mass this) in
  let this := set_velocity this (Vector3.add drivingVelocity momentumVelocity) in
  if Rlt_dec (Vector3.length (velocity this)) 0.1 then
    set_velocity this Vector3.Zero
  else
    let this :=
      set_position this
        (Vector3.add (position this) (Vector3.scale (velocity this) deltaTime)) in
    let this :=
      set_position this
        (mkVector3 (vx (position this))
                   (groundHeight this + heightOffset this)
                   (vz (position this))) in
    let steeringRotation :=
      Quaternion.RotationAxis Vector3.Up (steerAngle this * deltaTime) in
    let newRotation := Quaternion.multiply steeringRotation currentRotation in
    set_rotationQuaternion this (Some newRotation).

(** *** Planet mode *)

Definition createAlignmentRotation
    (currentRotation : Quaternion) (surfaceNormal : Vector3) : Quaternion :=
  let localUp := mkVector3 0 1 0 in
  let currentUp := rotateByQuaternionToRef localUp currentRotation in
  let rotationAxis := Vector3.Cross currentUp surfaceNormal in
  let rotationAxisLength := Vector3.length rotationAxis in
  if Rlt_dec rotationAxisLength 0.0001 then currentRotation
  else
    let angle := asin (Rmin 1 rotationAxisLength) in
    let alignmentQuat :=
      Quaternion.RotationAxis (Vector3.normalize rotationAxis) angle in
    Quaternion.multiply alignmentQuat currentRotation.

(** [updatePositionPlanet] read over the reals, where every quotient has a
    value; the frames on which the code divides by zero are told apart by
    [Checked.updatePositionPlanet]. *)
Definition updatePositionPlanet (deltaTime : R) (this : Vehicle) : Vehicle :=
  let this := updateMomentum deltaTime this in
  let currentRotation := currentRotationOf this in
  let surfaceNormal :=
    Vector3.normalize (Vector3.subtract (position this) (planetCenter this)) in
  let localForward := mkVector3 0 0 1 in
  let forward := rotateByQuaternionToRef localForward currentRotation in
  let drivingVelocity := Vector3.scale forward (speed this) in
  let momentumVelocity :=
    CollisionPhysics.momentumToVelocity (collisionPhysics this)
      (momentum this) (mass this) in
  let this := set_velocity this (Vector3.add drivingVelocity momentumVelocity) in
  if Rlt_dec (Vector3.length (velocity this)) 0.1 then
    set_velocity this Vector3.Zero
  else
    let dotProduct := Vector3.Dot forward surfaceNormal in
    let tangentForward :=
      Vector3.normalize
        (Vector3.subtract forward (Vector3.scale surfaceNormal dotProduct)) in
    let localUp := mkVector3 0 1 0 in
    let worldUp := rotateByQuaternionToRef localUp currentRotation in
    let steeringRotation :=
      Quaternion.RotationAxis worldUp (steerAngle this * deltaTime) in
    let newRotation := Quaternion.multiply steeringRotation currentRotation in
    let angularDisplacement := (speed this * deltaTime) / planetRadius this in
    let rotationAxis :=
      Vector3.normalize (Vector3.Cross surfaceNormal tangentForward) in
    let movementRotation :=
      Quaternion.RotationAxis rotationAxis angularDisplacement in
    let relativePosition :=
      Vector3.subtract (position this) (planetCenter this) in
    let newRelativePosition :=
      rotateByQuaternionToRef relativePosition movementRotation in
    let this :=
      set_position this (Vector3.add (planetCenter this) newRelativePosition) in
    let targetDistance := planetRadius this + heightOffset this in
    let currentDistance :=
      Vector3.Distance (position this) (planetCenter this) in
    let this :=
      if Rlt_dec 0.001 (Rabs (currentDistance - targetDistance)) then
        let correctedDirection :=
          Vector3.normalize
            (Vector3.subtract (position this) (planetCenter this)) in
        set_position this
          (Vector3.add (planetCenter this)
             (Vector3.scale correctedDirection targetDistance))
      else this in
    let newSurfaceNormal :=
      Vector3.normalize (Vector3.subtract (position this) (planetCenter this)) in
    let alignmentRotation :=
      createAlignmentRotation newRotation newSurfaceNormal in
    set_rotationQuaternion this (Some alignmentRotation).

Definition updatePosition (deltaTime : R) (this : Vehicle) : Vehicle :=
  match surfaceType this with
  | planet => updatePositionPlanet deltaTime this
  | ground => updatePositionGround deltaTime this
  end.

Definition update (deltaTime : R) (this : Vehicle) : Vehicle :=
  updatePosition deltaTime (updateMovement deltaTime this).

(** *** Exposed operations *)

Definition setInput (accelerate steer : R) (handbrake : bool) (this : Vehicle)
    : Vehicle :=
  set_input this accelerate steer handbrake.

Definition stopMovement (this : Vehicle) : Vehicle := set_speed this 0.

Definition getSpeed (this : Vehicle) : R := speed this.

Definition getPosition (this : Vehicle) : Vector3 :=
  Vector3.clone (position this).

Definition setPosition (p : Vector3) (this : Vehicle) : Vehicle :=
  set_position this (Vector3.clone p).


Definition setVelocity (v : Vector3) (this : Vehicle) : Vehicle :=
  let this := set_velocity this (Vector3.clone v) in
  set_speed this (Vector3.length (velocity this)).

Definition getMomentum (this : Vehicle) : Vector3 :=
  Vector3.clone (momentum this).

Definition setMomentum (m : Vector3) (this : Vehicle) : Vehicle :=
  set_momentum this (Vector3.clone m).

Definition applyCollisionImpulse (impulse : Vector3) (this : Vehicle)
    : Vehicle :=
  let momentumChange := impulse in
  let this := set_momentum this (Vector3.add (momentum this) momentumChange) in
  set_speed this 0.

(** *** Frames *)

(** One rendered frame as the game loop runs it: [setInput] with the frame's
    controls, then [update] with the frame's time step. *)
Record Frame := mkFrame {
  frame_accelerate : R;
  frame_steer : R;
  frame_handbrake : bool;
  frame_dt : R
}.

Definition runFrame (f : Frame) (this : Vehicle) : Vehicle :=
  update (frame_dt f)
    (setInput (frame_accelerate f) (frame_steer f) (frame_handbrake f) this).

Fixpoint runFrames (fs : list Frame) (this : Vehicle) : Vehicle :=
  match fs with
  | [] => this
  | f :: rest => runFrames rest (runFrame f this)
  end.

(** *** Predicates of the properties *)

(** [speed] lies in [[-maxSpeed * 0.5, maxSpeed]]. *)
Definition speedInRange (this : Vehicle) : Prop :=
  - maxSpeed this * 0.5 <= speed this <= maxSpeed this.

(** How far the distance to the planet's centre is from
    [planetRadius + heightOffset]. *)
Definition radialError (this : Vehicle) : R :=
  Rabs (Vector3.Distance (position this) (planetCenter this)
        - (planetRadius this + heightOffset this)).

(** *** Construction and surface detection *)

Definition set_surfaceType (this : Vehicle) (t : SurfaceType) : Vehicle :=
  mkVehicle (rotationQuaternion this) (position this) (speed this)
    (velocity this) (momentum this) (mass this) (maxSpeed this)
    (acceleration this) (friction this) (steerAngle this)
    (maxSteerAngle this) (inputAccelerate this) (inputSteer this)
    (inputHandbrake this) t (planetRadius this) (planetCenter this)
    (groundHeight this) (heightOffset this) (collisionPhysics this).

Definition set_planetRadius (this : Vehicle) (r : R) : Vehicle :=
  mkVehicle (rotationQuaternion this) (position this) (speed this)
    (velocity this) (momentum this) (mass this) (maxSpeed this)
    (acceleration this) (friction this) (steerAngle this)
    (maxSteerAngle this) (inputAccelerate this) (inputSteer this)
    (inputHandbrake this) (surfaceType this) r (planetCenter this)
    (groundHeight this) (heightOffset this) (collisionPhysics this).

Definition set_planetCenter (this : Vehicle) (c : Vector3) : Vehicle :=
  mkVehicle (rotationQuaternion this) (position this) (speed this)
    (velocity this) (momentum this) (mass this) (maxSpeed this)
    (acceleration this) (friction this) (steerAngle this)
    (maxSteerAngle this) (inputAccelerate this) (inputSteer this)
    (inputHandbrake this) (surfaceType this) (planetRadius this) c
    (groundHeight this) (heightOffset this) (collisionPhysics this).

Definition set_groundHeight (this : Vehicle) (h : R) : Vehicle :=
  mkVehicle (rotationQuaternion this) (position this) (speed this)
    (velocity this) (momentum this) (mass this) (maxSpeed this)
    (acceleration this) (friction this) (steerAngle this)
    (maxSteerAngle this) (inputAccelerate this) (inputSteer this)
    (inputHandbrake this) (surfaceType this) (planetRadius this)
    (planetCenter this) h (heightOffset this) (collisionPhysics this).

Definition set_heightOffset (this : Vehicle) (h : R) : Vehicle :=
  mkVehicle (rotationQuaternion this) (position this) (speed this)
    (velocity this) (momentum this) (mass this) (maxSpeed this)
    (acceleration this) (friction this) (steerAngle this)
    (maxSteerAngle this) (inputAccelerate this) (inputSteer this)
    (inputHandbrake this) (surfaceType this) (planetRadius this)
    (planetCenter this) (groundHeight this) h (collisionPhysics this).

(** [VehicleConfig.physics] *)
Record PhysicsConfig := mkPhysicsConfig {
  cfg_maxSpeed : R;
  cfg_acceleration : R;
  cfg_friction : R;
  cfg_maxSteerAngle : R;
  cfg_heightOffset : R;
  cfg_mass : option R
}.

(** The field initialisers and the constructor body; the render node does
    not exist yet, so there is no orientation. *)
Definition constructor (config : PhysicsConfig) : Vehicle :=
  {| rotationQuaternion := None;
     position := mkVector3 0 0 0;
     speed := 0;
     velocity := Vector3.Zero;
     momentum := Vector3.Zero;
     mass := CollisionPhysics.orDefault (cfg_mass config) 1000;
     maxSpeed := cfg_maxSpeed config;
     acceleration := cfg_acceleration config;
     friction := cfg_friction config;
     steerAngle := 0;
     maxSteerAngle := cfg_maxSteerAngle config;
     inputAccelerate := 0;
     inputSteer := 0;
     inputHandbrake := false;
     surfaceType := ground;
     planetRadius := 0;
     planetCenter := Vector3.Zero;
     groundHeight := 0;
     heightOffset := cfg_heightOffset config;
     collisionPhysics := CollisionPhysics.constructor CollisionPhysics.emptyConfig |}.

(** What [detectSurface] reads of the scene: the positions of the meshes
    named "Planet" and "Ground", when the scene has them. *)
Record Scene := mkScene {
  planetMesh : option Vector3;
  groundMesh : option Vector3
}.

(** [detectSurface]; [rootNodePosition] is [this.rootNode.position]. *)
Definition detectSurface (scene : Scene) (rootNodePosition : Vector3)
    (this : Vehicle) : Vehicle :=
  match planetMesh scene with
  | Some planetPosition =>
      let this := set_surfaceType this planet in
      let this := set_planetCenter this (Vector3.clone planetPosition) in
      let this := set_position this (Vector3.clone rootNodePosition) in
      set_planetRadius this
        (Vector3.Distance (position this) (planetCenter this))
  | None =>
      let this := set_surfaceType this ground in
      match groundMesh scene with
      | Some groundPosition => set_groundHeight this (vy groundPosition)
      | None => set_groundHeight this 0
      end
  end.

(** The render node an existing mesh brings along, once [useExistingMesh]
    has given it a rotation quaternion. *)
Record ExistingNode := mkExistingNode {
  node_position : Vector3;
  node_rotationQuaternion : Quaternion
}.

(** [create(existingMesh?)].  Without a mesh, [loadVehicleModel] makes a new
    transform node, which sits at the origin and has no rotation
    quaternion. *)
Definition create (scene : Scene) (existingMesh : option ExistingNode)
    (this : Vehicle) : Vehicle :=
  match existingMesh with
  | Some node =>
      let this :=
        set_rotationQuaternion this (Some (node_rotationQuaternion node)) in
      let this := detectSurface scene (node_position node) this in
      let this := set_position this (Vector3.clone (node_position node)) in
      match surfaceType this with
      | planet =>
          let currentDistance :=
            Vector3.Distance (position this) (planetCenter this) in
          set_heightOffset this (currentDistance - planetRadius this)
      | ground => this
      end
  | None =>
      let rootNodePosition := mkVector3 0 0 0 in
      let this := set_rotationQuaternion this None in
      let this := detectSurface scene rootNodePosition this in
      positionOnGround rootNodePosition this
  end.

(** *** Sequences of exposed operations *)

Inductive Op :=
| OpFrame (f : Frame)
| OpApplyCollisionImpulse (imp : Vector3)
| OpSetMomentum (m : Vector3)
| OpSetVelocity (v : Vector3)
| OpStopMovement
| OpSetPosition (p : Vector3).

Definition runOp (o : Op) (this : Vehicle) : Vehicle :=
  match o with
  | OpFrame f => runFrame f this
  | OpApplyCollisionImpulse imp => applyCollisionImpulse imp this
  | OpSetMomentum m => setMomentum m this
  | OpSetVelocity v => setVelocity v this
  | OpStopMovement => stopMovement this
  | OpSetPosition p => setPosition p this
  end.

Fixpoint runOps (os : list Op) (this : Vehicle) : Vehicle :=
  match os with
  | [] => this
  | o :: rest => runOps rest (runOp o this)
  end.

Definition isSetPosition (o : Op) : bool :=
  match o with OpSetPosition _ => true | _ => false end.

(** The local up and forward axes in world space. *)
Definition worldUpOf (q : Quaternion) : Vector3 :=
  rotateByQuaternionToRef (mkVector3 0 1 0) q.

Definition getDirection (this : Vehicle) : Vector3 :=
  let currentRotation := currentRotationOf this in
  let localForward := mkVector3 0 0 1 in
  rotateByQuaternionToRef localForward currentRotation.

End Vehicle.

(** ** Frames that leave a non-finite value *)

(** The integrator divides in three places: [Quaternion.RotationAxis] by the
    length of its axis, the planet integrator by [planetRadius], and
    [Math.pow] of the friction has no finite value for some arguments.
    JavaScript does not stop there: the result is NaN or an infinity, and it
    spreads to the speed, the position and the orientation.  [Checked] reads
    a frame with that outcome written out: [Some x] is the finite result [x],
    [None] says that the frame has stored a NaN or an infinity in the
    vehicle.  The vehicle a frame starts from holds finite numbers. *)
Module Checked.

Definition bind {A B : Type} (a : option A) (k : A -> option B) : option B :=
  match a with
  | Some x => k x
  | None => None
  end.

Notation "x <- a ;; k" := (bind a (fun x => k))
  (at level 61, a at next level, right associativity).

(** [a / b]: an infinity or NaN when [b] is 0. *)
Definition div (a b : R) : option R :=
  if Req_dec_T b 0 then None else Some (a / b).

(** [Math.pow(b, e)]: the power of a positive base; anything to the power 0
    is 1; 0 to a positive power is 0 and to a negative one an infinity; a
    negative base has a power for an integer exponent and NaN otherwise. *)
Definition Math_pow (b e : R) : option R :=
  if Rlt_dec 0 b then Some (Rpower b e)
  else if Req_dec_T e 0 then Some 1
  else if Req_dec_T b 0 then (if Rlt_dec 0 e then Some 0 else None)
  else if Req_dec_T e (IZR (Int_part e)) then Some (powerRZ b (Int_part e))
  else None.

(** Modelled from the spec: [Quaternion.RotationAxis(axis, angle)] of the
    math library divides the sine of the half angle by [axis.length()]; for
    an axis of length 0 the quotient is an infinity or NaN, and its product
    with the components of the axis, which are 0, is NaN. *)
Definition RotationAxis (axis : Vector3) (angle : R) : option Quaternion :=
  if Req_dec_T (Vector3.length axis) 0 then None
  else Some (Quaternion.RotationAxis axis angle).

Definition updateMovement (deltaTime : R) (this : Vehicle) : option Vehicle :=
  this <-
    (if inputHandbrake this then
       let brakingForce := 30 in
       let speedSign := Math_sign (speed this) in
       let brakingAmount := brakingForce * deltaTime in
       if Rle_dec (Rabs (speed this)) brakingAmount
       then Some (Vehicle.set_speed this 0)
       else Some (Vehicle.set_speed this
                    (speed this - speedSign * brakingAmount))
     else
       let this :=
         Vehicle.set_speed this
           (speed this
            + inputAccelerate this * acceleration this * deltaTime) in
       let this :=
         Vehicle.set_speed this
           (Rmax (- maxSpeed this * 0.5)
              (Rmin (maxSpeed this) (speed this))) in
       decay <- Math_pow (friction this) deltaTime ;;
       Some (Vehicle.set_speed this (speed this * decay))) ;;
  let absSpeed := Rabs (speed this) in
  if Rlt_dec absSpeed 0.5
  then Some (Vehicle.set_steerAngle this 0)
  else Some (Vehicle.set_steerAngle this
               (inputSteer this * maxSteerAngle this * speed this)).

(** The velocity that a position update computes before it tests it
    against 0.1: the heading times the speed, plus the velocity of the
    momentum left by its friction. *)
Definition frameVelocity (deltaTime : R) (this : Vehicle) : Vector3 :=
  let this := Vehicle.updateMomentum deltaTime this in
  let currentRotation := Vehicle.currentRotationOf this in
  let localForward := mkVector3 0 0 1 in
  let forward := rotateByQuaternionToRef localForward currentRotation in
  let drivingVelocity := Vector3.scale forward (speed this) in
  let momentumVelocity :=
    CollisionPhysics.momentumToVelocity (collisionPhysics this)
      (momentum this) (mass this) in
  Vector3.add drivingVelocity momentumVelocity.

(** The local [rotationAxis] of [updatePositionPlanet]: the axis about which
    the position is turned around the planet's centre. *)
Definition rotationAxisOf (this : Vehicle) : Vector3 :=
  let currentRotation := Vehicle.currentRotationOf this in
  let surfaceNormal :=
    Vector3.normalize (Vector3.subtract (position this) (planetCenter this)) in
  let localForward := mkVector3 0 0 1 in
  let forward := rotateByQuaternionToRef localForward currentRotation in
  let dotProduct := Vector3.Dot forward surfaceNormal in
  let tangentForward :=
    Vector3.normalize
      (Vector3.subtract forward (Vector3.scale surfaceNormal dotProduct)) in
  Vector3.normalize (Vector3.Cross surfaceNormal tangentForward).

(** [updatePositionPlanet].  [createAlignmentRotation] hands
    [Quaternion.RotationAxis] a normalized axis of length at least 1e-4 and
    so computes no non-finite value from finite ones. *)
Definition updatePositionPlanet (deltaTime : R) (this : Vehicle)
    : option Vehicle :=
  let this := Vehicle.updateMomentum deltaTime this in
  let currentRotation := Vehicle.currentRotationOf this in
  let surfaceNormal :=
    Vector3.normalize (Vector3.subtract (position this) (planetCenter this)) in
  let localForward := mkVector3 0 0 1 in
  let forward := rotateByQuaternionToRef localForward currentRotation in
  let drivingVelocity := Vector3.scale forward (speed this) in
  let momentumVelocity :=
    CollisionPhysics.momentumToVelocity (collisionPhysics this)
      (momentum this) (mass this) in
  let this :=
    Vehicle.set_velocity this (Vector3.add drivingVelocity momentumVelocity) in
  if Rlt_dec (Vector3.length (velocity this)) 0.1 then
    Some (Vehicle.set_velocity this Vector3.Zero)
  else
    let dotProduct := Vector3.Dot forward surfaceNormal in
    let tangentForward :=
      Vector3.normalize
        (Vector3.subtract forward (Vector3.scale surfaceNormal dotProduct)) in
    let localUp := mkVector3 0 1 0 in
    let worldUp := rotateByQuaternionToRef localUp currentRotation in
    steeringRotation <- RotationAxis worldUp (steerAngle this * deltaTime) ;;
    let newRotation := Quaternion.multiply steeringRotation currentRotation in
    angularDisplacement <- div (speed this * deltaTime) (planetRadius this) ;;
    let rotationAxis :=
      Vector3.normalize (Vector3.Cross surfaceNormal tangentForward) in
    movementRotation <- RotationAxis rotationAxis angularDisplacement ;;
    let relativePosition :=
      Vector3.subtract (position this) (planetCenter this) in
    let newRelativePosition :=
      rotateByQuaternionToRef relativePosition movementRotation in
    let this :=
      Vehicle.set_position this
        (Vector3.add (planetCenter this) newRelativePosition) in
    let targetDistance := planetRadius this + heightOffset this in
    let currentDistance :=
      Vector3.Distance (position this) (planetCenter this) in
    let this :=
      if Rlt_dec 0.001 (Rabs (currentDistance - targetDistance)) then
        let correctedDirection :=
          Vector3.normalize
            (Vector3.subtract (position this) (planetCenter this)) in
        Vehicle.set_position this
          (Vector3.add (planetCenter this)
             (Vector3.scale correctedDirection targetDistance))
      else this in
    let newSurfaceNormal :=
      Vector3.normalize (Vector3.subtract (position this) (planetCenter this)) in
    let alignmentRotation :=
      Vehicle.createAlignmentRotation newRotation newSurfaceNormal in
    Some (Vehicle.set_rotationQuaternion this (Some alignmentRotation)).

(** [updatePositionGround] turns about [Vector3.Up], whose length is 1, and
    divides nowhere else. *)
Definition updatePositionGround (deltaTime : R) (this : Vehicle)
    : option Vehicle :=
  Some (Vehicle.updatePositionGround deltaTime this).

Definition updatePosition (deltaTime : R) (this : Vehicle) : option Vehicle :=
  match surfaceType this with
  | planet => updatePositionPlanet deltaTime this
  | ground => updatePositionGround deltaTime this
  end.

Definition update (deltaTime : R) (this : Vehicle) : option Vehicle :=
  this <- updateMovement deltaTime this ;;
  updatePosition deltaTime this.

Definition runFrame (f : Vehicle.Frame) (this : Vehicle) : option Vehicle :=
  update (Vehicle.frame_dt f)
    (Vehicle.setInput (Vehicle.frame_accelerate f) (Vehicle.frame_steer f)
       (Vehicle.frame_handbrake f) this).

Fixpoint runFrames (fs : list Vehicle.Frame) (this : Vehicle)
    : option Vehicle :=
  match fs with
  | [] => Some this
  | f :: rest => this <- runFrame f this ;; runFrames rest this
  end.

Definition runOp (o : Vehicle.Op) (this : Vehicle) : option Vehicle :=
  match o with
  | Vehicle.OpFrame f => runFrame f this
  | _ => Some (Vehicle.runOp o this)
  end.

Fixpoint runOps (os : list Vehicle.Op) (this : Vehicle) : option Vehicle :=
  match os with
  | [] => Some this
  | o :: rest => this <- runOp o this ;; runOps rest this
  end.

End Checked.

(** ** InputManager.ts *)

Module InputManager.

(** [keys: { [key: string]: boolean }]; a code never seen has no entry. *)
Definition Keys := string -> option bool.

Definition noKeys : Keys := fun _ => None.

(** [keys[k] = b] *)
Definition setKey (keys : Keys) (k : string) (b : bool) : Keys :=
  fun k' => if String.eqb k k' then Some b else keys k'.

(** Truthiness of [keys[k]]. *)
Definition pressed (keys : Keys) (k : string) : bool :=
  match keys k with
  | Some true => true
  | _ => false
  end.

(** [code.toLowerCase()] for the ASCII codes of keyboard events. *)
Definition lowerAscii (c : ascii) : ascii :=
  let n := nat_of_ascii c in
  if Nat.leb 65 n && Nat.leb n 90 then ascii_of_nat (n + 32) else c.

Fixpoint toLowerCase (s : string) : string :=
  match s with
  | EmptyString => EmptyString
  | String c rest => String (lowerAscii c) (toLowerCase rest)
  end.

(** What the keydown listener reads of [event.target]. *)
Record EventTarget := mkEventTarget {
  tagName : string;
  isContentEditable : bool
}.

Definition onKeyDown (target : EventTarget) (code : string) (keys : Keys)
    : Keys :=
  if String.eqb (tagName target) "INPUT"
     || String.eqb (tagName target) "TEXTAREA"
     || isContentEditable target
  then keys
  else
    let code := toLowerCase code in
    setKey keys code true.

Definition onKeyUp (code : string) (keys : Keys) : Keys :=
  setKey keys (toLowerCase code) false.

Record Input := mkInput {
  accelerate : R;
  steer : R;
  handbrake : bool
}.

Definition getInput (keys : Keys) : Input :=
  let accelerate := 0 in
  let steer := 0 in
  let handbrake := false in
  let accelerate :=
    if pressed keys "keyw" || pressed keys "arrowup" then 1 else accelerate in
  let accelerate :=
    if pressed keys "keys" || pressed keys "arrowdown" then -1
    else accelerate in
  let steer :=
    if pressed keys "keya" || pressed keys "arrowleft" then 1 else steer in
  let steer :=
    if pressed keys "keyd" || pressed keys "arrowright" then -1 else steer in
  let handbrake := if pressed keys "space" then true else handbrake in
  {| accelerate := accelerate; steer := steer; handbrake := handbrake |}.

End InputManager.

(** ** Game: the render loop and the follow camera *)

Module Game.

(** The vehicle part of one turn of the render loop; [engineDeltaTime] is
    [engine.getDeltaTime()], in milliseconds. *)
Definition renderLoopStep (keys : InputManager.Keys) (engineDeltaTime : R)
    (vehicle : option Vehicle) : option Vehicle :=
  match vehicle with
  | Some vehicle =>
      let input := InputManager.getInput keys in
      let vehicle :=
        Vehicle.setInput (InputManager.accelerate input)
          (InputManager.steer input) (InputManager.handbrake input) vehicle in
      let deltaTime := engineDeltaTime / 1000 in
      Some (Vehicle.update deltaTime vehicle)
  | None => None
  end.

(** The frame that [renderLoopStep] hands to the vehicle. *)
Definition frameOf (keys : InputManager.Keys) (engineDeltaTime : R)
    : Vehicle.Frame :=
  let input := InputManager.getInput keys in
  Vehicle.mkFrame (InputManager.accelerate input) (InputManager.steer input)
    (InputManager.handbrake input) (engineDeltaTime / 1000).

(** Where [updateFollowingCamera] wants the camera; [activePosition] and
    [activeRotation] are the absolute position and rotation of the
    vehicle's mesh. *)
Definition cameraTarget (activePosition : Vector3) (activeRotation : Quaternion)
    : Vector3 :=
  let localUp := mkVector3 0 1 0 in
  let localForward := mkVector3 0 0 1 in
  let vehicleUp := rotateByQuaternionToRef localUp activeRotation in
  let forward := rotateByQuaternionToRef localForward activeRotation in
  let up := vehicleUp in
  let backward := Vector3.scale forward (-1) in
  let cameraDistance := 13 in
  let cameraHeight := 3.5 in
  Vector3.add
    (Vector3.add activePosition
       (Vector3.scale (Vector3.normalize backward) cameraDistance))
    (Vector3.scale up cameraHeight).

Definition lerpSpeedOf (speed : R) : R :=
  let smoothFactor := Rmin 1 (Rabs speed / 3) in
  0.02 + smoothFactor * 0.08.

(** The new [camera.position] of [updateFollowingCamera]. *)
Definition updateFollowingCamera
    (activePosition : Vector3) (activeRotation : Quaternion) (speed : R)
    (cameraPosition : Vector3) : Vector3 :=
  let cameraPosition' := cameraTarget activePosition activeRotation in
  let lerpSpeed := lerpSpeedOf speed in
  Vector3.Lerp cameraPosition cameraPosition' lerpSpeed.

End Game.

(** ** Concrete vehicles *)

Module Examples.

(** A ground vehicle driving along +z at speed 2 while a collision momentum
    pushes it along -z; the player steers fully to one side. *)
Definition slidingCar : Vehicle :=
  {| rotationQuaternion := Some Quaternion.Identity;
     position := mkVector3 0 0 0;
     speed := 2;
     velocity := Vector3.Zero;
     momentum := mkVector3 0 0 (-1000);
     mass := 600;
     maxSpeed := 10;
     acceleration := 5;
     friction := 0.5;
     steerAngle := 0;
     maxSteerAngle := 1;
     inputAccelerate := 0;
     inputSteer := 1;
     inputHandbrake := false;
     surfaceType := ground;
     planetRadius := 0;
     planetCenter := Vector3.Zero;
     groundHeight := 0;
     heightOffset := 0;
     collisionPhysics := CollisionPhysics.default |}.

(** A ground vehicle at speed 10 with the handbrake engaged. *)
Definition brakingCar : Vehicle :=
  {| rotationQuaternion := Some Quaternion.Identity;
     position := mkVector3 0 0 0;
     speed := 10;
     velocity := mkVector3 0 0 10;
     momentum := Vector3.Zero;
     mass := 1000;
     maxSpeed := 10;
     acceleration := 5;
     friction := 0.5;
     steerAngle := 0;
     maxSteerAngle := 1;
     inputAccelerate := 0;
     inputSteer := 0;
     inputHandbrake := true;
     surfaceType := ground;
     planetRadius := 0;
     planetCenter := Vector3.Zero;
     groundHeight := 0;
     heightOffset := 0;
     collisionPhysics := CollisionPhysics.default |}.

(** A ground vehicle cruising at its top speed 10, with friction [f]. *)
Definition cruisingCar (f : R) : Vehicle :=
  {| rotationQuaternion := Some Quaternion.Identity;
     position := mkVector3 0 0 0;
     speed := 10;
     velocity := mkVector3 0 0 10;
     momentum := Vector3.Zero;
     mass := 1000;
     maxSpeed := 10;
     acceleration := 5;
     friction := f;
     steerAngle := 0;
     maxSteerAngle := 1;
     inputAccelerate := 0;
     inputSteer := 0;
     inputHandbrake := false;
     surfaceType := ground;
     planetRadius := 0;
     planetCenter := Vector3.Zero;
     groundHeight := 0;
     heightOffset := 0;
     collisionPhysics := CollisionPhysics.default |}.


(** A vehicle on the north pole of a planet of radius 100 centred at the
    origin, riding 1 above the surface and heading along +z. *)
Definition poleCar : Vehicle :=
  {| rotationQuaternion := Some Quaternion.Identity;
     position := mkVector3 0 101 0;
     speed := 5;
     velocity := Vector3.Zero;
     momentum := Vector3.Zero;
     mass := 1000;
     maxSpeed := 10;
     acceleration := 5;
     friction := 0.5;
     steerAngle := 0;
     maxSteerAngle := 1;
     inputAccelerate := 0;
     inputSteer := 0;
     inputHandbrake := false;
     surfaceType := planet;
     planetRadius := 100;
     planetCenter := Vector3.Zero;
     groundHeight := 0;
     heightOffset := 1;
     collisionPhysics := CollisionPhysics.default |}.

(** The scene of a planet whose centre lies 100 below the origin on the z
    axis, a configuration, and the vehicle that [create] makes of them
    without a mesh: it is put 1 above the planet's surface at [(0, 0, 1)]
    with the identity as orientation, heading along +z, which is also the
    direction of the surface normal there. *)
Definition spawnScene : Vehicle.Scene :=
  Vehicle.mkScene (Some (mkVector3 0 0 (-100))) None.

Definition spawnConfig : Vehicle.PhysicsConfig :=
  Vehicle.mkPhysicsConfig 10 5 0.5 1 1 None.

Definition spawned : Vehicle :=
  Vehicle.create spawnScene None (Vehicle.constructor spawnConfig).

End Examples.

(** ** Auxiliary notions for the proofs *)

(** The fields that [updatePosition] never writes. *)
Definition sameDrivingState (a b : Vehicle) : Prop :=
  speed a = speed b /\ mass a = mass b /\ maxSpeed a = maxSpeed b /\
  acceleration a = acceleration b /\ friction a = friction b /\
  steerAngle a = steerAngle b /\ maxSteerAngle a = maxSteerAngle b /\
  inputAccelerate a = inputAccelerate b /\ inputSteer a = inputSteer b /\
  inputHandbrake a = inputHandbrake b /\
  surfaceType a = surfaceType b /\ planetRadius a = planetRadius b /\
  planetCenter a = planetCenter b /\ groundHeight a = groundHeight b /\
  heightOffset a = heightOffset b /\ collisionPhysics a = collisionPhysics b.

Ltac split_ifs :=
  repeat match goal with
         | |- context [if ?c then _ else _] => destruct c
         end.


(** The vector [q v q*] (the quaternion product with [v] as a pure
    quaternion), for any [q]; for a unit [q] it is what
    [rotateByQuaternionToRef] computes. *)
Definition sandwich (q : Quaternion) (v : Vector3) : Vector3 :=
  let u := mkVector3 (qx q) (qy q) (qz q) in
  let uu := Vector3.Dot u u in
  Vector3.add
    (Vector3.add (Vector3.scale v (qw q * qw q - uu))
       (Vector3.scale (Vector3.Cross u v) (2 * qw q)))
    (Vector3.scale u (2 * Vector3.Dot u v)).

(** * Properties *)

(** ** Vector facts *)

Section VectorFacts.

Lemma sumsq_nonneg (a b c : R) : 0 <= a * a + b * b + c * c.
Proof. nra. Qed.

Lemma length_nonneg (v : Vector3) : 0 <= Vector3.length v.
Proof. apply sqrt_pos. Qed.

Lemma length_Zero : Vector3.length Vector3.Zero = 0.
Proof.
  unfold Vector3.length, Vector3.Zero; simpl.
  replace (0 * 0 + 0 * 0 + 0 * 0) with 0 by ring.
  apply sqrt_0.
Qed.

Lemma length_sqr (v : Vector3) :
  Vector3.length v * Vector3.length v
  = vx v * vx v + vy v * vy v + vz v * vz v.
Proof. unfold Vector3.length. apply sqrt_sqrt, sumsq_nonneg. Qed.

Lemma length_eq_0 (v : Vector3) : Vector3.length v = 0 -> v = Vector3.Zero.
Proof.
  intros H. pose proof (length_sqr v) as Hs. rewrite H in Hs.
  destruct v as [x y z]; simpl in *. unfold Vector3.Zero.
  assert (x = 0) by nra. assert (y = 0) by nra. assert (z = 0) by nra.
  subst. reflexivity.
Qed.

Lemma length_pos (v : Vector3) : v <> Vector3.Zero -> 0 < Vector3.length v.
Proof.
  intros Hv. destruct (length_nonneg v) as [H | H]; [exact H |].
  exfalso. apply Hv, length_eq_0. symmetry. exact H.
Qed.

Lemma length_scale (v : Vector3) (k : R) :
  0 <= k -> Vector3.length (Vector3.scale v k) = k * Vector3.length v.
Proof.
  intros Hk. unfold Vector3.length, Vector3.scale; simpl.
  replace (vx v * k * (vx v * k) + vy v * k * (vy v * k)
           + vz v * k * (vz v * k))
    with ((k * k) * (vx v * vx v + vy v * vy v + vz v * vz v)) by ring.
  rewrite sqrt_mult by (try apply sumsq_nonneg; nra).
  rewrite sqrt_square by exact Hk. reflexivity.
Qed.

Lemma scale_Zero (k : R) : Vector3.scale Vector3.Zero k = Vector3.Zero.
Proof.
  unfold Vector3.scale, Vector3.Zero; simpl. f_equal; ring.
Qed.

Lemma length_axis_x (a : R) : 0 <= a -> Vector3.length (mkVector3 a 0 0) = a.
Proof.
  intros Ha. unfold Vector3.length; simpl.
  replace (a * a + 0 * 0 + 0 * 0) with (a * a) by ring.
  apply sqrt_square, Ha.
Qed.

Lemma length_eq_of_sqr (u v : Vector3) :
  vx u * vx u + vy u * vy u + vz u * vz u
  = vx v * vx v + vy v * vy v + vz v * vz v ->
  Vector3.length u = Vector3.length v.
Proof. intros H. unfold Vector3.length. rewrite H. reflexivity. Qed.

Lemma subtract_eq_Zero (p c : Vector3) :
  Vector3.subtract p c = Vector3.Zero -> p = c.
Proof.
  destruct p as [x y z], c as [a b e].
  unfold Vector3.subtract, Vector3.Zero; simpl.
  intros E. injection E as E1 E2 E3. f_equal; lra.
Qed.

End VectorFacts.

(** ** CollisionPhysics *)

Section FrictionStep.

Variable this : CollisionPhysics.
Variable dt : R.

(** The factor by which one call scales the momentum. *)
Let k := Rmax 0 (1 - momentumFriction this * dt).

Lemma dragFactor_nonneg : 0 <= k.
Proof. apply Rmax_l. Qed.

Lemma applyMomentumFriction_cases (m : Vector3) :
  CollisionPhysics.applyMomentumFriction this m dt = Vector3.Zero \/
  (CollisionPhysics.applyMomentumFriction this m dt = Vector3.scale m k /\
   momentumThreshold this <= Vector3.length (Vector3.scale m k)).
Proof.
  unfold CollisionPhysics.applyMomentumFriction. fold k.
  destruct (Rlt_dec _ _) as [Hlt | Hge]; [left | right]; auto.
  split; [reflexivity | lra].
Qed.

Lemma applyMomentumFriction_Zero :
  CollisionPhysics.applyMomentumFriction this Vector3.Zero dt = Vector3.Zero.
Proof.
  destruct (applyMomentumFriction_cases Vector3.Zero) as [H | [H _]];
    rewrite H; [reflexivity | apply scale_Zero].
Qed.

Lemma applyMomentumFrictionN_Zero (n : nat) :
  CollisionPhysics.applyMomentumFrictionN this n Vector3.Zero dt
  = Vector3.Zero.
Proof.
  induction n as [| n IH]; simpl; [reflexivity |].
  rewrite IH. apply applyMomentumFriction_Zero.
Qed.

Lemma applyMomentumFrictionN_plus (n j : nat) (m : Vector3) :
  CollisionPhysics.applyMomentumFrictionN this (n + j) m dt
  = CollisionPhysics.applyMomentumFrictionN this j
      (CollisionPhysics.applyMomentumFrictionN this n m dt) dt.
Proof.
  induction j as [| j IH].
  - rewrite Nat.add_0_r. reflexivity.
  - rewrite Nat.add_succ_r. simpl. rewrite IH. reflexivity.
Qed.

Lemma scale_scale (m : Vector3) (a b : R) :
  Vector3.scale (Vector3.scale m a) b = Vector3.scale m (a * b).
Proof. unfold Vector3.scale; simpl. f_equal; ring. Qed.

(** Before it is snapped, the [n]-th iterate is the start scaled by [k^n]. *)
Lemma applyMomentumFrictionN_shape (n : nat) (m : Vector3) :
  CollisionPhysics.applyMomentumFrictionN this n m dt = Vector3.Zero \/
  CollisionPhysics.applyMomentumFrictionN this n m dt
  = Vector3.scale m (k ^ n).
Proof.
  induction n as [| n IH]; simpl.
  - right. destruct m as [x y z]. unfold Vector3.scale; simpl.
    f_equal; ring.
  - destruct IH as [IH | IH]; rewrite IH.
    + left. apply applyMomentumFriction_Zero.
    + destruct (applyMomentumFriction_cases (Vector3.scale m (k ^ n)))
        as [H | [H _]]; rewrite H; [left; reflexivity | right].
      rewrite scale_scale. f_equal. ring.
Qed.

Hypothesis friction_pos : 0 < momentumFriction this.
Hypothesis dt_pos : 0 < dt.

Lemma dragFactor_lt_1 : k < 1.
Proof.
  unfold k. apply Rmax_lub_lt; [lra |].
  assert (0 < momentumFriction this * dt) by (apply Rmult_lt_0_compat; assumption).
  lra.
Qed.

Lemma applyMomentumFriction_decreases (m : Vector3) :
  m <> Vector3.Zero ->
  Vector3.length (CollisionPhysics.applyMomentumFriction this m dt)
  < Vector3.length m.
Proof.
  intros Hm. pose proof (length_pos m Hm) as Hpos.
  destruct (applyMomentumFriction_cases m) as [H | [H _]]; rewrite H.
  - rewrite length_Zero. exact Hpos.
  - rewrite length_scale by apply dragFactor_nonneg.
    pose proof dragFactor_lt_1. pose proof dragFactor_nonneg. nra.
Qed.

Lemma applyMomentumFrictionN_reaches_Zero (m : Vector3) :
  0 < momentumThreshold this ->
  exists N : nat, forall n : nat, (N <= n)%nat ->
    CollisionPhysics.applyMomentumFrictionN this n m dt = Vector3.Zero.
Proof.
  intros Hth.
  pose proof dragFactor_nonneg as Hk0. pose proof dragFactor_lt_1 as Hk1.
  pose proof (length_nonneg m) as Hlen.
  assert (Hy : 0 < momentumThreshold this / (Vector3.length m + 1)).
  { apply Rdiv_lt_0_compat; lra. }
  destruct (pow_lt_1_zero k) with (y := momentumThreshold this / (Vector3.length m + 1))
    as [N HN]; [rewrite Rabs_pos_eq; lra | exact Hy |].
  exists (S N). intros n Hn.
  destruct n as [| n]; [lia |]. simpl.
  destruct (applyMomentumFrictionN_shape n m) as [H | H]; rewrite H.
  - apply applyMomentumFriction_Zero.
  - destruct (applyMomentumFriction_cases (Vector3.scale m (k ^ n)))
      as [H' | [_ H']]; [exact H' | exfalso].
    rewrite scale_scale in H'.
    assert (Hp : 0 <= k ^ n * k) by (apply Rmult_le_pos; [apply pow_le |]; lra).
    rewrite length_scale in H' by exact Hp.
    specialize (HN (S n) ltac:(lia)).
    rewrite Rabs_pos_eq in HN by (apply pow_le; lra).
    simpl in HN. replace (k ^ n * k) with (k * k ^ n) in H' by ring.
    assert (Hq : k * k ^ n * (Vector3.length m + 1) < momentumThreshold this).
    { apply (Rmult_lt_compat_r (Vector3.length m + 1)) in HN; [| lra].
      replace (momentumThreshold this / (Vector3.length m + 1)
               * (Vector3.length m + 1))
        with (momentumThreshold this) in HN by (field; lra).
      exact HN. }
    assert (0 <= k * k ^ n) by (rewrite Rmult_comm; exact Hp).
    nra.
Qed.

End FrictionStep.



(** C8. For every body and every unit collision normal [n],
    [calculateStaticCollision] returns [(mass * v - 2 * mass * (v . n) * n)]
    scaled by [staticObjectDamping]; with the default configuration, velocity
    [(1,0,0)], mass 1000 and normal [(1,0,0)] the x component of the result
    is -400. *)
Theorem calculateStaticCollision_reflects_then_damps :
  (forall (this : CollisionPhysics) (body : PhysicsBody) (n : Vector3),
     Vector3.length n = 1 ->
     CollisionPhysics.calculateStaticCollision this body n
     = Vector3.scale
         (Vector3.subtract
            (Vector3.scale (body_velocity body) (body_mass body))
            (Vector3.scale n
               (2 * body_mass body * Vector3.Dot (body_velocity body) n)))
         (staticObjectDamping this)) /\
  vx (CollisionPhysics.calculateStaticCollision CollisionPhysics.default
        (mkPhysicsBody (mkVector3 1 0 0) 1000 (mkVector3 0 0 0))
        (mkVector3 1 0 0))
  = -400.
Proof.
  split.
  - intros this body n _.
    unfold CollisionPhysics.calculateStaticCollision.
    unfold Vector3.scale, Vector3.subtract; simpl.
    f_equal; ring.
  - unfold CollisionPhysics.calculateStaticCollision, Vector3.Dot; simpl. lra.
Qed.

Lemma calculateStaticCollision_reflects_then_damps_witness :
  Vector3.length (mkVector3 1 0 0) = 1 /\
  CollisionPhysics.calculateStaticCollision CollisionPhysics.default
    (mkPhysicsBody (mkVector3 1 0 0) 1000 (mkVector3 0 0 0)) (mkVector3 1 0 0)
  = Vector3.scale
      (Vector3.subtract
         (Vector3.scale (mkVector3 1 0 0) 1000)
         (Vector3.scale (mkVector3 1 0 0)
            (2 * 1000 * Vector3.Dot (mkVector3 1 0 0) (mkVector3 1 0 0))))
      (staticObjectDamping CollisionPhysics.default).
Proof.
  assert (Hn : Vector3.length (mkVector3 1 0 0) = 1)
    by (apply length_axis_x; lra).
  split; [exact Hn |].
  apply (proj1 calculateStaticCollision_reflects_then_damps
           CollisionPhysics.default
           (mkPhysicsBody (mkVector3 1 0 0) 1000 (mkVector3 0 0 0))
           (mkVector3 1 0 0) Hn).
Defined.

(** C5. [applyMomentumFriction m dt] is [m] scaled by
    [max(0, 1 - momentumFriction * dt)] when the magnitude of that scaled
    vector is at least [momentumThreshold], and the zero vector otherwise;
    with the default friction 0.4, [(100,0,0)] and [dt = 1] give
    [(60,0,0)]. *)
Theorem applyMomentumFriction_scales_or_snaps :
  (forall (this : CollisionPhysics) (m : Vector3) (dt : R),
     let scaled :=
       Vector3.scale m (Rmax 0 (1 - momentumFriction this * dt)) in
     (momentumThreshold this <= Vector3.length scaled ->
      CollisionPhysics.applyMomentumFriction this m dt = scaled) /\
     (Vector3.length scaled < momentumThreshold this ->
      CollisionPhysics.applyMomentumFriction this m dt = mkVector3 0 0 0)) /\
  CollisionPhysics.applyMomentumFriction CollisionPhysics.default
    (mkVector3 100 0 0) 1
  = mkVector3 60 0 0.
Proof.
  split.
  - intros this m dt scaled. subst scaled.
    unfold CollisionPhysics.applyMomentumFriction.
    destruct (Rlt_dec _ _) as [Hlt | Hge]; split; intros H;
      try reflexivity; lra.
  - unfold CollisionPhysics.applyMomentumFriction; simpl.
    replace (Rmax 0 (1 - 0.4 * 1)) with 0.6
      by (rewrite Rmax_right; lra).
    replace (Vector3.scale (mkVector3 100 0 0) 0.6) with (mkVector3 60 0 0)
      by (unfold Vector3.scale; simpl; f_equal; lra).
    rewrite length_axis_x by lra.
    destruct (Rlt_dec 60 0.05) as [Hlt | _]; [lra | reflexivity].
Qed.

Lemma applyMomentumFriction_scales_or_snaps_witness :
  CollisionPhysics.applyMomentumFriction CollisionPhysics.default
    (mkVector3 0 0 0) 1
  = mkVector3 0 0 0.
Proof.
  apply (proj2 (proj1 applyMomentumFriction_scales_or_snaps
                  CollisionPhysics.default (mkVector3 0 0 0) 1)).
  rewrite (scale_Zero _ : Vector3.scale (mkVector3 0 0 0) _ = Vector3.Zero).
  rewrite length_Zero. simpl. lra.
Defined.

(** C2. For two bodies of positive mass and a unit normal [n],
    [calculateDynamicCollision] returns [v1 + j n / m1] for body 1 and
    [v2 - j n / m2] for body 2, where
    [j = -(1 + e) ((v1 - v2) . n) / (1/m1 + 1/m2)] and [e] is the configured
    restitution, and [shouldSeparate] is true exactly when
    [(v1 - v2) . n > 0]. *)
Theorem calculateDynamicCollision_impulse_exchange
    (this : CollisionPhysics) (body1 body2 : PhysicsBody) (n : Vector3) :
  0 < body_mass body1 ->
  0 < body_mass body2 ->
  Vector3.length n = 1 ->
  let v1 := body_velocity body1 in
  let v2 := body_velocity body2 in
  let m1 := body_mass body1 in
  let m2 := body_mass body2 in
  let vn := Vector3.Dot (Vector3.subtract v1 v2) n in
  let j := - (1 + restitution this) * vn / (1 / m1 + 1 / m2) in
  let r := CollisionPhysics.calculateDynamicCollision this body1 body2 n in
  body1NewVelocity r = Vector3.add v1 (Vector3.scale n (j / m1)) /\
  body2NewVelocity r = Vector3.subtract v2 (Vector3.scale n (j / m2)) /\
  (shouldSeparate r = true <-> vn > 0).
Proof.
  intros Hm1 Hm2 _ v1 v2 m1 m2 vn j r.
  subst r. unfold CollisionPhysics.calculateDynamicCollision; simpl.
  fold v1 v2 m1 m2. fold vn. fold j.
  repeat split.
  - unfold Vector3.add, Vector3.scale; simpl. f_equal; unfold Rdiv; ring.
  - unfold Vector3.add, Vector3.subtract, Vector3.scale; simpl.
    f_equal; unfold Rdiv; ring.
  - destruct (Rlt_dec 0 vn); [lra | discriminate].
  - intros H. destruct (Rlt_dec 0 vn); [reflexivity | lra].
Qed.

Lemma calculateDynamicCollision_impulse_exchange_witness :
  let r :=
    CollisionPhysics.calculateDynamicCollision CollisionPhysics.default
      (mkPhysicsBody (mkVector3 2 0 0) 1000 (mkVector3 0 0 0))
      (mkPhysicsBody (mkVector3 0 0 0) 500 (mkVector3 3 0 0))
      (mkVector3 1 0 0) in
  0 < 1000 /\ 0 < 500 /\ Vector3.length (mkVector3 1 0 0) = 1 /\
  shouldSeparate r = true.
Proof.
  assert (H1 : 0 < 1000) by lra.
  assert (H2 : 0 < 500) by lra.
  assert (Hn : Vector3.length (mkVector3 1 0 0) = 1)
    by (apply length_axis_x; lra).
  repeat split; try assumption.
  apply (proj2 (proj2 (calculateDynamicCollision_impulse_exchange
                  CollisionPhysics.default
                  (mkPhysicsBody (mkVector3 2 0 0) 1000 (mkVector3 0 0 0))
                  (mkPhysicsBody (mkVector3 0 0 0) 500 (mkVector3 3 0 0))
                  (mkVector3 1 0 0) H1 H2 Hn))).
  unfold Vector3.Dot, Vector3.subtract; simpl. lra.
Defined.

(** C6. With a fixed [dt > 0] and a positive [momentumFriction], every
    further application of [applyMomentumFriction] to a momentum that is not
    yet the zero vector strictly decreases its magnitude; once the momentum
    is the zero vector every further application returns the zero vector;
    and when [momentumThreshold] is positive the zero vector is reached after
    finitely many applications. *)
Theorem applyMomentumFriction_decays_to_zero
    (this : CollisionPhysics) (dt : R) :
  0 < momentumFriction this ->
  0 < dt ->
  (forall (m : Vector3) (n : nat),
     CollisionPhysics.applyMomentumFrictionN this n m dt <> Vector3.Zero ->
     Vector3.length (CollisionPhysics.applyMomentumFrictionN this (S n) m dt)
     < Vector3.length (CollisionPhysics.applyMomentumFrictionN this n m dt)) /\
  (forall (m : Vector3) (n j : nat),
     CollisionPhysics.applyMomentumFrictionN this n m dt = Vector3.Zero ->
     CollisionPhysics.applyMomentumFrictionN this (n + j) m dt
     = Vector3.Zero) /\
  CollisionPhysics.applyMomentumFriction this Vector3.Zero dt = Vector3.Zero /\
  (0 < momentumThreshold this ->
   forall m : Vector3, exists N : nat, forall n : nat, (N <= n)%nat ->
     CollisionPhysics.applyMomentumFrictionN this n m dt = Vector3.Zero).
Proof.
  intros Hf Hdt. repeat split.
  - intros m n Hnz. simpl.
    apply applyMomentumFriction_decreases; assumption.
  - intros m n j Hz. rewrite applyMomentumFrictionN_plus, Hz.
    apply applyMomentumFrictionN_Zero.
  - apply applyMomentumFriction_Zero.
  - intros Hth m. apply applyMomentumFrictionN_reaches_Zero; assumption.
Qed.

Lemma applyMomentumFriction_decays_to_zero_witness :
  0 < momentumFriction CollisionPhysics.default /\ 0 < 1 /\
  Vector3.length
    (CollisionPhysics.applyMomentumFrictionN CollisionPhysics.default 1
       (mkVector3 100 0 0) 1)
  < Vector3.length (mkVector3 100 0 0).
Proof.
  assert (Hf : 0 < momentumFriction CollisionPhysics.default) by (simpl; lra).
  assert (Hdt : 0 < 1) by lra.
  repeat split; try assumption.
  apply (proj1 (applyMomentumFriction_decays_to_zero
                  CollisionPhysics.default 1 Hf Hdt) (mkVector3 100 0 0) 0%nat).
  simpl. unfold Vector3.Zero. intros E.
  apply (f_equal vx) in E. simpl in E. lra.
Defined.

(** ** Vehicle: what each step leaves alone *)

Lemma updatePositionGround_frame (dt : R) (this : Vehicle) :
  sameDrivingState (Vehicle.updatePositionGround dt this) this.
Proof.
  unfold Vehicle.updatePositionGround.
  cbv zeta. split_ifs; repeat split.
Qed.

Lemma updatePositionPlanet_frame (dt : R) (this : Vehicle) :
  sameDrivingState (Vehicle.updatePositionPlanet dt this) this.
Proof.
  unfold Vehicle.updatePositionPlanet.
  cbv zeta. split_ifs; repeat split.
Qed.

Lemma updatePosition_frame (dt : R) (this : Vehicle) :
  sameDrivingState (Vehicle.updatePosition dt this) this.
Proof.
  unfold Vehicle.updatePosition. destruct (surfaceType this).
  - apply updatePositionPlanet_frame.
  - apply updatePositionGround_frame.
Qed.

Lemma update_speed (dt : R) (this : Vehicle) :
  speed (Vehicle.update dt this) = speed (Vehicle.updateMovement dt this).
Proof. unfold Vehicle.update. apply updatePosition_frame. Qed.

Lemma updateMovement_maxSpeed (dt : R) (this : Vehicle) :
  maxSpeed (Vehicle.updateMovement dt this) = maxSpeed this.
Proof. unfold Vehicle.updateMovement. cbv zeta. split_ifs; reflexivity. Qed.

Lemma update_maxSpeed (dt : R) (this : Vehicle) :
  maxSpeed (Vehicle.update dt this) = maxSpeed this.
Proof.
  unfold Vehicle.update.
  destruct (updatePosition_frame dt (Vehicle.updateMovement dt this))
    as (_ & _ & H & _).
  rewrite H. apply updateMovement_maxSpeed.
Qed.

(** ** Vehicle: control integration *)

Lemma updateMovement_speed_handbrake (dt : R) (this : Vehicle) :
  inputHandbrake this = true ->
  speed (Vehicle.updateMovement dt this)
  = if Rle_dec (Rabs (speed this)) (30 * dt) then 0
    else speed this - Math_sign (speed this) * (30 * dt).
Proof.
  intros Hb. unfold Vehicle.updateMovement. rewrite Hb. cbv zeta.
  split_ifs; reflexivity.
Qed.

Lemma updateMovement_speed_drive (dt : R) (this : Vehicle) :
  inputHandbrake this = false ->
  speed (Vehicle.updateMovement dt this)
  = Rmax (- maxSpeed this * 0.5)
      (Rmin (maxSpeed this)
         (speed this + inputAccelerate this * acceleration this * dt))
    * Math_pow (friction this) dt.
Proof.
  intros Hb. unfold Vehicle.updateMovement. rewrite Hb. cbv zeta.
  split_ifs; reflexivity.
Qed.

Lemma Math_pow_unit_interval (b e : R) :
  0 < b <= 1 -> 0 <= e -> 0 < Math_pow b e <= 1.
Proof.
  intros [Hb0 Hb1] He. unfold Math_pow, Rpower. split; [apply exp_pos |].
  assert (Hln : ln b <= 0).
  { destruct Hb1 as [Hlt | Heq].
    - left. rewrite <- ln_1. apply ln_increasing; assumption.
    - rewrite Heq, ln_1. lra. }
  assert (Harg : e * ln b <= 0) by nra.
  destruct Harg as [Hlt | Heq].
  - left. rewrite <- exp_0. apply exp_increasing. exact Hlt.
  - rewrite Heq, exp_0. lra.
Qed.

Lemma clamp_in_range (M s : R) :
  0 <= M -> - M * 0.5 <= Rmax (- M * 0.5) (Rmin M s) <= M.
Proof.
  intros HM. split; [apply Rmax_l |].
  apply Rmax_lub; [lra | apply Rmin_l].
Qed.

(** C9. [applyCollisionImpulse] adds the impulse to the momentum and sets the
    speed to 0; position, orientation, velocity, mass, steer angle and the
    surface parameters keep their values. *)
Theorem applyCollisionImpulse_adds_impulse_and_stops
    (imp : Vector3) (this : Vehicle) :
  let this' := Vehicle.applyCollisionImpulse imp this in
  momentum this' = Vector3.add (momentum this) imp /\
  speed this' = 0 /\
  position this' = position this /\
  rotationQuaternion this' = rotationQuaternion this /\
  velocity this' = velocity this /\
  mass this' = mass this /\
  steerAngle this' = steerAngle this /\
  surfaceType this' = surfaceType this /\
  groundHeight this' = groundHeight this /\
  planetCenter this' = planetCenter this /\
  planetRadius this' = planetRadius this /\
  heightOffset this' = heightOffset this.
Proof. repeat split. Qed.

(** C7. With the handbrake engaged and a time step [dt >= 0], one movement
    update lowers [|speed|] by exactly [30 * dt] when [|speed| > 30 * dt],
    sets the speed to exactly 0 when [|speed| <= 30 * dt], and never moves
    the speed across zero; from speed 10 with [30 * dt >= 10] the result is
    exactly 0.  [update] as a whole ends with that same speed. *)
Theorem handbrake_brakes_without_overshoot (dt : R) (this : Vehicle) :
  inputHandbrake this = true ->
  0 <= dt ->
  let s := speed this in
  let s' := speed (Vehicle.updateMovement dt this) in
  (Rabs s > 30 * dt -> Rabs s' = Rabs s - 30 * dt) /\
  (Rabs s <= 30 * dt -> s' = 0) /\
  (0 <= s -> 0 <= s') /\
  (s <= 0 -> s' <= 0) /\
  (s = 10 -> 30 * dt >= 10 -> s' = 0) /\
  speed (Vehicle.update dt this) = s'.
Proof.
  intros Hb Hdt s s'. subst s'.
  rewrite update_speed, (updateMovement_speed_handbrake dt this Hb). fold s.
  unfold Math_sign.
  destruct (Rle_dec (Rabs s) (30 * dt)) as [Hle | Hgt].
  - repeat split; intros; lra.
  - destruct (Rlt_dec 0 s) as [Hpos | Hnpos].
    + rewrite (Rabs_pos_eq s) in * by lra.
      repeat split; intros; try lra. rewrite Rabs_pos_eq; lra.
    + destruct (Rlt_dec s 0) as [Hneg | Hnneg].
      * rewrite (Rabs_left s) in * by lra.
        repeat split; intros; try lra. rewrite Rabs_left; lra.
      * assert (Hz : s = 0) by lra.
        exfalso. rewrite Hz, Rabs_R0 in Hgt. lra.
Qed.

Lemma speedInRange_update_handbrake (a s dt : R) (this : Vehicle) :
  Vehicle.speedInRange this -> 0 <= dt ->
  Vehicle.speedInRange (Vehicle.update dt (Vehicle.setInput a s true this)).
Proof.
  unfold Vehicle.speedInRange. intros Hr Hdt.
  rewrite update_maxSpeed, update_speed,
    updateMovement_speed_handbrake by reflexivity. simpl.
  destruct (Rle_dec _ _) as [Hle | Hgt]; [lra |].
  unfold Math_sign. destruct (Rlt_dec 0 (speed this)).
  - rewrite Rabs_pos_eq in Hgt by lra. lra.
  - destruct (Rlt_dec (speed this) 0).
    + rewrite Rabs_left in Hgt by lra. lra.
    + lra.
Qed.

Lemma speedInRange_update_drive (a s dt : R) (this : Vehicle) :
  Vehicle.speedInRange this -> 0 <= dt -> 0 < friction this <= 1 ->
  Vehicle.speedInRange (Vehicle.update dt (Vehicle.setInput a s false this)).
Proof.
  unfold Vehicle.speedInRange. intros Hr Hdt Hf.
  assert (HM : 0 <= maxSpeed this) by lra.
  rewrite update_maxSpeed, update_speed,
    updateMovement_speed_drive by reflexivity. simpl.
  pose proof (Math_pow_unit_interval (friction this) dt Hf Hdt) as Hp.
  pose proof (clamp_in_range (maxSpeed this)
                (speed this + a * acceleration this * dt) HM) as Hc.
  nra.
Qed.

(** C3, as amended. For a vehicle whose speed lies in
    [[-maxSpeed * 0.5, maxSpeed]]: [update dt] with [dt >= 0] keeps it there
    when the handbrake is engaged, and also when it is not engaged provided
    the configured friction lies in (0, 1]; [applyCollisionImpulse] and
    [stopMovement] keep it there; [setVelocity v] sets the speed to the
    magnitude of [v], which lies in the range exactly when that magnitude is
    at most [maxSpeed]. *)
Theorem speed_range_kept_except_setVelocity (this : Vehicle) :
  Vehicle.speedInRange this ->
  (forall a s dt, 0 <= dt ->
     Vehicle.speedInRange (Vehicle.update dt (Vehicle.setInput a s true this))) /\
  (forall a s dt, 0 <= dt -> 0 < friction this <= 1 ->
     Vehicle.speedInRange (Vehicle.update dt (Vehicle.setInput a s false this))) /\
  (forall imp, Vehicle.speedInRange (Vehicle.applyCollisionImpulse imp this)) /\
  Vehicle.speedInRange (Vehicle.stopMovement this) /\
  (forall v, speed (Vehicle.setVelocity v this) = Vector3.length v /\
             (Vehicle.speedInRange (Vehicle.setVelocity v this)
              <-> Vector3.length v <= maxSpeed this)).
Proof.
  intros Hr.
  assert (HM : 0 <= maxSpeed this) by (unfold Vehicle.speedInRange in Hr; lra).
  split; [| split; [| split; [| split]]].
  - intros a s dt Hdt. apply speedInRange_update_handbrake; assumption.
  - intros a s dt Hdt Hf. apply speedInRange_update_drive; assumption.
  - intros imp. unfold Vehicle.speedInRange; simpl. lra.
  - unfold Vehicle.speedInRange; simpl. lra.
  - intros v. split; [reflexivity |].
    unfold Vehicle.speedInRange; simpl. unfold Vector3.clone.
    pose proof (length_nonneg v) as Hl. split; intros H; lra.
Qed.

(** ** Rotations keep lengths *)

Lemma rotateByQuaternionToRef_sumsq (v : Vector3) (q : Quaternion) :
  let v' := rotateByQuaternionToRef v q in
  let c := Vector3.Cross (mkVector3 (qx q) (qy q) (qz q)) v in
  vx v' * vx v' + vy v' * vy v' + vz v' * vz v'
  = vx v * vx v + vy v * vy v + vz v * vz v
    + 4 * (Quaternion.lengthSquared q - 1)
        * (vx c * vx c + vy c * vy c + vz c * vz c).
Proof.
  destruct v as [x y z], q as [a b c d].
  unfold rotateByQuaternionToRef, Vector3.Cross, Quaternion.lengthSquared;
    simpl. ring.
Qed.

Lemma RotationAxis_lengthSquared (axis : Vector3) (angle : R) :
  axis <> Vector3.Zero ->
  Quaternion.lengthSquared (Quaternion.RotationAxis axis angle) = 1.
Proof.
  intros Hax. pose proof (length_pos axis Hax) as HL.
  pose proof (length_sqr axis) as Hsq.
  unfold Quaternion.lengthSquared, Quaternion.RotationAxis; simpl.
  set (L := Vector3.length axis) in *.
  set (s := sin (angle / 2)). set (c := cos (angle / 2)).
  assert (Hsc : s * s + c * c = 1).
  { pose proof (sin2_cos2 (angle / 2)) as H. unfold Rsqr in H. exact H. }
  replace (vx axis * (s / L) * (vx axis * (s / L))
           + vy axis * (s / L) * (vy axis * (s / L))
           + vz axis * (s / L) * (vz axis * (s / L)) + c * c)
    with ((vx axis * vx axis + vy axis * vy axis + vz axis * vz axis)
          * (s * s) / (L * L) + c * c)
    by (field; lra).
  rewrite <- Hsq.
  replace (L * L * (s * s) / (L * L)) with (s * s) by (field; lra).
  exact Hsc.
Qed.

Lemma Distance_add_center (c w : Vector3) :
  Vector3.Distance (Vector3.add c w) c = Vector3.length w.
Proof.
  unfold Vector3.Distance. apply length_eq_of_sqr.
  unfold Vector3.subtract, Vector3.add; simpl. ring.
Qed.

(** The re-projection of the source, [center + normalize(p - center) * target],
    lies at distance [target] from the centre. *)
Lemma reprojection_distance (c p : Vector3) (target : R) :
  0 <= target -> p <> c ->
  Vector3.Distance
    (Vector3.add c
       (Vector3.scale (Vector3.normalize (Vector3.subtract p c)) target))
    c
  = target.
Proof.
  intros Ht Hpc. rewrite Distance_add_center, length_scale by exact Ht.
  set (d := Vector3.subtract p c).
  assert (Hd : d <> Vector3.Zero).
  { intros E. apply Hpc, subtract_eq_Zero. exact E. }
  pose proof (length_pos d Hd) as HL.
  unfold Vector3.normalize, Vector3.normalizeFromLength.
  destruct (Req_dec_T (Vector3.length d) 0) as [E0 | N0]; [lra |].
  destruct (Req_dec_T (Vector3.length d) 1) as [E1 | N1]; [rewrite E1; ring |].
  rewrite length_scale.
  - field. lra.
  - apply Rlt_le. apply Rdiv_lt_0_compat; lra.
Qed.

(** ** What the control integration leaves alone *)

Lemma updateMovement_geometry (dt : R) (this : Vehicle) :
  position (Vehicle.updateMovement dt this) = position this /\
  rotationQuaternion (Vehicle.updateMovement dt this) = rotationQuaternion this /\
  surfaceType (Vehicle.updateMovement dt this) = surfaceType this /\
  planetCenter (Vehicle.updateMovement dt this) = planetCenter this /\
  planetRadius (Vehicle.updateMovement dt this) = planetRadius this /\
  heightOffset (Vehicle.updateMovement dt this) = heightOffset this.
Proof.
  unfold Vehicle.updateMovement. cbv zeta. split_ifs; repeat split.
Qed.

(** [positionOnGround] puts a planet vehicle exactly at the target
    distance, so a freshly placed vehicle meets the premise of C1. *)
Lemma positionOnGround_radialError (p : Vector3) (this : Vehicle) :
  surfaceType this = planet ->
  0 <= planetRadius this + heightOffset this ->
  p <> planetCenter this ->
  Vehicle.radialError (Vehicle.positionOnGround p this) = 0.
Proof.
  intros Hs Ht Hp. unfold Vehicle.positionOnGround. rewrite Hs. cbv zeta.
  cbn [rotationQuaternion Vehicle.set_position].
  destruct (rotationQuaternion this); unfold Vehicle.radialError;
    cbn [position planetCenter planetRadius heightOffset
         Vehicle.set_position Vehicle.set_rotationQuaternion];
    rewrite reprojection_distance by assumption;
    replace (planetRadius this + heightOffset this
             - (planetRadius this + heightOffset this)) with 0 by ring;
    apply Rabs_R0.
Qed.

(** ** Ground mode: the two kinds of frame *)

Section GroundFrame.

Variable dt : R.
Variable this : Vehicle.
Hypothesis on_ground : surfaceType this = ground.

(** The state once the controls and the momentum friction are applied. *)
Let moved := Vehicle.updateMomentum dt (Vehicle.updateMovement dt this).

(** The combined driving-plus-momentum velocity of the frame. *)
Let combined :=
  Vector3.add
    (Vector3.scale
       (rotateByQuaternionToRef (mkVector3 0 0 1)
          (Vehicle.currentRotationOf this))
       (speed moved))
    (CollisionPhysics.momentumToVelocity (collisionPhysics moved)
       (momentum moved) (mass moved)).

Lemma update_ground_unfold :
  Vehicle.update dt this
  = Vehicle.updatePositionGround dt (Vehicle.updateMovement dt this).
Proof.
  unfold Vehicle.update, Vehicle.updatePosition.
  destruct (updateMovement_geometry dt this) as (_ & _ & Hst & _).
  rewrite Hst, on_ground. reflexivity.
Qed.

Lemma moved_currentRotation :
  Vehicle.currentRotationOf moved = Vehicle.currentRotationOf this.
Proof.
  unfold Vehicle.currentRotationOf, moved.
  cbn [rotationQuaternion Vehicle.updateMomentum Vehicle.set_momentum].
  destruct (updateMovement_geometry dt this) as (_ & Hq & _).
  rewrite Hq. reflexivity.
Qed.

Lemma update_ground_slow :
  Vector3.length combined < 0.1 ->
  rotationQuaternion (Vehicle.update dt this) = rotationQuaternion this /\
  position (Vehicle.update dt this) = position this /\
  velocity (Vehicle.update dt this) = Vector3.Zero.
Proof.
  intros Hslow. rewrite update_ground_unfold.
  unfold Vehicle.updatePositionGround. cbv zeta. fold moved.
  rewrite moved_currentRotation.
  cbn [velocity Vehicle.set_velocity speed mass momentum collisionPhysics].
  fold combined.
  destruct (Rlt_dec (Vector3.length combined) 0.1) as [_ | Hn]; [| lra].
  destruct (updateMovement_geometry dt this) as (Hp & Hq & _).
  repeat split; cbn; assumption.
Qed.

Lemma update_ground_moving :
  0.1 <= Vector3.length combined ->
  rotationQuaternion (Vehicle.update dt this)
  = Some (Quaternion.multiply
            (Quaternion.RotationAxis Vector3.Up (steerAngle moved * dt))
            (Vehicle.currentRotationOf this)) /\
  velocity (Vehicle.update dt this) = combined.
Proof.
  intros Hfast. rewrite update_ground_unfold.
  unfold Vehicle.updatePositionGround. cbv zeta. fold moved.
  rewrite moved_currentRotation.
  cbn [velocity Vehicle.set_velocity speed mass momentum collisionPhysics].
  fold combined.
  destruct (Rlt_dec (Vector3.length combined) 0.1) as [Hn | _]; [lra |].
  split; reflexivity.
Qed.

End GroundFrame.

Lemma updateMovement_frame (dt : R) (this : Vehicle) :
  velocity (Vehicle.updateMovement dt this) = velocity this /\
  momentum (Vehicle.updateMovement dt this) = momentum this /\
  mass (Vehicle.updateMovement dt this) = mass this /\
  collisionPhysics (Vehicle.updateMovement dt this) = collisionPhysics this.
Proof.
  unfold Vehicle.updateMovement. cbv zeta. split_ifs; repeat split.
Qed.

Lemma updateMovement_steerAngle (dt : R) (this : Vehicle) :
  steerAngle (Vehicle.updateMovement dt this)
  = if Rlt_dec (Rabs (speed (Vehicle.updateMovement dt this))) 0.5 then 0
    else inputSteer this * maxSteerAngle this
         * speed (Vehicle.updateMovement dt this).
Proof.
  unfold Vehicle.updateMovement. cbv zeta.
  destruct (inputHandbrake this); [destruct (Rle_dec _ _) |];
    cbn [speed Vehicle.set_speed inputSteer maxSteerAngle];
    destruct (Rlt_dec _ 0.5); cbn; try reflexivity;
    destruct (Rlt_dec _ 0.5); try reflexivity; contradiction.
Qed.

Lemma length_axis_z (a : R) : Vector3.length (mkVector3 0 0 a) = Rabs a.
Proof.
  unfold Vector3.length; simpl.
  replace (0 * 0 + 0 * 0 + a * a) with (Rsqr a) by (unfold Rsqr; ring).
  apply sqrt_Rsqr_abs.
Qed.

Lemma rotateByQuaternionToRef_Identity (v : Vector3) :
  rotateByQuaternionToRef v Quaternion.Identity = v.
Proof.
  destruct v as [x y z].
  unfold rotateByQuaternionToRef, Quaternion.Identity; simpl.
  f_equal; ring.
Qed.

Lemma length_Up : Vector3.length Vector3.Up = 1.
Proof.
  unfold Vector3.length, Vector3.Up; simpl.
  replace (0 * 0 + 1 * 1 + 0 * 0) with 1 by ring. apply sqrt_1.
Qed.

(** *** The frame of [Examples.slidingCar] with [dt = 1] *)

Lemma slidingCar_speed :
  speed (Vehicle.updateMovement 1 Examples.slidingCar) = 1.
Proof.
  rewrite updateMovement_speed_drive by reflexivity.
  cbn [Examples.slidingCar maxSpeed speed inputAccelerate acceleration friction].
  unfold Math_pow. rewrite Rpower_1 by lra.
  rewrite Rmin_right by lra. rewrite Rmax_right by lra. lra.
Qed.

Lemma slidingCar_steerAngle :
  steerAngle (Vehicle.updateMovement 1 Examples.slidingCar) = 1.
Proof.
  rewrite updateMovement_steerAngle, slidingCar_speed.
  destruct (Rlt_dec (Rabs 1) 0.5) as [H | _].
  - rewrite Rabs_pos_eq in H; lra.
  - cbn [Examples.slidingCar inputSteer maxSteerAngle]. lra.
Qed.

Lemma slidingCar_momentum :
  CollisionPhysics.applyMomentumFriction CollisionPhysics.default
    (mkVector3 0 0 (-1000)) 1
  = mkVector3 0 0 (-600).
Proof.
  unfold CollisionPhysics.applyMomentumFriction.
  cbn [CollisionPhysics.default CollisionPhysics.constructor
       CollisionPhysics.emptyConfig CollisionPhysics.orDefault
       momentumFriction momentumThreshold cfg_momentumFriction
       cfg_momentumThreshold].
  replace (Rmax 0 (1 - 0.4 * 1)) with 0.6 by (rewrite Rmax_right; lra).
  replace (Vector3.scale (mkVector3 0 0 (-1000)) 0.6)
    with (mkVector3 0 0 (-600))
    by (unfold Vector3.scale; simpl; f_equal; lra).
  rewrite length_axis_z, Rabs_left by lra.
  destruct (Rlt_dec (- -600) 0.05) as [H | _]; [lra | reflexivity].
Qed.

Lemma slidingCar_combined_velocity :
  let moved :=
    Vehicle.updateMomentum 1 (Vehicle.updateMovement 1 Examples.slidingCar) in
  Vector3.add
    (Vector3.scale
       (rotateByQuaternionToRef (mkVector3 0 0 1)
          (Vehicle.currentRotationOf Examples.slidingCar))
       (speed moved))
    (CollisionPhysics.momentumToVelocity (collisionPhysics moved)
       (momentum moved) (mass moved))
  = Vector3.Zero.
Proof.
  intros moved. subst moved.
  cbn [speed mass momentum collisionPhysics Vehicle.updateMomentum
       Vehicle.set_momentum].
  destruct (updateMovement_frame 1 Examples.slidingCar) as (_ & Hm & Hmass & Hc).
  rewrite Hm, Hmass, Hc, slidingCar_speed.
  cbn [Examples.slidingCar momentum mass collisionPhysics
       Vehicle.currentRotationOf rotationQuaternion].
  rewrite slidingCar_momentum, rotateByQuaternionToRef_Identity.
  unfold CollisionPhysics.momentumToVelocity.
  destruct (Req_dec_T 600 0) as [H | _]; [lra |].
  unfold Vector3.add, Vector3.scale, Vector3.Zero; simpl. f_equal; lra.
Qed.

(** C4, as amended. In ground mode, on a frame whose combined
    driving-plus-momentum velocity has magnitude at least 0.1 the orientation
    becomes the rotation by [steerAngle * dt] about the world up axis
    multiplied onto the current orientation; on a frame where that magnitude
    is below 0.1 the velocity is snapped to zero and the frame ends there, so
    the orientation and the position keep their values. *)
Theorem ground_frame_steers_only_when_moving (dt : R) (this : Vehicle) :
  surfaceType this = ground ->
  let moved := Vehicle.updateMomentum dt (Vehicle.updateMovement dt this) in
  let combined :=
    Vector3.add
      (Vector3.scale
         (rotateByQuaternionToRef (mkVector3 0 0 1)
            (Vehicle.currentRotationOf this))
         (speed moved))
      (CollisionPhysics.momentumToVelocity (collisionPhysics moved)
         (momentum moved) (mass moved)) in
  (0.1 <= Vector3.length combined ->
   rotationQuaternion (Vehicle.update dt this)
   = Some (Quaternion.multiply
             (Quaternion.RotationAxis Vector3.Up (steerAngle moved * dt))
             (Vehicle.currentRotationOf this)) /\
   velocity (Vehicle.update dt this) = combined) /\
  (Vector3.length combined < 0.1 ->
   rotationQuaternion (Vehicle.update dt this) = rotationQuaternion this /\
   position (Vehicle.update dt this) = position this /\
   velocity (Vehicle.update dt this) = Vector3.Zero).
Proof.
  intros Hg moved combined. split; intros H.
  - apply update_ground_moving; assumption.
  - apply update_ground_slow; assumption.
Qed.

Lemma ground_frame_steers_only_when_moving_witness :
  surfaceType Examples.slidingCar = ground /\
  rotationQuaternion (Vehicle.update 1 Examples.slidingCar)
  = rotationQuaternion Examples.slidingCar.
Proof.
  assert (Hg : surfaceType Examples.slidingCar = ground) by reflexivity.
  split; [exact Hg |].
  apply (proj2 (ground_frame_steers_only_when_moving 1 Examples.slidingCar Hg)).
  rewrite slidingCar_combined_velocity, length_Zero. lra.
Defined.

(** C4, the claim as stated fails: [Examples.slidingCar] is in ground mode,
    its frame with [dt = 1] has steer angle 1 and a combined velocity of
    magnitude 0, and after [update 1] its orientation is still the identity,
    not the identity rotated by [steerAngle * dt = 1] about the up axis. *)
Lemma ground_slow_frame_does_not_steer :
  surfaceType Examples.slidingCar = ground /\
  steerAngle (Vehicle.update 1 Examples.slidingCar) = 1 /\
  velocity (Vehicle.update 1 Examples.slidingCar) = Vector3.Zero /\
  Vehicle.currentRotationOf (Vehicle.update 1 Examples.slidingCar)
  = Quaternion.Identity /\
  Vehicle.currentRotationOf (Vehicle.update 1 Examples.slidingCar)
  <> Quaternion.multiply
       (Quaternion.RotationAxis Vector3.Up
          (steerAngle (Vehicle.update 1 Examples.slidingCar) * 1))
       (Vehicle.currentRotationOf Examples.slidingCar).
Proof.
  assert (Hg : surfaceType Examples.slidingCar = ground) by reflexivity.
  assert (Hslow : Vector3.length Vector3.Zero < 0.1)
    by (rewrite length_Zero; lra).
  rewrite <- slidingCar_combined_velocity in Hslow.
  destruct (update_ground_slow 1 Examples.slidingCar Hg Hslow)
    as (Hq & _ & Hv).
  assert (Hsteer : steerAngle (Vehicle.update 1 Examples.slidingCar) = 1).
  { unfold Vehicle.update.
    destruct (updatePosition_frame 1
                (Vehicle.updateMovement 1 Examples.slidingCar))
      as (_ & _ & _ & _ & _ & H & _).
    rewrite H. apply slidingCar_steerAngle. }
  assert (Hid : Vehicle.currentRotationOf (Vehicle.update 1 Examples.slidingCar)
                = Quaternion.Identity).
  { unfold Vehicle.currentRotationOf. rewrite Hq. reflexivity. }
  repeat split; try assumption.
  rewrite Hid, Hsteer. intros E. apply (f_equal qy) in E.
  unfold Quaternion.multiply, Quaternion.RotationAxis in E.
  cbn [Examples.slidingCar Vehicle.currentRotationOf rotationQuaternion
       Quaternion.Identity qx qy qz qw] in E.
  rewrite length_Up in E.
  cbn [Vector3.Up vx vy vz] in E.
  assert (Hsin : 0 < sin (1 * 1 / 2)).
  { apply sin_gt_0; [lra |]. pose proof PI2_1. lra. }
  lra.
Qed.

(** C7, at a concrete input: [Examples.brakingCar] (speed 10, handbrake
    engaged) with [dt = 1]. *)
Lemma handbrake_brakes_without_overshoot_witness :
  inputHandbrake Examples.brakingCar = true /\ 0 <= 1 /\
  speed (Vehicle.updateMovement 1 Examples.brakingCar) = 0.
Proof.
  assert (Hb : inputHandbrake Examples.brakingCar = true) by reflexivity.
  assert (Hdt : 0 <= 1) by lra.
  repeat split; try assumption.
  destruct (handbrake_brakes_without_overshoot 1 Examples.brakingCar Hb Hdt)
    as (_ & _ & _ & _ & H & _).
  apply H; [reflexivity | lra].
Defined.

Lemma brakingCar_speedInRange : Vehicle.speedInRange Examples.brakingCar.
Proof.
  unfold Vehicle.speedInRange.
  cbn [Examples.brakingCar maxSpeed speed]. lra.
Qed.

(** C3, the claim as stated fails: [Examples.brakingCar] has its speed (10)
    in [[-5, 10]], and [setVelocity (20,0,0)] leaves it with speed 20. *)
Lemma setVelocity_breaks_speed_range :
  Vehicle.speedInRange Examples.brakingCar /\
  speed (Vehicle.setVelocity (mkVector3 20 0 0) Examples.brakingCar) = 20 /\
  ~ Vehicle.speedInRange
      (Vehicle.setVelocity (mkVector3 20 0 0) Examples.brakingCar).
Proof.
  assert (Hs : speed (Vehicle.setVelocity (mkVector3 20 0 0) Examples.brakingCar)
               = 20).
  { cbn [Vehicle.setVelocity Vehicle.set_speed Vehicle.set_velocity speed
         velocity Vector3.clone].
    apply length_axis_x. lra. }
  split; [apply brakingCar_speedInRange | split; [exact Hs |]].
  unfold Vehicle.speedInRange. rewrite Hs.
  cbn [Vehicle.setVelocity Vehicle.set_speed Vehicle.set_velocity maxSpeed
       Examples.brakingCar].
  lra.
Qed.

(** The two side conditions of the amended C3 are needed: a friction above 1,
    or a negative time step, lets [update] push the speed past [maxSpeed]. *)
Lemma update_speed_range_needs_friction_and_dt :
  (Vehicle.speedInRange (Examples.cruisingCar 2) /\
   speed (Vehicle.update 1 (Examples.cruisingCar 2)) = 20) /\
  (Vehicle.speedInRange (Examples.cruisingCar 0.5) /\
   speed (Vehicle.update (-1) (Examples.cruisingCar 0.5)) = 20).
Proof.
  assert (Hr : forall f, Vehicle.speedInRange (Examples.cruisingCar f)).
  { intros f. unfold Vehicle.speedInRange.
    cbn [Examples.cruisingCar maxSpeed speed]. lra. }
  split; (split; [apply Hr |]);
    rewrite update_speed, updateMovement_speed_drive by reflexivity;
    cbn [Examples.cruisingCar maxSpeed speed inputAccelerate acceleration
         friction];
    unfold Math_pow;
    rewrite Rmin_right by lra; rewrite Rmax_right by lra.
  - rewrite Rpower_1 by lra. lra.
  - replace (Rpower 0.5 (-1)) with (/ Rpower 0.5 1)
      by (rewrite <- Rpower_Ropp; f_equal; lra).
    rewrite Rpower_1 by lra. lra.
Qed.

Lemma speed_range_kept_except_setVelocity_witness :
  Vehicle.speedInRange Examples.brakingCar /\
  Vehicle.speedInRange
    (Vehicle.update 1 (Vehicle.setInput 0 0 true Examples.brakingCar)) /\
  Vehicle.speedInRange
    (Vehicle.update 1 (Vehicle.setInput 1 0 false Examples.brakingCar)).
Proof.
  pose proof brakingCar_speedInRange as Hr.
  destruct (speed_range_kept_except_setVelocity Examples.brakingCar Hr)
    as (Hbrake & Hdrive & _).
  repeat split.
  - apply Hr.
  - apply Hr.
  - apply Hbrake. lra.
  - apply Hbrake. lra.
  - apply Hdrive; [lra |].
    cbn [Examples.brakingCar friction]. lra.
  - apply Hdrive; [lra |].
    cbn [Examples.brakingCar friction]. lra.
Defined.

(** * Further properties *)

(** ** CollisionPhysics: conversions, exchange of momentum, separation *)

(** X1. Velocity and momentum convert back and forth without loss for a
    nonzero mass. *)
Theorem velocity_momentum_round_trip
    (this : CollisionPhysics) (v : Vector3) (mass : R) :
  mass <> 0 ->
  CollisionPhysics.momentumToVelocity this
    (CollisionPhysics.velocityToMomentum this v mass) mass = v /\
  CollisionPhysics.velocityToMomentum this
    (CollisionPhysics.momentumToVelocity this v mass) mass = v.
Proof.
  intros Hm.
  unfold CollisionPhysics.momentumToVelocity,
    CollisionPhysics.velocityToMomentum.
  destruct (Req_dec_T mass 0) as [E | _]; [contradiction |].
  destruct v as [x y z]. unfold Vector3.scale; simpl.
  split; f_equal; field; exact Hm.
Qed.

Lemma velocity_momentum_round_trip_witness :
  1000 <> 0 /\
  CollisionPhysics.momentumToVelocity CollisionPhysics.default
    (CollisionPhysics.velocityToMomentum CollisionPhysics.default
       (mkVector3 1 2 3) 1000) 1000
  = mkVector3 1 2 3.
Proof.
  assert (H : 1000 <> 0) by lra.
  split; [exact H |].
  apply (proj1 (velocity_momentum_round_trip CollisionPhysics.default
                  (mkVector3 1 2 3) 1000 H)).
Defined.

Section DynamicCollision.

Variable this : CollisionPhysics.
Variables body1 body2 : PhysicsBody.
Variable n : Vector3.
Hypothesis mass1_pos : 0 < body_mass body1.
Hypothesis mass2_pos : 0 < body_mass body2.

Let r := CollisionPhysics.calculateDynamicCollision this body1 body2 n.
Let vn :=
  Vector3.Dot (Vector3.subtract (body_velocity body1) (body_velocity body2)) n.

Lemma dynamic_total_momentum :
  Vector3.add (Vector3.scale (body1NewVelocity r) (body_mass body1))
              (Vector3.scale (body2NewVelocity r) (body_mass body2))
  = Vector3.add (Vector3.scale (body_velocity body1) (body_mass body1))
                (Vector3.scale (body_velocity body2) (body_mass body2)).
Proof.
  unfold r, CollisionPhysics.calculateDynamicCollision.
  cbn [body1NewVelocity body2NewVelocity].
  unfold Vector3.add, Vector3.scale; simpl.
  f_equal; field; split; lra.
Qed.

Lemma dynamic_inverse_mass_sum_pos :
  0 < 1 / body_mass body1 + 1 / body_mass body2.
Proof.
  assert (0 < 1 / body_mass body1) by (apply Rdiv_lt_0_compat; lra).
  assert (0 < 1 / body_mass body2) by (apply Rdiv_lt_0_compat; lra).
  lra.
Qed.

Hypothesis unit_normal : Vector3.length n = 1.

Lemma unit_normal_sqr : vx n * vx n + vy n * vy n + vz n * vz n = 1.
Proof. rewrite <- length_sqr, unit_normal. ring. Qed.

Lemma dynamic_relative_normal_velocity :
  Vector3.Dot
    (Vector3.subtract (body1NewVelocity r) (body2NewVelocity r)) n
  = - restitution this * vn.
Proof.
  pose proof unit_normal_sqr as Hn.
  pose proof dynamic_inverse_mass_sum_pos as HM.
  unfold r, vn, CollisionPhysics.calculateDynamicCollision.
  cbn [body1NewVelocity body2NewVelocity].
  set (v1 := body_velocity body1). set (v2 := body_velocity body2).
  set (m1 := body_mass body1) in *. set (m2 := body_mass body2) in *.
  set (d := Vector3.Dot (Vector3.subtract v1 v2) n).
  set (j := - (1 + restitution this) * d / (1 / m1 + 1 / m2)).
  assert (Hj : j * (1 / m1 + 1 / m2) = - (1 + restitution this) * d).
  { unfold j. field. repeat split; lra. }
  unfold Vector3.Dot, Vector3.subtract, Vector3.add, Vector3.scale; simpl.
  replace ((vx v1 + vx n * j * (1 / m1) - (vx v2 + vx n * j * (-1 / m2)))
             * vx n
           + (vy v1 + vy n * j * (1 / m1) - (vy v2 + vy n * j * (-1 / m2)))
             * vy n
           + (vz v1 + vz n * j * (1 / m1) - (vz v2 + vz n * j * (-1 / m2)))
             * vz n)
    with (d + j * (1 / m1 + 1 / m2)
              * (vx n * vx n + vy n * vy n + vz n * vz n))
    by (unfold d, Vector3.Dot, Vector3.subtract; simpl; field; lra).
  rewrite Hn, Hj. ring.
Qed.

(** Twice the kinetic energy of the pair after the collision, minus twice
    the one before. *)
Lemma dynamic_energy_change :
  body_mass body1 * Vector3.Dot (body1NewVelocity r) (body1NewVelocity r)
  + body_mass body2 * Vector3.Dot (body2NewVelocity r) (body2NewVelocity r)
  - (body_mass body1 * Vector3.Dot (body_velocity body1) (body_velocity body1)
     + body_mass body2
       * Vector3.Dot (body_velocity body2) (body_velocity body2))
  = - (1 - restitution this * restitution this) * (vn * vn)
    / (1 / body_mass body1 + 1 / body_mass body2).
Proof.
  pose proof unit_normal_sqr as Hn.
  pose proof dynamic_inverse_mass_sum_pos as HM.
  unfold r, vn, CollisionPhysics.calculateDynamicCollision.
  cbn [body1NewVelocity body2NewVelocity].
  set (v1 := body_velocity body1). set (v2 := body_velocity body2).
  set (m1 := body_mass body1) in *. set (m2 := body_mass body2) in *.
  set (e := restitution this).
  set (d := Vector3.Dot (Vector3.subtract v1 v2) n).
  set (M := 1 / m1 + 1 / m2) in *.
  set (j := - (1 + e) * d / M).
  set (N := vx n * vx n + vy n * vy n + vz n * vz n) in *.
  assert (Hexp :
    m1 * Vector3.Dot (Vector3.add v1 (Vector3.scale (Vector3.scale n j) (1 / m1)))
           (Vector3.add v1 (Vector3.scale (Vector3.scale n j) (1 / m1)))
    + m2 * Vector3.Dot (Vector3.add v2 (Vector3.scale (Vector3.scale n j) (-1 / m2)))
             (Vector3.add v2 (Vector3.scale (Vector3.scale n j) (-1 / m2)))
    - (m1 * Vector3.Dot v1 v1 + m2 * Vector3.Dot v2 v2)
    = 2 * j * d + j * j * M * N).
  { unfold d, M, N, Vector3.Dot, Vector3.subtract, Vector3.add, Vector3.scale;
      simpl. field. split; lra. }
  rewrite Hexp, Hn. unfold j. field. lra.
Qed.

End DynamicCollision.

(** X2. A dynamic collision between two bodies of positive mass conserves
    the total momentum [m1 v1 + m2 v2], whatever the normal. *)
Theorem dynamic_collision_conserves_momentum
    (this : CollisionPhysics) (body1 body2 : PhysicsBody) (n : Vector3) :
  0 < body_mass body1 ->
  0 < body_mass body2 ->
  let r := CollisionPhysics.calculateDynamicCollision this body1 body2 n in
  Vector3.add (Vector3.scale (body1NewVelocity r) (body_mass body1))
              (Vector3.scale (body2NewVelocity r) (body_mass body2))
  = Vector3.add (Vector3.scale (body_velocity body1) (body_mass body1))
                (Vector3.scale (body_velocity body2) (body_mass body2)).
Proof. intros H1 H2 r. apply dynamic_total_momentum; assumption. Qed.

Lemma dynamic_collision_conserves_momentum_witness :
  let b1 := mkPhysicsBody (mkVector3 2 0 0) 1000 (mkVector3 0 0 0) in
  let b2 := mkPhysicsBody (mkVector3 0 1 0) 500 (mkVector3 3 0 0) in
  let r :=
    CollisionPhysics.calculateDynamicCollision CollisionPhysics.default
      b1 b2 (mkVector3 1 0 0) in
  0 < 1000 /\ 0 < 500 /\
  Vector3.add (Vector3.scale (body1NewVelocity r) 1000)
              (Vector3.scale (body2NewVelocity r) 500)
  = Vector3.add (Vector3.scale (mkVector3 2 0 0) 1000)
                (Vector3.scale (mkVector3 0 1 0) 500).
Proof.
  intros b1 b2 r.
  assert (H1 : 0 < 1000) by lra.
  assert (H2 : 0 < 500) by lra.
  repeat split; try assumption.
  apply (dynamic_collision_conserves_momentum CollisionPhysics.default
           b1 b2 (mkVector3 1 0 0) H1 H2).
Defined.

(** X3. For a unit normal, the relative velocity along the normal after a
    dynamic collision is the one before, reversed and scaled by the
    restitution: [(v1' - v2') . n = - e ((v1 - v2) . n)]. *)
Theorem dynamic_collision_reverses_normal_velocity
    (this : CollisionPhysics) (body1 body2 : PhysicsBody) (n : Vector3) :
  0 < body_mass body1 ->
  0 < body_mass body2 ->
  Vector3.length n = 1 ->
  let r := CollisionPhysics.calculateDynamicCollision this body1 body2 n in
  Vector3.Dot (Vector3.subtract (body1NewVelocity r) (body2NewVelocity r)) n
  = - restitution this
    * Vector3.Dot
        (Vector3.subtract (body_velocity body1) (body_velocity body2)) n.
Proof.
  intros H1 H2 Hn r. apply dynamic_relative_normal_velocity; assumption.
Qed.

Lemma dynamic_collision_reverses_normal_velocity_witness :
  let b1 := mkPhysicsBody (mkVector3 2 0 0) 1000 (mkVector3 0 0 0) in
  let b2 := mkPhysicsBody (mkVector3 0 1 0) 500 (mkVector3 3 0 0) in
  let r :=
    CollisionPhysics.calculateDynamicCollision CollisionPhysics.default
      b1 b2 (mkVector3 1 0 0) in
  0 < 1000 /\ 0 < 500 /\ Vector3.length (mkVector3 1 0 0) = 1 /\
  Vector3.Dot (Vector3.subtract (body1NewVelocity r) (body2NewVelocity r))
    (mkVector3 1 0 0)
  = - restitution CollisionPhysics.default
    * Vector3.Dot (Vector3.subtract (mkVector3 2 0 0) (mkVector3 0 1 0))
        (mkVector3 1 0 0).
Proof.
  intros b1 b2 r.
  assert (H1 : 0 < 1000) by lra.
  assert (H2 : 0 < 500) by lra.
  assert (Hn : Vector3.length (mkVector3 1 0 0) = 1)
    by (apply length_axis_x; lra).
  repeat split; try assumption.
  apply (dynamic_collision_reverses_normal_velocity CollisionPhysics.default
           b1 b2 (mkVector3 1 0 0) H1 H2 Hn).
Defined.

(** X4. With a restitution in [[0, 1]] and a unit normal, a dynamic
    collision never raises the kinetic energy of the pair:
    [m1 |v1'|^2 + m2 |v2'|^2 <= m1 |v1|^2 + m2 |v2|^2]. *)
Theorem dynamic_collision_never_adds_energy
    (this : CollisionPhysics) (body1 body2 : PhysicsBody) (n : Vector3) :
  0 < body_mass body1 ->
  0 < body_mass body2 ->
  Vector3.length n = 1 ->
  0 <= restitution this <= 1 ->
  let r := CollisionPhysics.calculateDynamicCollision this body1 body2 n in
  body_mass body1 * Vector3.Dot (body1NewVelocity r) (body1NewVelocity r)
  + body_mass body2 * Vector3.Dot (body2NewVelocity r) (body2NewVelocity r)
  <= body_mass body1 * Vector3.Dot (body_velocity body1) (body_velocity body1)
     + body_mass body2
       * Vector3.Dot (body_velocity body2) (body_velocity body2).
Proof.
  intros H1 H2 Hn He r.
  pose proof (dynamic_energy_change this body1 body2 n H1 H2 Hn) as Hch.
  cbv zeta in Hch. fold r in Hch.
  pose proof (dynamic_inverse_mass_sum_pos body1 body2 H1 H2) as HM.
  set (d := Vector3.Dot
              (Vector3.subtract (body_velocity body1) (body_velocity body2)) n)
    in *.
  assert (Hneg : - (1 - restitution this * restitution this) * (d * d)
                 / (1 / body_mass body1 + 1 / body_mass body2) <= 0).
  { assert (Hinv : 0 < / (1 / body_mass body1 + 1 / body_mass body2))
      by (apply Rinv_0_lt_compat; exact HM).
    assert (Hdd : 0 <= d * d) by nra.
    assert (Hee : 0 <= 1 - restitution this * restitution this) by nra.
    assert (Hnum : - (1 - restitution this * restitution this) * (d * d) <= 0)
      by nra.
    unfold Rdiv. nra. }
  lra.
Qed.

Lemma dynamic_collision_never_adds_energy_witness :
  let b1 := mkPhysicsBody (mkVector3 2 0 0) 1000 (mkVector3 0 0 0) in
  let b2 := mkPhysicsBody (mkVector3 0 1 0) 500 (mkVector3 3 0 0) in
  let r :=
    CollisionPhysics.calculateDynamicCollision CollisionPhysics.default
      b1 b2 (mkVector3 1 0 0) in
  0 < 1000 /\ 0 < 500 /\ Vector3.length (mkVector3 1 0 0) = 1 /\
  0 <= restitution CollisionPhysics.default <= 1 /\
  1000 * Vector3.Dot (body1NewVelocity r) (body1NewVelocity r)
  + 500 * Vector3.Dot (body2NewVelocity r) (body2NewVelocity r)
  <= 1000 * Vector3.Dot (mkVector3 2 0 0) (mkVector3 2 0 0)
     + 500 * Vector3.Dot (mkVector3 0 1 0) (mkVector3 0 1 0).
Proof.
  intros b1 b2 r.
  assert (H1 : 0 < 1000) by lra.
  assert (H2 : 0 < 500) by lra.
  assert (Hn : Vector3.length (mkVector3 1 0 0) = 1)
    by (apply length_axis_x; lra).
  assert (He : 0 <= restitution CollisionPhysics.default <= 1)
    by (simpl; lra).
  repeat split; try assumption; try apply He.
  apply (dynamic_collision_never_adds_energy CollisionPhysics.default
           b1 b2 (mkVector3 1 0 0) H1 H2 Hn He).
Defined.

(** ** Static collisions *)

Lemma static_collision_sumsq (v n : Vector3) (m : R) :
  let w :=
    Vector3.subtract (Vector3.scale v m)
      (Vector3.scale n (2 * Vector3.Dot v n * m)) in
  vx w * vx w + vy w * vy w + vz w * vz w
  = (m * m) * (vx v * vx v + vy v * vy v + vz v * vz v)
    + 4 * (m * m) * (Vector3.Dot v n * Vector3.Dot v n)
        * (vx n * vx n + vy n * vy n + vz n * vz n - 1).
Proof.
  unfold Vector3.subtract, Vector3.scale, Vector3.Dot; simpl. ring.
Qed.

(** X5. For a unit normal, a static collision reverses the momentum along
    the normal and damps it, [result . n = - damping * mass * (v . n)], and
    the magnitude of the result is [damping * mass * |v|] (for a damping and
    a mass that are not negative): the reflection itself loses nothing. *)
Theorem static_collision_reflects_about_normal
    (this : CollisionPhysics) (body : PhysicsBody) (n : Vector3) :
  Vector3.length n = 1 ->
  0 <= staticObjectDamping this ->
  0 <= body_mass body ->
  let result := CollisionPhysics.calculateStaticCollision this body n in
  Vector3.Dot result n
  = - staticObjectDamping this * body_mass body
    * Vector3.Dot (body_velocity body) n /\
  Vector3.length result
  = staticObjectDamping this * body_mass body
    * Vector3.length (body_velocity body).
Proof.
  intros Hn Hd Hm result.
  assert (HN : vx n * vx n + vy n * vy n + vz n * vz n = 1)
    by (rewrite <- length_sqr, Hn; ring).
  subst result. unfold CollisionPhysics.calculateStaticCollision. cbv zeta.
  split.
  - set (v := body_velocity body). set (m := body_mass body).
    set (d := staticObjectDamping this).
    transitivity
      (d * m * Vector3.Dot v n
       * (1 - 2 * (vx n * vx n + vy n * vy n + vz n * vz n))).
    + unfold Vector3.Dot, Vector3.subtract, Vector3.scale; simpl. ring.
    + rewrite HN. ring.
  - rewrite length_scale by exact Hd.
    rewrite (Rmult_assoc (staticObjectDamping this) (body_mass body)).
    f_equal.
    rewrite <- (length_scale (body_velocity body) (body_mass body)) by exact Hm.
    apply length_eq_of_sqr.
    pose proof (static_collision_sumsq (body_velocity body) n (body_mass body))
      as Hs.
    cbv zeta in Hs. rewrite Hs, HN.
    unfold Vector3.scale; simpl. ring.
Qed.

Lemma static_collision_reflects_about_normal_witness :
  let body := mkPhysicsBody (mkVector3 1 2 0) 1000 (mkVector3 0 0 0) in
  Vector3.length (mkVector3 1 0 0) = 1 /\
  0 <= staticObjectDamping CollisionPhysics.default /\
  0 <= 1000 /\
  Vector3.length
    (CollisionPhysics.calculateStaticCollision CollisionPhysics.default body
       (mkVector3 1 0 0))
  = staticObjectDamping CollisionPhysics.default * 1000
    * Vector3.length (mkVector3 1 2 0).
Proof.
  intros body.
  assert (Hn : Vector3.length (mkVector3 1 0 0) = 1)
    by (apply length_axis_x; lra).
  assert (Hd : 0 <= staticObjectDamping CollisionPhysics.default)
    by (simpl; lra).
  assert (Hm : 0 <= 1000) by lra.
  repeat split; try assumption.
  apply (proj2 (static_collision_reflects_about_normal
                  CollisionPhysics.default body (mkVector3 1 0 0) Hn Hd Hm)).
Defined.

(** ** Separation, collision normal, friction *)

(** X6. For positive masses, [calculateSeparation] splits the separation
    distance (doubled when interpenetrating) between the two bodies in
    inverse proportion to their masses: the two shares add up to the whole,
    [share1 * mass1 = share2 * mass2], and the lighter body gets the larger
    share. *)
Theorem calculateSeparation_splits_inversely_to_mass
    (this : CollisionPhysics) (mass1 mass2 distance : R)
    (isInterpenetrating : bool) :
  0 < mass1 ->
  0 < mass2 ->
  0 <= distance ->
  let r :=
    CollisionPhysics.calculateSeparation this mass1 mass2 distance
      isInterpenetrating in
  let whole := distance * (if isInterpenetrating then 2 else 1) in
  body1Separation r + body2Separation r = whole /\
  body1Separation r * mass1 = body2Separation r * mass2 /\
  0 <= body1Separation r /\
  0 <= body2Separation r /\
  (mass1 <= mass2 -> body2Separation r <= body1Separation r).
Proof.
  intros H1 H2 Hd r whole. subst r whole.
  unfold CollisionPhysics.calculateSeparation.
  cbn [body1Separation body2Separation].
  set (k := if isInterpenetrating then 2 else 1).
  assert (Hk : 0 < k) by (unfold k; destruct isInterpenetrating; lra).
  assert (Ht : 0 < / (mass1 + mass2)) by (apply Rinv_0_lt_compat; lra).
  assert (Hdk : 0 <= distance * k) by nra.
  assert (Hc : 0 <= / (mass1 + mass2) * (distance * k)) by nra.
  unfold Rdiv.
  replace (mass2 * / (mass1 + mass2) * distance * k)
    with (mass2 * (/ (mass1 + mass2) * (distance * k))) by ring.
  replace (mass1 * / (mass1 + mass2) * distance * k)
    with (mass1 * (/ (mass1 + mass2) * (distance * k))) by ring.
  set (c := / (mass1 + mass2) * (distance * k)) in *.
  repeat split.
  - unfold c. field. lra.
  - ring.
  - nra.
  - nra.
  - intros Hle. nra.
Qed.

Lemma calculateSeparation_splits_inversely_to_mass_witness :
  let r :=
    CollisionPhysics.calculateSeparation CollisionPhysics.default 1000 500 3
      true in
  0 < 1000 /\ 0 < 500 /\ 0 <= 3 /\
  body1Separation r + body2Separation r = 3 * 2.
Proof.
  intros r.
  assert (H1 : 0 < 1000) by lra.
  assert (H2 : 0 < 500) by lra.
  assert (Hd : 0 <= 3) by lra.
  repeat split; try assumption.
  apply (proj1 (calculateSeparation_splits_inversely_to_mass
                  CollisionPhysics.default 1000 500 3 true H1 H2 Hd)).
Defined.

Lemma normalize_nonzero (v : Vector3) :
  v <> Vector3.Zero ->
  Vector3.normalize v = Vector3.scale v (1 / Vector3.length v).
Proof.
  intros Hv. pose proof (length_pos v Hv) as HL.
  unfold Vector3.normalize, Vector3.normalizeFromLength.
  destruct (Req_dec_T (Vector3.length v) 0) as [E0 | _]; [lra |].
  destruct (Req_dec_T (Vector3.length v) 1) as [E1 | _]; [| reflexivity].
  rewrite E1. destruct v as [x y z]. unfold Vector3.scale; simpl.
  f_equal; field.
Qed.

Lemma length_normalize (v : Vector3) :
  v <> Vector3.Zero -> Vector3.length (Vector3.normalize v) = 1.
Proof.
  intros Hv. pose proof (length_pos v Hv) as HL.
  rewrite normalize_nonzero by exact Hv.
  rewrite length_scale.
  - field. lra.
  - apply Rlt_le, Rdiv_lt_0_compat; lra.
Qed.

Lemma normalize_Zero : Vector3.normalize Vector3.Zero = Vector3.Zero.
Proof.
  unfold Vector3.normalize, Vector3.normalizeFromLength.
  rewrite length_Zero.
  destruct (Req_dec_T 0 0) as [_ | N]; [reflexivity | contradiction].
Qed.

Lemma subtract_nonzero (p c : Vector3) :
  p <> c -> Vector3.subtract p c <> Vector3.Zero.
Proof. intros H E. apply H, subtract_eq_Zero, E. Qed.

Lemma Distance_sym (a b : Vector3) :
  Vector3.Distance a b = Vector3.Distance b a.
Proof.
  unfold Vector3.Distance. apply length_eq_of_sqr.
  unfold Vector3.subtract; simpl. ring.
Qed.

(** X7. For two distinct positions, [calculateCollisionNormal] is a unit
    vector that points from the first position to the second (going from
    the first along the normal by their distance reaches the second), and
    swapping the positions negates it. *)
Theorem calculateCollisionNormal_unit_and_directed
    (this : CollisionPhysics) (p1 p2 : Vector3) :
  p1 <> p2 ->
  let normal := CollisionPhysics.calculateCollisionNormal this p1 p2 in
  Vector3.length normal = 1 /\
  Vector3.add p1 (Vector3.scale normal (Vector3.Distance p1 p2)) = p2 /\
  CollisionPhysics.calculateCollisionNormal this p2 p1
  = Vector3.scale normal (-1).
Proof.
  intros Hne normal. subst normal.
  unfold CollisionPhysics.calculateCollisionNormal.
  assert (H21 : Vector3.subtract p2 p1 <> Vector3.Zero)
    by (apply subtract_nonzero; intros E; apply Hne; symmetry; exact E).
  assert (H12 : Vector3.subtract p1 p2 <> Vector3.Zero)
    by (apply subtract_nonzero; exact Hne).
  pose proof (length_pos _ H21) as HL.
  assert (Hsym : Vector3.length (Vector3.subtract p1 p2)
                 = Vector3.length (Vector3.subtract p2 p1))
    by apply (Distance_sym p1 p2).
  split; [apply length_normalize; exact H21 |].
  rewrite !normalize_nonzero by assumption.
  unfold Vector3.Distance. rewrite Hsym.
  set (L := Vector3.length (Vector3.subtract p2 p1)) in *.
  destruct p1 as [a b c], p2 as [x y z].
  unfold Vector3.add, Vector3.scale, Vector3.subtract; simpl.
  split; f_equal; field; lra.
Qed.

Lemma calculateCollisionNormal_unit_and_directed_witness :
  mkVector3 0 0 0 <> mkVector3 3 0 0 /\
  Vector3.length
    (CollisionPhysics.calculateCollisionNormal CollisionPhysics.default
       (mkVector3 0 0 0) (mkVector3 3 0 0))
  = 1.
Proof.
  assert (H : mkVector3 0 0 0 <> mkVector3 3 0 0).
  { intros E. apply (f_equal vx) in E. simpl in E. lra. }
  split; [exact H |].
  apply (proj1 (calculateCollisionNormal_unit_and_directed
                  CollisionPhysics.default (mkVector3 0 0 0)
                  (mkVector3 3 0 0) H)).
Defined.

(** X8. What [applyMomentumFriction] returns is never a negligible momentum
    other than the zero vector: if [isMomentumNegligible] holds of the
    result, the result is exactly zero; and with a positive threshold the
    zero vector is negligible. *)
Theorem applyMomentumFriction_leaves_no_residue
    (this : CollisionPhysics) (m : Vector3) (dt : R) :
  (CollisionPhysics.isMomentumNegligible this
     (CollisionPhysics.applyMomentumFriction this m dt) = true ->
   CollisionPhysics.applyMomentumFriction this m dt = Vector3.Zero) /\
  (0 < momentumThreshold this ->
   CollisionPhysics.isMomentumNegligible this Vector3.Zero = true).
Proof.
  split.
  - destruct (applyMomentumFriction_cases this dt m) as [H | [H Hge]];
      [intros _; exact H |].
    rewrite H. unfold CollisionPhysics.isMomentumNegligible.
    destruct (Rlt_dec _ _) as [Hlt | _]; [lra | discriminate].
  - intros Hth. unfold CollisionPhysics.isMomentumNegligible.
    rewrite length_Zero.
    destruct (Rlt_dec 0 (momentumThreshold this)); [reflexivity | lra].
Qed.

Lemma applyMomentumFriction_leaves_no_residue_witness :
  CollisionPhysics.isMomentumNegligible CollisionPhysics.default
    Vector3.Zero = true.
Proof.
  apply (proj2 (applyMomentumFriction_leaves_no_residue
                  CollisionPhysics.default Vector3.Zero 1)).
  simpl. lra.
Defined.

Lemma scale_by_0 (m : Vector3) : Vector3.scale m 0 = Vector3.Zero.
Proof. unfold Vector3.scale, Vector3.Zero. f_equal; ring. Qed.

Lemma applyMomentumFriction_scales_step
    (this : CollisionPhysics) (m : Vector3) (dt : R) :
  0 <= momentumFriction this * dt ->
  Vector3.length (CollisionPhysics.applyMomentumFriction this m dt)
  <= Vector3.length m.
Proof.
  intros Hfd. pose proof (length_nonneg m) as Hl.
  destruct (applyMomentumFriction_cases this dt m) as [H | [H _]]; rewrite H.
  - rewrite length_Zero. exact Hl.
  - assert (Hk : 0 <= Rmax 0 (1 - momentumFriction this * dt) <= 1)
      by (split; [apply Rmax_l | apply Rmax_lub; lra]).
    rewrite length_scale by apply Hk. nra.
Qed.

(** X9. When [momentumFriction * dt] is not negative, friction neither
    reverses nor amplifies a momentum: the result is the momentum scaled by
    some factor in [[0, 1]]; and when [momentumFriction * dt >= 1] the
    result is the zero vector (the decay is clamped, it does not invert). *)
Theorem applyMomentumFriction_scales_within_unit_interval
    (this : CollisionPhysics) (m : Vector3) (dt : R) :
  0 <= momentumFriction this * dt ->
  (exists k : R,
     0 <= k <= 1 /\
     CollisionPhysics.applyMomentumFriction this m dt = Vector3.scale m k) /\
  Vector3.length (CollisionPhysics.applyMomentumFriction this m dt)
  <= Vector3.length m /\
  (1 <= momentumFriction this * dt ->
   CollisionPhysics.applyMomentumFriction this m dt = Vector3.Zero).
Proof.
  intros Hfd.
  set (k := Rmax 0 (1 - momentumFriction this * dt)).
  assert (Hk : 0 <= k <= 1).
  { unfold k. split; [apply Rmax_l | apply Rmax_lub; lra]. }
  assert (Hex : exists k0 : R,
             0 <= k0 <= 1 /\
             CollisionPhysics.applyMomentumFriction this m dt
             = Vector3.scale m k0).
  { destruct (applyMomentumFriction_cases this dt m) as [H | [H _]].
    - exists 0. split; [lra |]. rewrite H, scale_by_0. reflexivity.
    - exists k. split; [exact Hk | exact H]. }
  split; [exact Hex | split].
  - destruct Hex as (k0 & Hk0 & E). rewrite E, length_scale by lra.
    pose proof (length_nonneg m). nra.
  - intros Hbig.
    destruct (applyMomentumFriction_cases this dt m) as [H | [H _]];
      [exact H |].
    rewrite H. fold k.
    replace k with 0; [apply scale_by_0 |].
    unfold k. rewrite Rmax_left; lra.
Qed.

Lemma applyMomentumFriction_scales_within_unit_interval_witness :
  0 <= momentumFriction CollisionPhysics.default * 3 /\
  CollisionPhysics.applyMomentumFriction CollisionPhysics.default
    (mkVector3 100 0 0) 3
  = Vector3.Zero.
Proof.
  assert (H : 0 <= momentumFriction CollisionPhysics.default * 3)
    by (simpl; lra).
  split; [exact H |].
  apply (proj2 (proj2 (applyMomentumFriction_scales_within_unit_interval
                         CollisionPhysics.default (mkVector3 100 0 0) 3 H))).
  simpl. lra.
Defined.

(** ** Vehicle: what the exposed operations keep *)

Lemma runFrame_unfold (f : Vehicle.Frame) (this : Vehicle) :
  Vehicle.runFrame f this
  = Vehicle.updatePosition (Vehicle.frame_dt f)
      (Vehicle.updateMovement (Vehicle.frame_dt f)
         (Vehicle.setInput (Vehicle.frame_accelerate f) (Vehicle.frame_steer f)
            (Vehicle.frame_handbrake f) this)).
Proof. reflexivity. Qed.

(** The surface parameters are fixed once detected: no exposed operation
    writes them. *)
Lemma runOp_surface (o : Vehicle.Op) (this : Vehicle) :
  surfaceType (Vehicle.runOp o this) = surfaceType this /\
  planetRadius (Vehicle.runOp o this) = planetRadius this /\
  planetCenter (Vehicle.runOp o this) = planetCenter this /\
  groundHeight (Vehicle.runOp o this) = groundHeight this /\
  heightOffset (Vehicle.runOp o this) = heightOffset this.
Proof.
  destruct o as [f | imp | m | v | | p]; try (repeat split).
  all: unfold Vehicle.runOp; rewrite runFrame_unfold.
  all: match goal with
       | |- context [Vehicle.updatePosition ?d ?t] =>
           destruct (updatePosition_frame d t)
             as (_ & _ & _ & _ & _ & _ & _ & _ & _ & _ & Hs & Hr & Hc & Hg & Hh & _)
       end.
  all: match goal with
       | |- context [Vehicle.updateMovement ?d ?t] =>
           destruct (updateMovement_geometry d t) as (_ & _ & Hs' & Hc' & Hr' & Hh')
       end.
  - rewrite Hs, Hs'. reflexivity.
  - rewrite Hr, Hr'. reflexivity.
  - rewrite Hc, Hc'. reflexivity.
  - rewrite Hg. unfold Vehicle.updateMovement. cbv zeta.
    split_ifs; reflexivity.
  - rewrite Hh, Hh'. reflexivity.
Qed.

Lemma updatePositionGround_height (dt : R) (this : Vehicle) :
  position (Vehicle.updatePositionGround dt this) = position this \/
  vy (position (Vehicle.updatePositionGround dt this))
  = groundHeight this + heightOffset this.
Proof.
  unfold Vehicle.updatePositionGround. cbv zeta.
  destruct (Rlt_dec _ 0.1); [left | right]; reflexivity.
Qed.

Lemma runFrame_ground_height (f : Vehicle.Frame) (this : Vehicle) :
  surfaceType this = ground ->
  position (Vehicle.runFrame f this) = position this \/
  vy (position (Vehicle.runFrame f this))
  = groundHeight this + heightOffset this.
Proof.
  intros Hs. rewrite runFrame_unfold.
  set (inp := Vehicle.setInput _ _ _ this).
  destruct (updateMovement_geometry (Vehicle.frame_dt f) inp)
    as (Hp & _ & Hst & _ & _ & Hh).
  unfold Vehicle.updatePosition. rewrite Hst. subst inp.
  cbn [surfaceType Vehicle.setInput Vehicle.set_input]. rewrite Hs.
  match goal with
  | |- context [Vehicle.updatePositionGround ?d ?t] =>
      destruct (updatePositionGround_height d t) as [H | H]
  end.
  - left. rewrite H, Hp. reflexivity.
  - right. rewrite H, Hh.
    unfold Vehicle.updateMovement. cbv zeta. split_ifs; reflexivity.
Qed.

(** X10. In ground mode the height is authoritative: a frame either leaves
    the position alone or puts it at exactly [groundHeight + heightOffset],
    so a vehicle that starts at that height is at that height after any
    sequence of frames, collision impulses, [setMomentum], [setVelocity] and
    [stopMovement] calls. *)
Theorem ground_mode_keeps_height
    (os : list Vehicle.Op) (this : Vehicle) :
  surfaceType this = ground ->
  vy (position this) = groundHeight this + heightOffset this ->
  forallb (fun o => negb (Vehicle.isSetPosition o)) os = true ->
  vy (position (Vehicle.runOps os this))
  = groundHeight this + heightOffset this.
Proof.
  revert this. induction os as [| o os IH]; intros this Hs Hy Hops.
  - exact Hy.
  - cbn [forallb] in Hops. apply andb_prop in Hops. destruct Hops as [Ho Hos].
    cbn [Vehicle.runOps].
    destruct (runOp_surface o this) as (Hs' & _ & _ & Hg' & Hh').
    rewrite <- Hg', <- Hh'.
    apply IH; [rewrite Hs'; exact Hs | | exact Hos].
    rewrite Hg', Hh'.
    destruct o as [f | imp | m | v | | p]; try exact Hy.
    + destruct (runFrame_ground_height f this Hs) as [H | H].
      * cbn [Vehicle.runOp]. rewrite H. exact Hy.
      * exact H.
    + discriminate Ho.
Qed.

Lemma ground_mode_keeps_height_witness :
  let os :=
    [Vehicle.OpFrame (Vehicle.mkFrame 1 0 false 0.016);
     Vehicle.OpApplyCollisionImpulse (mkVector3 500 0 0);
     Vehicle.OpFrame (Vehicle.mkFrame 0 1 false 0.016)] in
  surfaceType (Examples.cruisingCar 0.5) = ground /\
  vy (position (Vehicle.runOps os (Examples.cruisingCar 0.5))) = 0 + 0.
Proof.
  intros os.
  assert (Hs : surfaceType (Examples.cruisingCar 0.5) = ground)
    by reflexivity.
  split; [exact Hs |].
  apply (ground_mode_keeps_height os (Examples.cruisingCar 0.5) Hs).
  - cbn [Examples.cruisingCar position groundHeight heightOffset vy]. lra.
  - reflexivity.
Defined.

(** ** Vehicle: the orientation stays a unit quaternion *)

Lemma lengthSquared_multiply (p q : Quaternion) :
  Quaternion.lengthSquared (Quaternion.multiply p q)
  = Quaternion.lengthSquared p * Quaternion.lengthSquared q.
Proof.
  destruct p as [a b c d], q as [x y z w].
  unfold Quaternion.lengthSquared, Quaternion.multiply; simpl. ring.
Qed.

Lemma lengthSquared_Identity :
  Quaternion.lengthSquared Quaternion.Identity = 1.
Proof. unfold Quaternion.lengthSquared, Quaternion.Identity; simpl. ring. Qed.

Lemma rotateByQuaternionToRef_unit_length (v : Vector3) (q : Quaternion) :
  Quaternion.lengthSquared q = 1 ->
  Vector3.length (rotateByQuaternionToRef v q) = Vector3.length v.
Proof.
  intros Hq. apply length_eq_of_sqr.
  pose proof (rotateByQuaternionToRef_sumsq v q) as H. cbv zeta in H.
  rewrite H, Hq. ring.
Qed.

Lemma length_1_nonzero (v : Vector3) :
  0 < Vector3.length v -> v <> Vector3.Zero.
Proof. intros H E. rewrite E, length_Zero in H. lra. Qed.

Lemma length_local_up : Vector3.length (mkVector3 0 1 0) = 1.
Proof. exact length_Up. Qed.

Lemma worldUp_nonzero (q : Quaternion) :
  Quaternion.lengthSquared q = 1 ->
  rotateByQuaternionToRef (mkVector3 0 1 0) q <> Vector3.Zero.
Proof.
  intros Hq. apply length_1_nonzero.
  rewrite rotateByQuaternionToRef_unit_length, length_local_up by exact Hq.
  lra.
Qed.

Lemma Up_nonzero : Vector3.Up <> Vector3.Zero.
Proof. apply length_1_nonzero. rewrite length_Up. lra. Qed.

Lemma createAlignmentRotation_unit (q : Quaternion) (n : Vector3) :
  Quaternion.lengthSquared q = 1 ->
  Quaternion.lengthSquared (Vehicle.createAlignmentRotation q n) = 1.
Proof.
  intros Hq. unfold Vehicle.createAlignmentRotation. cbv zeta.
  destruct (Rlt_dec _ 0.0001) as [_ | Hbig]; [exact Hq |].
  rewrite lengthSquared_multiply, Hq, RotationAxis_lengthSquared; [ring |].
  apply length_1_nonzero. rewrite length_normalize; [lra |].
  apply length_1_nonzero. lra.
Qed.

Lemma updatePosition_unit (dt : R) (this : Vehicle) :
  Quaternion.lengthSquared (Vehicle.currentRotationOf this) = 1 ->
  Quaternion.lengthSquared
    (Vehicle.currentRotationOf (Vehicle.updatePosition dt this)) = 1.
Proof.
  intros Hq.
  assert (Hm : Vehicle.currentRotationOf (Vehicle.updateMomentum dt this)
               = Vehicle.currentRotationOf this) by reflexivity.
  unfold Vehicle.updatePosition.
  destruct (surfaceType this).
  - unfold Vehicle.updatePositionPlanet. cbv zeta.
    destruct (Rlt_dec _ 0.1); [exact Hq |].
    cbn [Vehicle.currentRotationOf rotationQuaternion
         Vehicle.set_rotationQuaternion].
    apply createAlignmentRotation_unit.
    rewrite lengthSquared_multiply, RotationAxis_lengthSquared.
    + rewrite Hm, Hq. ring.
    + rewrite Hm. apply worldUp_nonzero. exact Hq.
  - unfold Vehicle.updatePositionGround. cbv zeta.
    destruct (Rlt_dec _ 0.1); [exact Hq |].
    cbn [Vehicle.currentRotationOf rotationQuaternion
         Vehicle.set_rotationQuaternion].
    rewrite lengthSquared_multiply, RotationAxis_lengthSquared
      by apply Up_nonzero.
    rewrite Hm, Hq. ring.
Qed.

Lemma runOp_unit (o : Vehicle.Op) (this : Vehicle) :
  Quaternion.lengthSquared (Vehicle.currentRotationOf this) = 1 ->
  Quaternion.lengthSquared
    (Vehicle.currentRotationOf (Vehicle.runOp o this)) = 1.
Proof.
  intros Hq. destruct o as [f | imp | m | v | | p]; try exact Hq.
  unfold Vehicle.runOp. rewrite runFrame_unfold.
  apply updatePosition_unit.
  unfold Vehicle.currentRotationOf.
  match goal with
  | |- context [Vehicle.updateMovement ?d ?t] =>
      destruct (updateMovement_geometry d t) as (_ & Hr & _)
  end.
  rewrite Hr. exact Hq.
Qed.

(** ** Vehicle: frames *)

Lemma updatePosition_momentum (dt : R) (this : Vehicle) :
  momentum (Vehicle.updatePosition dt this)
  = CollisionPhysics.applyMomentumFriction (collisionPhysics this)
      (momentum this) dt.
Proof.
  unfold Vehicle.updatePosition. destruct (surfaceType this).
  - unfold Vehicle.updatePositionPlanet. cbv zeta.
    destruct (Rlt_dec _ 0.1); [reflexivity |].
    destruct (Rlt_dec 0.001 _); reflexivity.
  - unfold Vehicle.updatePositionGround. cbv zeta.
    destruct (Rlt_dec _ 0.1); reflexivity.
Qed.

Lemma runFrame_momentum (f : Vehicle.Frame) (this : Vehicle) :
  momentum (Vehicle.runFrame f this)
  = CollisionPhysics.applyMomentumFriction (collisionPhysics this)
      (momentum this) (Vehicle.frame_dt f) /\
  collisionPhysics (Vehicle.runFrame f this) = collisionPhysics this.
Proof.
  rewrite runFrame_unfold. rewrite updatePosition_momentum.
  set (inp := Vehicle.setInput _ _ _ this).
  destruct (updateMovement_frame (Vehicle.frame_dt f) inp)
    as (_ & Hm & _ & Hc).
  destruct (updatePosition_frame (Vehicle.frame_dt f)
              (Vehicle.updateMovement (Vehicle.frame_dt f) inp))
    as (_ & _ & _ & _ & _ & _ & _ & _ & _ & _ & _ & _ & _ & _ & _ & Hc').
  rewrite Hc', Hm, Hc. split; reflexivity.
Qed.

(** X12. Every frame passes the momentum through [applyMomentumFriction]
    once, in ground and in planet mode, so under frames with non-negative
    time steps (and a friction that is not negative) the magnitude of the
    momentum never grows. *)
Theorem frames_never_grow_momentum
    (fs : list Vehicle.Frame) (this : Vehicle) :
  0 <= momentumFriction (collisionPhysics this) ->
  Forall (fun f => 0 <= Vehicle.frame_dt f) fs ->
  Vector3.length (momentum (Vehicle.runFrames fs this))
  <= Vector3.length (momentum this).
Proof.
  intros Hf Hdt. revert this Hf.
  induction Hdt as [| f fs Hf0 _ IH]; intros this Hf.
  - cbn. lra.
  - cbn [Vehicle.runFrames].
    destruct (runFrame_momentum f this) as [Hm Hc].
    specialize (IH (Vehicle.runFrame f this)). rewrite Hc in IH.
    specialize (IH Hf). rewrite Hm in IH.
    assert (Hfd : 0 <= momentumFriction (collisionPhysics this)
                       * Vehicle.frame_dt f) by nra.
    pose proof (applyMomentumFriction_scales_step (collisionPhysics this)
                  (momentum this) (Vehicle.frame_dt f) Hfd) as Hstep.
    lra.
Qed.

Lemma frames_never_grow_momentum_witness :
  let fs := [Vehicle.mkFrame 1 0 false 0.016; Vehicle.mkFrame 0 0 true 0.5] in
  let car := Vehicle.setMomentum (mkVector3 500 0 0) (Examples.cruisingCar 0.5) in
  0 <= momentumFriction (collisionPhysics car) /\
  Forall (fun f => 0 <= Vehicle.frame_dt f) fs /\
  Vector3.length (momentum (Vehicle.runFrames fs car))
  <= Vector3.length (momentum car).
Proof.
  intros fs car.
  assert (Hf : 0 <= momentumFriction (collisionPhysics car)) by (simpl; lra).
  assert (Hdt : Forall (fun f => 0 <= Vehicle.frame_dt f) fs).
  { subst fs. repeat constructor; cbn [Vehicle.frame_dt]; lra. }
  repeat split; try assumption.
  apply (frames_never_grow_momentum fs car Hf Hdt).
Defined.

(** *** A vehicle without driving speed *)

Lemma Math_sign_0 : Math_sign 0 = 0.
Proof.
  unfold Math_sign.
  destruct (Rlt_dec 0 0); [lra |]. destruct (Rlt_dec 0 0); [lra | reflexivity].
Qed.

Lemma updateMovement_speed_0 (dt : R) (this : Vehicle) :
  speed this = 0 ->
  inputAccelerate this = 0 ->
  0 <= maxSpeed this ->
  speed (Vehicle.updateMovement dt this) = 0 /\
  steerAngle (Vehicle.updateMovement dt this) = 0.
Proof.
  intros Hs Ha HM.
  assert (H0 : speed (Vehicle.updateMovement dt this) = 0).
  { destruct (inputHandbrake this) eqn:Hb.
    - rewrite updateMovement_speed_handbrake by exact Hb. rewrite Hs.
      destruct (Rle_dec _ _); [reflexivity |]. rewrite Math_sign_0. ring.
    - rewrite updateMovement_speed_drive by exact Hb. rewrite Hs, Ha.
      replace (0 + 0 * acceleration this * dt) with 0 by ring.
      rewrite Rmin_right by exact HM. rewrite Rmax_right by lra. ring. }
  split; [exact H0 |].
  rewrite updateMovement_steerAngle, H0.
  destruct (Rlt_dec (Rabs 0) 0.5) as [_ | N]; [reflexivity |].
  rewrite Rabs_R0 in N. lra.
Qed.

Lemma momentumToVelocity_Zero (cp : CollisionPhysics) (mass : R) :
  CollisionPhysics.momentumToVelocity cp Vector3.Zero mass = Vector3.Zero.
Proof.
  unfold CollisionPhysics.momentumToVelocity.
  destruct (Req_dec_T mass 0); [reflexivity | apply scale_Zero].
Qed.











(** ** Vehicle: steering and translation of a frame *)

Lemma RotationAxis_angle_0 (axis : Vector3) :
  Quaternion.RotationAxis axis 0 = Quaternion.Identity.
Proof.
  unfold Quaternion.RotationAxis, Quaternion.Identity. cbv zeta.
  replace (0 / 2) with 0 by field. rewrite sin_0, cos_0.
  f_equal; unfold Rdiv; ring.
Qed.

Lemma multiply_Identity_l (q : Quaternion) :
  Quaternion.multiply Quaternion.Identity q = q.
Proof.
  destruct q as [x y z w].
  unfold Quaternion.multiply, Quaternion.Identity; simpl. f_equal; ring.
Qed.

(** X15. No turning while (nearly) stopped: in ground mode, a frame that
    ends the control step with [|speed| < 0.5] leaves the orientation as it
    was, whatever the steering input. *)
Theorem ground_slow_vehicle_does_not_turn (dt : R) (this : Vehicle) :
  surfaceType this = ground ->
  Rabs (speed (Vehicle.updateMovement dt this)) < 0.5 ->
  Vehicle.currentRotationOf (Vehicle.update dt this)
  = Vehicle.currentRotationOf this.
Proof.
  intros Hg Hslow.
  assert (Hst : steerAngle (Vehicle.updateMovement dt this) = 0).
  { rewrite updateMovement_steerAngle.
    destruct (Rlt_dec _ 0.5); [reflexivity | contradiction]. }
  pose proof (update_ground_slow dt this Hg) as Hs.
  pose proof (update_ground_moving dt this Hg) as Hm.
  cbv zeta in Hs, Hm.
  match type of Hs with
  | ?c < 0.1 -> _ => destruct (Rlt_dec c 0.1) as [Hlt | Hge]
  end.
  - destruct (Hs Hlt) as (Hq & _). unfold Vehicle.currentRotationOf.
    rewrite Hq. reflexivity.
  - destruct Hm as (Hq & _); [lra |].
    unfold Vehicle.currentRotationOf at 1. rewrite Hq.
    cbn [steerAngle Vehicle.updateMomentum Vehicle.set_momentum].
    rewrite Hst. replace (0 * dt) with 0 by ring.
    rewrite RotationAxis_angle_0. apply multiply_Identity_l.
Qed.

Lemma ground_slow_vehicle_does_not_turn_witness :
  let car := Vehicle.setInput 0 1 false (Vehicle.stopMovement (Examples.cruisingCar 0.5)) in
  surfaceType car = ground /\
  Rabs (speed (Vehicle.updateMovement 1 car)) < 0.5 /\
  Vehicle.currentRotationOf (Vehicle.update 1 car)
  = Vehicle.currentRotationOf car.
Proof.
  intros car.
  assert (Hg : surfaceType car = ground) by reflexivity.
  assert (Hs : Rabs (speed (Vehicle.updateMovement 1 car)) < 0.5).
  { destruct (updateMovement_speed_0 1 car) as [H0 _];
      [reflexivity | reflexivity | simpl; lra |].
    rewrite H0, Rabs_R0. lra. }
  repeat split; try assumption.
  apply (ground_slow_vehicle_does_not_turn 1 car Hg Hs).
Defined.



Lemma updatePositionGround_translation (dt : R) (this : Vehicle) :
  let this' := Vehicle.updatePositionGround dt this in
  vx (position this') = vx (position this) + vx (velocity this') * dt /\
  vz (position this') = vz (position this) + vz (velocity this') * dt.
Proof.
  unfold Vehicle.updatePositionGround. cbv zeta.
  destruct (Rlt_dec _ 0.1).
  - cbn [position velocity Vehicle.set_velocity Vehicle.updateMomentum
         Vehicle.set_momentum Vector3.Zero vx vz].
    split; ring.
  - cbn [position velocity Vehicle.set_velocity Vehicle.set_position
         Vehicle.set_rotationQuaternion Vehicle.updateMomentum
         Vehicle.set_momentum vx vz Vector3.add Vector3.scale].
    split; reflexivity.
Qed.

(** X17. In ground mode a frame moves the vehicle on the horizontal plane by
    exactly [velocity * dt], with the velocity that the frame leaves behind
    (zero on a frame that ends early). *)
Theorem ground_frame_translates_by_velocity (dt : R) (this : Vehicle) :
  surfaceType this = ground ->
  let this' := Vehicle.update dt this in
  vx (position this') = vx (position this) + vx (velocity this') * dt /\
  vz (position this') = vz (position this) + vz (velocity this') * dt.
Proof.
  intros Hg this'. subst this'. rewrite update_ground_unfold by exact Hg.
  destruct (updateMovement_geometry dt this) as (Hp & _).
  rewrite <- Hp. apply updatePositionGround_translation.
Qed.

Lemma ground_frame_translates_by_velocity_witness :
  let car := Examples.cruisingCar 0.5 in
  surfaceType car = ground /\
  vx (position (Vehicle.update 1 car))
  = vx (position car) + vx (velocity (Vehicle.update 1 car)) * 1.
Proof.
  intros car.
  assert (Hg : surfaceType car = ground) by reflexivity.
  split; [exact Hg |].
  apply (proj1 (ground_frame_translates_by_velocity 1 car Hg)).
Defined.

(** ** Vehicle: creation and the sphere *)

Lemma Distance_origin (p : Vector3) :
  Vector3.Distance (mkVector3 0 0 0) p = Vector3.length p.
Proof.
  unfold Vector3.Distance. apply length_eq_of_sqr.
  unfold Vector3.subtract; simpl. ring.
Qed.

(** X18. A vehicle created around an existing mesh in a scene with a planet
    takes the mesh's position as it is, measures the planet radius from it
    and ends with a height offset of exactly 0 whatever the configuration
    says: it is created at its target distance from the planet's centre. *)
Theorem create_with_existing_mesh_on_planet
    (config : Vehicle.PhysicsConfig) (scene : Vehicle.Scene)
    (node : Vehicle.ExistingNode) (center : Vector3) :
  Vehicle.planetMesh scene = Some center ->
  let v := Vehicle.create scene (Some node) (Vehicle.constructor config) in
  surfaceType v = planet /\
  position v = Vehicle.node_position node /\
  planetCenter v = center /\
  planetRadius v = Vector3.Distance (Vehicle.node_position node) center /\
  heightOffset v = 0 /\
  Vehicle.radialError v = 0.
Proof.
  intros Hp v.
  assert (Hst : surfaceType v = planet).
  { subst v. unfold Vehicle.create, Vehicle.detectSurface. rewrite Hp.
    reflexivity. }
  assert (Hpos : position v = Vehicle.node_position node).
  { subst v. unfold Vehicle.create, Vehicle.detectSurface. rewrite Hp.
    reflexivity. }
  assert (Hr : planetRadius v
               = Vector3.Distance (Vehicle.node_position node) center).
  { subst v. unfold Vehicle.create, Vehicle.detectSurface. rewrite Hp.
    reflexivity. }
  assert (Hc : planetCenter v = center).
  { subst v. unfold Vehicle.create, Vehicle.detectSurface. rewrite Hp.
    reflexivity. }
  assert (Hh : heightOffset v = 0).
  { subst v. unfold Vehicle.create, Vehicle.detectSurface. rewrite Hp.
    cbn. unfold Vector3.clone. ring. }
  repeat split; try assumption.
  unfold Vehicle.radialError. rewrite Hpos, Hc, Hr, Hh.
  replace (Vector3.Distance (Vehicle.node_position node) center
           - (Vector3.Distance (Vehicle.node_position node) center + 0))
    with 0 by ring.
  apply Rabs_R0.
Qed.

Lemma create_with_existing_mesh_on_planet_witness :
  let scene := Vehicle.mkScene (Some (mkVector3 0 0 0)) None in
  let node := Vehicle.mkExistingNode (mkVector3 0 50 0) Quaternion.Identity in
  let config := Vehicle.mkPhysicsConfig 10 5 0.5 1 0.7 None in
  Vehicle.planetMesh scene = Some (mkVector3 0 0 0) /\
  heightOffset (Vehicle.create scene (Some node) (Vehicle.constructor config))
  = 0.
Proof.
  intros scene node config.
  assert (Hp : Vehicle.planetMesh scene = Some (mkVector3 0 0 0))
    by reflexivity.
  split; [exact Hp |].
  destruct (create_with_existing_mesh_on_planet config scene node
              (mkVector3 0 0 0) Hp) as (_ & _ & _ & _ & H & _).
  exact H.
Defined.

(** X19. A vehicle created without a mesh starts from a render node at the
    origin.  In a scene with a planet away from the origin it measures the
    radius as the distance from the origin to the planet's centre and is
    placed exactly at [planetRadius + heightOffset] from the centre (when
    that target distance is not negative); in a scene without a planet it
    is placed at [(0, groundHeight + heightOffset, 0)], the ground height
    being that of the "Ground" mesh, or 0 without one.  In both cases the
    orientation is the identity. *)
Theorem create_without_mesh_places_on_surface
    (config : Vehicle.PhysicsConfig) (scene : Vehicle.Scene) :
  let v := Vehicle.create scene None (Vehicle.constructor config) in
  (forall center : Vector3,
     Vehicle.planetMesh scene = Some center ->
     center <> mkVector3 0 0 0 ->
     0 <= Vector3.length center + Vehicle.cfg_heightOffset config ->
     surfaceType v = planet /\
     planetRadius v = Vector3.length center /\
     rotationQuaternion v = Some Quaternion.Identity /\
     Vehicle.radialError v = 0) /\
  (Vehicle.planetMesh scene = None ->
   surfaceType v = ground /\
   groundHeight v
   = match Vehicle.groundMesh scene with Some g => vy g | None => 0 end /\
   position v
   = mkVector3 0 (groundHeight v + Vehicle.cfg_heightOffset config) 0 /\
   rotationQuaternion v = Some Quaternion.Identity).
Proof.
  intros v. split.
  - intros center Hp Hne Ht.
    set (d := Vehicle.detectSurface scene (mkVector3 0 0 0)
                (Vehicle.set_rotationQuaternion (Vehicle.constructor config)
                   None)).
    assert (Hv : v = Vehicle.positionOnGround (mkVector3 0 0 0) d)
      by reflexivity.
    assert (Hds : surfaceType d = planet)
      by (subst d; unfold Vehicle.detectSurface; rewrite Hp; reflexivity).
    assert (Hdc : planetCenter d = center)
      by (subst d; unfold Vehicle.detectSurface; rewrite Hp; reflexivity).
    assert (Hdr : planetRadius d = Vector3.length center).
    { subst d. unfold Vehicle.detectSurface. rewrite Hp. cbn.
      apply Distance_origin. }
    assert (Hdh : heightOffset d = Vehicle.cfg_heightOffset config)
      by (subst d; unfold Vehicle.detectSurface; rewrite Hp; reflexivity).
    assert (Hdq : rotationQuaternion d = None)
      by (subst d; unfold Vehicle.detectSurface; rewrite Hp; reflexivity).
    assert (He : Vehicle.radialError v = 0).
    { rewrite Hv. apply positionOnGround_radialError.
      - exact Hds.
      - rewrite Hdr, Hdh. exact Ht.
      - rewrite Hdc. intros E. apply Hne. symmetry. exact E. }
    assert (Hst : surfaceType v = planet).
    { rewrite Hv. unfold Vehicle.positionOnGround. rewrite Hds. cbv zeta.
      cbn [rotationQuaternion Vehicle.set_position].
      destruct (rotationQuaternion d); cbn; exact Hds. }
    assert (Hr : planetRadius v = Vector3.length center).
    { rewrite Hv. unfold Vehicle.positionOnGround. rewrite Hds. cbv zeta.
      cbn [rotationQuaternion Vehicle.set_position].
      destruct (rotationQuaternion d); cbn; exact Hdr. }
    assert (Hq : rotationQuaternion v = Some Quaternion.Identity).
    { rewrite Hv. unfold Vehicle.positionOnGround. rewrite Hds. cbv zeta.
      cbn [rotationQuaternion Vehicle.set_position]. rewrite Hdq.
      reflexivity. }
    repeat split; assumption.
  - intros Hp. subst v.
    unfold Vehicle.create, Vehicle.detectSurface. rewrite Hp.
    destruct (Vehicle.groundMesh scene); repeat split.
Qed.

Lemma create_without_mesh_places_on_surface_witness :
  let config := Vehicle.mkPhysicsConfig 10 5 0.5 1 0.7 None in
  let planetScene := Vehicle.mkScene (Some (mkVector3 0 0 (-100))) None in
  let groundScene := Vehicle.mkScene None (Some (mkVector3 0 2 0)) in
  (Vehicle.planetMesh planetScene = Some (mkVector3 0 0 (-100)) /\
   mkVector3 0 0 (-100) <> mkVector3 0 0 0 /\
   0 <= Vector3.length (mkVector3 0 0 (-100))
        + Vehicle.cfg_heightOffset config /\
   Vehicle.radialError
     (Vehicle.create planetScene None (Vehicle.constructor config)) = 0) /\
  (Vehicle.planetMesh groundScene = None /\
   position (Vehicle.create groundScene None (Vehicle.constructor config))
   = mkVector3 0
       (groundHeight
          (Vehicle.create groundScene None (Vehicle.constructor config))
        + 0.7) 0).
Proof.
  intros config planetScene groundScene. split.
  - assert (Hp : Vehicle.planetMesh planetScene
                 = Some (mkVector3 0 0 (-100))) by reflexivity.
    assert (Hne : mkVector3 0 0 (-100) <> mkVector3 0 0 0).
    { intros E. apply (f_equal vz) in E. simpl in E. lra. }
    assert (Ht : 0 <= Vector3.length (mkVector3 0 0 (-100))
                      + Vehicle.cfg_heightOffset config).
    { pose proof (length_nonneg (mkVector3 0 0 (-100))). simpl. lra. }
    repeat split; try assumption.
    destruct (proj1 (create_without_mesh_places_on_surface config planetScene)
                (mkVector3 0 0 (-100)) Hp Hne Ht) as (_ & _ & _ & H).
    exact H.
  - assert (Hp : Vehicle.planetMesh groundScene = None) by reflexivity.
    split; [exact Hp |].
    destruct (proj2 (create_without_mesh_places_on_surface config groundScene)
                Hp) as (_ & _ & H & _).
    exact H.
Defined.

(** X20. Edge of the surface detection: a vehicle created without a mesh in
    a scene whose planet is centred at the origin measures a planet radius
    of 0 and is placed at the planet's centre, whatever height offset is
    configured. *)
Theorem create_without_mesh_planet_at_origin
    (config : Vehicle.PhysicsConfig) (scene : Vehicle.Scene) :
  Vehicle.planetMesh scene = Some (mkVector3 0 0 0) ->
  let v := Vehicle.create scene None (Vehicle.constructor config) in
  surfaceType v = planet /\
  planetRadius v = 0 /\
  position v = planetCenter v /\
  Vehicle.radialError v = Rabs (Vehicle.cfg_heightOffset config).
Proof.
  intros Hp v.
  assert (Hsub : Vector3.subtract (mkVector3 0 0 0) (mkVector3 0 0 0)
                 = Vector3.Zero)
    by (unfold Vector3.subtract, Vector3.Zero; simpl; f_equal; ring).
  assert (Hpos : position v = mkVector3 0 0 0).
  { subst v. unfold Vehicle.create, Vehicle.detectSurface. rewrite Hp.
    unfold Vehicle.positionOnGround. cbn. unfold Vector3.clone.
    rewrite Hsub, normalize_Zero.
    unfold Vector3.add, Vector3.scale, Vector3.Zero; simpl. f_equal; ring. }
  assert (Hc : planetCenter v = mkVector3 0 0 0).
  { subst v. unfold Vehicle.create, Vehicle.detectSurface. rewrite Hp.
    reflexivity. }
  assert (Hr : planetRadius v = 0).
  { subst v. unfold Vehicle.create, Vehicle.detectSurface. rewrite Hp.
    unfold Vehicle.positionOnGround. cbn. unfold Vector3.clone.
    unfold Vector3.Distance. rewrite Hsub. apply length_Zero. }
  assert (Hh : heightOffset v = Vehicle.cfg_heightOffset config).
  { subst v. unfold Vehicle.create, Vehicle.detectSurface. rewrite Hp.
    reflexivity. }
  repeat split.
  - subst v. unfold Vehicle.create, Vehicle.detectSurface. rewrite Hp.
    reflexivity.
  - exact Hr.
  - rewrite Hpos, Hc. reflexivity.
  - unfold Vehicle.radialError. rewrite Hpos, Hc, Hr, Hh.
    unfold Vector3.Distance. rewrite Hsub, length_Zero.
    replace (0 - (0 + Vehicle.cfg_heightOffset config))
      with (- Vehicle.cfg_heightOffset config) by ring.
    apply Rabs_Ropp.
Qed.

Lemma create_without_mesh_planet_at_origin_witness :
  let scene := Vehicle.mkScene (Some (mkVector3 0 0 0)) None in
  let config := Vehicle.mkPhysicsConfig 10 5 0.5 1 0.7 None in
  Vehicle.planetMesh scene = Some (mkVector3 0 0 0) /\
  planetRadius (Vehicle.create scene None (Vehicle.constructor config)) = 0.
Proof.
  intros scene config.
  assert (Hp : Vehicle.planetMesh scene = Some (mkVector3 0 0 0))
    by reflexivity.
  split; [exact Hp |].
  destruct (create_without_mesh_planet_at_origin config scene Hp)
    as (_ & H & _).
  exact H.
Defined.

(** ** Alignment to the surface normal *)

Lemma rotateByQuaternionToRef_sandwich (v : Vector3) (q : Quaternion) :
  Quaternion.lengthSquared q = 1 ->
  rotateByQuaternionToRef v q = sandwich q v.
Proof.
  intros Hq.
  assert (Hx : forall a : R, a = a + (1 - Quaternion.lengthSquared q) * 0)
    by (intros; ring).
  destruct v as [x y z], q as [a b c d].
  unfold Quaternion.lengthSquared in Hq. simpl in Hq.
  unfold rotateByQuaternionToRef, sandwich, Vector3.add, Vector3.scale,
    Vector3.Cross, Vector3.Dot; simpl.
  f_equal.
  - transitivity
      (x * (d * d - (a * a + b * b + c * c)) + (b * z - c * y) * (2 * d)
       + a * (2 * (a * x + b * y + c * z))
       + (1 - (a * a + b * b + c * c + d * d)) * x); [ring |].
    rewrite Hq. ring.
  - transitivity
      (y * (d * d - (a * a + b * b + c * c)) + (c * x - a * z) * (2 * d)
       + b * (2 * (a * x + b * y + c * z))
       + (1 - (a * a + b * b + c * c + d * d)) * y); [ring |].
    rewrite Hq. ring.
  - transitivity
      (z * (d * d - (a * a + b * b + c * c)) + (a * y - b * x) * (2 * d)
       + c * (2 * (a * x + b * y + c * z))
       + (1 - (a * a + b * b + c * c + d * d)) * z); [ring |].
    rewrite Hq. ring.
Qed.

Lemma sandwich_multiply (p q : Quaternion) (v : Vector3) :
  sandwich (Quaternion.multiply p q) v = sandwich p (sandwich q v).
Proof.
  destruct v as [x y z], q as [a b c d], p as [e f g h].
  unfold sandwich, Quaternion.multiply, Vector3.add, Vector3.scale,
    Vector3.Cross, Vector3.Dot; simpl.
  f_equal; ring.
Qed.

(** Rotating by a product is rotating by the right factor first. *)
Lemma rotateByQuaternionToRef_multiply (p q : Quaternion) (v : Vector3) :
  Quaternion.lengthSquared p = 1 ->
  Quaternion.lengthSquared q = 1 ->
  rotateByQuaternionToRef v (Quaternion.multiply p q)
  = rotateByQuaternionToRef (rotateByQuaternionToRef v q) p.
Proof.
  intros Hp Hq.
  rewrite (rotateByQuaternionToRef_sandwich v (Quaternion.multiply p q))
    by (rewrite lengthSquared_multiply, Hp, Hq; ring).
  rewrite sandwich_multiply.
  rewrite <- (rotateByQuaternionToRef_sandwich v q) by exact Hq.
  rewrite <- rotateByQuaternionToRef_sandwich by exact Hp.
  reflexivity.
Qed.

(** Rotating [u] about [u x n] with the quaternion [(t (u x n), c)]. *)
Lemma rotate_about_cross (u n : Vector3) (t c : R) :
  let a := Vector3.Cross u n in
  let U := Vector3.Dot u u in
  let N := Vector3.Dot n n in
  let C := Vector3.Dot u n in
  rotateByQuaternionToRef u
    (mkQuaternion (vx a * t) (vy a * t) (vz a * t) c)
  = Vector3.add
      (Vector3.scale u (1 - 2 * c * t * C - 2 * (t * t) * (U * N - C * C)))
      (Vector3.scale n (2 * c * t * U)).
Proof.
  destruct u as [x y z], n as [a b e].
  unfold rotateByQuaternionToRef, Vector3.add, Vector3.scale, Vector3.Cross,
    Vector3.Dot; simpl.
  f_equal; ring.
Qed.

Lemma Cross_sumsq (u n : Vector3) :
  Vector3.length (Vector3.Cross u n) * Vector3.length (Vector3.Cross u n)
  = Vector3.Dot u u * Vector3.Dot n n - Vector3.Dot u n * Vector3.Dot u n.
Proof.
  rewrite length_sqr.
  unfold Vector3.Cross, Vector3.Dot; simpl. ring.
Qed.

Lemma Dot_self_unit (v : Vector3) :
  Vector3.length v = 1 -> Vector3.Dot v v = 1.
Proof.
  intros H. unfold Vector3.Dot. rewrite <- length_sqr, H. ring.
Qed.

Section Alignment.

Variable q : Quaternion.
Variable n : Vector3.
Hypothesis q_unit : Quaternion.lengthSquared q = 1.
Hypothesis n_unit : Vector3.length n = 1.

Let up := Vehicle.worldUpOf q.
Let L := Vector3.length (Vector3.Cross up n).

Lemma up_unit : Vector3.length up = 1.
Proof.
  unfold up, Vehicle.worldUpOf.
  rewrite rotateByQuaternionToRef_unit_length by exact q_unit.
  apply length_local_up.
Qed.

Lemma misalignment_sqr :
  L * L = 1 - Vector3.Dot up n * Vector3.Dot up n.
Proof.
  unfold L. rewrite Cross_sumsq.
  rewrite (Dot_self_unit up up_unit), (Dot_self_unit n n_unit). ring.
Qed.

Lemma misalignment_le_1 : 0 <= L <= 1.
Proof.
  pose proof misalignment_sqr as H.
  assert (0 <= L) by apply length_nonneg.
  split; [assumption | nra].
Qed.

Hypothesis misaligned : 0.0001 <= L.

(** The up axis after the alignment, whatever the angle. *)
Lemma aligned_up_general :
  Vehicle.worldUpOf (Vehicle.createAlignmentRotation q n)
  = Vector3.add n
      (Vector3.scale up (Rabs (Vector3.Dot up n) - Vector3.Dot up n)).
Proof.
  pose proof misalignment_le_1 as [HL0 HL1].
  pose proof misalignment_sqr as Hsq.
  pose proof up_unit as Hup.
  assert (HLpos : 0 < L) by lra.
  unfold Vehicle.createAlignmentRotation. cbv zeta.
  fold (Vehicle.worldUpOf q). fold up. fold L.
  destruct (Rlt_dec L 0.0001) as [Hsmall | _]; [lra |].
  rewrite Rmin_right by exact HL1.
  set (axis := Vector3.Cross up n) in *.
  assert (Hax : axis <> Vector3.Zero).
  { apply length_1_nonzero. exact HLpos. }
  assert (Hnax : Vector3.normalize axis <> Vector3.Zero).
  { apply length_1_nonzero. rewrite length_normalize by exact Hax. lra. }
  unfold Vehicle.worldUpOf.
  rewrite rotateByQuaternionToRef_multiply;
    [| apply RotationAxis_lengthSquared; exact Hnax | exact q_unit].
  fold (Vehicle.worldUpOf q). fold up.
  set (theta := asin L).
  set (s := sin (theta / 2)). set (c := cos (theta / 2)).
  assert (Hsin : 2 * s * c = L).
  { unfold s, c. rewrite <- sin_2a.
    replace (2 * (theta / 2)) with theta by field.
    unfold theta. apply sin_asin. lra. }
  assert (Hcos : 1 - 2 * s * s = Rabs (Vector3.Dot up n)).
  { unfold s. rewrite <- cos_2a_sin.
    replace (2 * (theta / 2)) with theta by field.
    unfold theta. rewrite cos_asin by lra.
    apply sqrt_lem_1; [unfold Rsqr; nra | apply Rabs_pos |].
    unfold Rsqr. rewrite <- Rabs_mult, Rabs_pos_eq by nra. lra. }
  assert (Hquat :
    Quaternion.RotationAxis (Vector3.normalize axis) theta
    = mkQuaternion (vx axis * (s / L)) (vy axis * (s / L))
        (vz axis * (s / L)) c).
  { unfold Quaternion.RotationAxis. cbv zeta.
    rewrite length_normalize by exact Hax.
    rewrite normalize_nonzero by exact Hax.
    fold L. fold s. fold c.
    unfold Vector3.scale; simpl. f_equal; field; lra. }
  rewrite Hquat.
  pose proof (rotate_about_cross up n (s / L) c) as Hrot.
  cbv zeta in Hrot. fold axis in Hrot. rewrite Hrot.
  rewrite (Dot_self_unit up Hup), (Dot_self_unit n n_unit).
  set (C := Vector3.Dot up n) in *.
  assert (Hk1 : 2 * c * (s / L) * 1 = 1).
  { replace (2 * c * (s / L) * 1) with (2 * s * c / L) by (field; lra).
    rewrite Hsin. field. lra. }
  assert (Hk0 : 1 - 2 * c * (s / L) * C
                - 2 * (s / L * (s / L)) * (1 * 1 - C * C) = Rabs C - C).
  { replace (1 * 1 - C * C) with (L * L) by lra.
    replace (2 * (s / L * (s / L)) * (L * L)) with (2 * s * s)
      by (field; lra).
    replace (2 * c * (s / L) * C) with (2 * s * c / L * C) by (field; lra).
    rewrite Hsin. replace (L / L) with 1 by (field; lra). lra. }
  rewrite Hk1, Hk0.
  destruct up as [x y z], n as [a b e].
  unfold Vector3.add, Vector3.scale; simpl. f_equal; ring.
Qed.

End Alignment.

Lemma Cross_self (v : Vector3) : Vector3.Cross v v = Vector3.Zero.
Proof. unfold Vector3.Cross, Vector3.Zero. f_equal; ring. Qed.

Lemma add_scale_0_r (v w : Vector3) :
  Vector3.add v (Vector3.scale w 0) = v.
Proof.
  destruct v as [x y z]. unfold Vector3.add, Vector3.scale; simpl.
  f_equal; ring.
Qed.

Lemma createAlignmentRotation_within_right_angle
    (q : Quaternion) (n : Vector3) :
  Quaternion.lengthSquared q = 1 ->
  Vector3.length n = 1 ->
  0 <= Vector3.Dot (Vehicle.worldUpOf q) n ->
  (0.0001 <= Vector3.length (Vector3.Cross (Vehicle.worldUpOf q) n) ->
   Vehicle.worldUpOf (Vehicle.createAlignmentRotation q n) = n) /\
  Vector3.length
    (Vector3.Cross
       (Vehicle.worldUpOf (Vehicle.createAlignmentRotation q n)) n)
  < 0.0001.
Proof.
  intros Hq Hn Hf.
  assert (Hal : 0.0001 <= Vector3.length
                            (Vector3.Cross (Vehicle.worldUpOf q) n) ->
                Vehicle.worldUpOf (Vehicle.createAlignmentRotation q n) = n).
  { intros Hm. rewrite aligned_up_general by assumption.
    rewrite Rabs_pos_eq by exact Hf.
    replace (Vector3.Dot (Vehicle.worldUpOf q) n
             - Vector3.Dot (Vehicle.worldUpOf q) n) with 0 by ring.
    apply add_scale_0_r. }
  split; [exact Hal |].
  destruct (Rlt_dec (Vector3.length (Vector3.Cross (Vehicle.worldUpOf q) n))
              0.0001) as [Hsmall | Hbig].
  - unfold Vehicle.createAlignmentRotation. cbv zeta.
    fold (Vehicle.worldUpOf q).
    destruct (Rlt_dec _ 0.0001) as [_ | N]; [exact Hsmall | contradiction].
  - rewrite Hal by lra. rewrite Cross_self, length_Zero. lra.
Qed.

(** X21. [createAlignmentRotation] does its job within a right angle: for a
    unit orientation and a unit surface normal that makes at most a right
    angle with the vehicle's up axis, the rotation it returns has its up
    axis exactly on the normal when the misalignment [|up x n|] is at least
    1e-4 (and is the given rotation, with a misalignment below 1e-4,
    otherwise); either way the misalignment afterwards is below 1e-4. *)
Theorem createAlignmentRotation_aligns_within_right_angle
    (q : Quaternion) (n : Vector3) :
  Quaternion.lengthSquared q = 1 ->
  Vector3.length n = 1 ->
  0 <= Vector3.Dot (Vehicle.worldUpOf q) n ->
  (0.0001 <= Vector3.length (Vector3.Cross (Vehicle.worldUpOf q) n) ->
   Vehicle.worldUpOf (Vehicle.createAlignmentRotation q n) = n) /\
  Vector3.length
    (Vector3.Cross
       (Vehicle.worldUpOf (Vehicle.createAlignmentRotation q n)) n)
  < 0.0001.
Proof. apply createAlignmentRotation_within_right_angle. Qed.

Lemma createAlignmentRotation_aligns_within_right_angle_witness :
  Quaternion.lengthSquared Quaternion.Identity = 1 /\
  Vector3.length (mkVector3 1 0 0) = 1 /\
  0 <= Vector3.Dot (Vehicle.worldUpOf Quaternion.Identity) (mkVector3 1 0 0) /\
  Vector3.length
    (Vector3.Cross
       (Vehicle.worldUpOf
          (Vehicle.createAlignmentRotation Quaternion.Identity
             (mkVector3 1 0 0)))
       (mkVector3 1 0 0))
  < 0.0001.
Proof.
  assert (Hq : Quaternion.lengthSquared Quaternion.Identity = 1)
    by apply lengthSquared_Identity.
  assert (Hn : Vector3.length (mkVector3 1 0 0) = 1)
    by (apply length_axis_x; lra).
  assert (Hf : 0 <= Vector3.Dot (Vehicle.worldUpOf Quaternion.Identity)
                      (mkVector3 1 0 0)).
  { unfold Vehicle.worldUpOf. rewrite rotateByQuaternionToRef_Identity.
    unfold Vector3.Dot; simpl. lra. }
  repeat split; try assumption.
  apply (proj2 (createAlignmentRotation_aligns_within_right_angle
                  Quaternion.Identity (mkVector3 1 0 0) Hq Hn Hf)).
Defined.

(** X22. Beyond a right angle the arcsine formulation does not align: for a
    unit orientation and a unit normal with [up . n < 0] and a misalignment
    of at least 1e-4, the up axis after [createAlignmentRotation] is
    [n - 2 (up . n) up], which is not the normal. *)
Theorem createAlignmentRotation_misses_beyond_right_angle
    (q : Quaternion) (n : Vector3) :
  Quaternion.lengthSquared q = 1 ->
  Vector3.length n = 1 ->
  Vector3.Dot (Vehicle.worldUpOf q) n < 0 ->
  0.0001 <= Vector3.length (Vector3.Cross (Vehicle.worldUpOf q) n) ->
  Vehicle.worldUpOf (Vehicle.createAlignmentRotation q n)
  = Vector3.add n
      (Vector3.scale (Vehicle.worldUpOf q)
         (-2 * Vector3.Dot (Vehicle.worldUpOf q) n)) /\
  Vehicle.worldUpOf (Vehicle.createAlignmentRotation q n) <> n.
Proof.
  intros Hq Hn Hneg Hm.
  assert (Heq : Vehicle.worldUpOf (Vehicle.createAlignmentRotation q n)
                = Vector3.add n
                    (Vector3.scale (Vehicle.worldUpOf q)
                       (-2 * Vector3.Dot (Vehicle.worldUpOf q) n))).
  { rewrite aligned_up_general by assumption.
    rewrite Rabs_left by exact Hneg. f_equal. f_equal. ring. }
  split; [exact Heq |].
  rewrite Heq. intros E.
  pose proof (up_unit q Hq) as Hup.
  set (u := Vehicle.worldUpOf q) in *.
  set (k := -2 * Vector3.Dot u n) in *.
  assert (Hk : 0 < k) by (unfold k; lra).
  assert (Hz : Vector3.scale u k = Vector3.Zero).
  { destruct n as [a b e], u as [x y z].
    unfold Vector3.add, Vector3.scale, Vector3.Zero in *; simpl in *.
    injection E as E1 E2 E3. f_equal; lra. }
  pose proof (length_scale u k (Rlt_le _ _ Hk)) as Hls.
  rewrite Hz, length_Zero, Hup in Hls. lra.
Qed.

Lemma createAlignmentRotation_misses_beyond_right_angle_witness :
  let n := mkVector3 0.6 (-0.8) 0 in
  Quaternion.lengthSquared Quaternion.Identity = 1 /\
  Vector3.length n = 1 /\
  Vector3.Dot (Vehicle.worldUpOf Quaternion.Identity) n < 0 /\
  0.0001 <= Vector3.length
              (Vector3.Cross (Vehicle.worldUpOf Quaternion.Identity) n) /\
  Vehicle.worldUpOf (Vehicle.createAlignmentRotation Quaternion.Identity n)
  <> n.
Proof.
  intros n.
  assert (Hq : Quaternion.lengthSquared Quaternion.Identity = 1)
    by apply lengthSquared_Identity.
  assert (Hup : Vehicle.worldUpOf Quaternion.Identity = mkVector3 0 1 0)
    by (unfold Vehicle.worldUpOf; apply rotateByQuaternionToRef_Identity).
  assert (Hn : Vector3.length n = 1).
  { unfold n, Vector3.length; simpl.
    replace (0.6 * 0.6 + -0.8 * -0.8 + 0 * 0) with 1 by lra. apply sqrt_1. }
  assert (Hd : Vector3.Dot (Vehicle.worldUpOf Quaternion.Identity) n < 0).
  { rewrite Hup. unfold n, Vector3.Dot; simpl. lra. }
  assert (Hm : 0.0001 <= Vector3.length
                 (Vector3.Cross (Vehicle.worldUpOf Quaternion.Identity) n)).
  { rewrite Hup.
    replace (Vector3.Cross (mkVector3 0 1 0) n) with (mkVector3 0 0 (-0.6))
      by (unfold n, Vector3.Cross; simpl; f_equal; lra).
    rewrite length_axis_z, Rabs_left by lra. lra. }
  repeat split; try assumption.
  apply (proj2 (createAlignmentRotation_misses_beyond_right_angle
                  Quaternion.Identity n Hq Hn Hd Hm)).
Defined.

(** X23. When the vehicle's up axis is parallel to the surface normal, in
    the same direction or in the opposite one, [createAlignmentRotation]
    returns the rotation it was given: an upside-down vehicle is not turned
    over. *)
Theorem createAlignmentRotation_skips_parallel
    (q : Quaternion) (n : Vector3) (k : R) :
  Vehicle.worldUpOf q = Vector3.scale n k ->
  Vehicle.createAlignmentRotation q n = q.
Proof.
  intros Hup. unfold Vehicle.createAlignmentRotation. cbv zeta.
  fold (Vehicle.worldUpOf q). rewrite Hup.
  replace (Vector3.Cross (Vector3.scale n k) n) with Vector3.Zero
    by (unfold Vector3.Cross, Vector3.scale, Vector3.Zero; simpl;
        f_equal; ring).
  rewrite length_Zero.
  destruct (Rlt_dec 0 0.0001) as [_ | N]; [reflexivity | lra].
Qed.

Lemma createAlignmentRotation_skips_parallel_witness :
  Vehicle.worldUpOf Quaternion.Identity
  = Vector3.scale (mkVector3 0 (-1) 0) (-1) /\
  Vehicle.createAlignmentRotation Quaternion.Identity (mkVector3 0 (-1) 0)
  = Quaternion.Identity.
Proof.
  assert (H : Vehicle.worldUpOf Quaternion.Identity
              = Vector3.scale (mkVector3 0 (-1) 0) (-1)).
  { unfold Vehicle.worldUpOf. rewrite rotateByQuaternionToRef_Identity.
    unfold Vector3.scale; simpl. f_equal; lra. }
  split; [exact H |].
  apply (createAlignmentRotation_skips_parallel Quaternion.Identity
           (mkVector3 0 (-1) 0) (-1) H).
Defined.

(** ** Planet mode: steering keeps the up axis *)

Lemma rotate_about_itself (v : Vector3) (angle : R) :
  rotateByQuaternionToRef v (Quaternion.RotationAxis v angle) = v.
Proof.
  destruct v as [x y z].
  unfold rotateByQuaternionToRef, Quaternion.RotationAxis; simpl.
  f_equal; ring.
Qed.

(** Steering turns the vehicle about its own up axis, which stays put. *)
Lemma steering_keeps_up (q : Quaternion) (angle : R) :
  Quaternion.lengthSquared q = 1 ->
  Vehicle.worldUpOf
    (Quaternion.multiply
       (Quaternion.RotationAxis (Vehicle.worldUpOf q) angle) q)
  = Vehicle.worldUpOf q.
Proof.
  intros Hq. unfold Vehicle.worldUpOf at 1.
  rewrite rotateByQuaternionToRef_multiply;
    [| apply RotationAxis_lengthSquared, worldUp_nonzero; exact Hq
     | exact Hq].
  apply rotate_about_itself.
Qed.

Lemma updatePositionPlanet_rotation (dt : R) (this : Vehicle) :
  velocity (Vehicle.updatePositionPlanet dt this) <> Vector3.Zero ->
  rotationQuaternion (Vehicle.updatePositionPlanet dt this)
  = Some
      (Vehicle.createAlignmentRotation
         (Quaternion.multiply
            (Quaternion.RotationAxis
               (Vehicle.worldUpOf (Vehicle.currentRotationOf this))
               (steerAngle this * dt))
            (Vehicle.currentRotationOf this))
         (Vector3.normalize
            (Vector3.subtract
               (position (Vehicle.updatePositionPlanet dt this))
               (planetCenter this)))).
Proof.
  unfold Vehicle.updatePositionPlanet. cbv zeta.
  destruct (Rlt_dec _ 0.1) as [Hslow | Hfast].
  - intros H. exfalso. apply H. reflexivity.
  - intros _. destruct (Rlt_dec 0.001 _); reflexivity.
Qed.

(** ** InputManager and the render loop *)

Lemma signed_unit_cases (b1 b2 : bool) :
  let x := if b2 then -1 else if b1 then 1 else 0 in
  (x = -1 \/ x = 0 \/ x = 1) /\ -1 <= x <= 1.
Proof. destruct b1, b2; cbv zeta; split; try lra; auto. Qed.

Lemma getInput_accelerate (keys : InputManager.Keys) :
  InputManager.accelerate (InputManager.getInput keys)
  = if InputManager.pressed keys "keys" || InputManager.pressed keys "arrowdown"
    then -1
    else if InputManager.pressed keys "keyw"
            || InputManager.pressed keys "arrowup"
         then 1 else 0.
Proof. reflexivity. Qed.

Lemma getInput_steer (keys : InputManager.Keys) :
  InputManager.steer (InputManager.getInput keys)
  = if InputManager.pressed keys "keyd"
       || InputManager.pressed keys "arrowright"
    then -1
    else if InputManager.pressed keys "keya"
            || InputManager.pressed keys "arrowleft"
         then 1 else 0.
Proof. reflexivity. Qed.

(** X25. Whatever the state of the keyboard, [getInput] returns controls
    that are each -1, 0 or 1 (so within the [[-1, 1]] the vehicle expects);
    reverse (S or ArrowDown) wins over forward, and right (D or ArrowRight)
    wins over left; and one turn of the render loop is the vehicle frame
    with exactly these controls and a time step of [getDeltaTime() / 1000]. *)
Theorem getInput_controls_are_signed_units
    (keys : InputManager.Keys) :
  let input := InputManager.getInput keys in
  (InputManager.accelerate input = -1 \/ InputManager.accelerate input = 0
   \/ InputManager.accelerate input = 1) /\
  (InputManager.steer input = -1 \/ InputManager.steer input = 0
   \/ InputManager.steer input = 1) /\
  -1 <= InputManager.accelerate input <= 1 /\
  -1 <= InputManager.steer input <= 1 /\
  (InputManager.pressed keys "keys" = true
   \/ InputManager.pressed keys "arrowdown" = true ->
   InputManager.accelerate input = -1) /\
  (InputManager.pressed keys "keyd" = true
   \/ InputManager.pressed keys "arrowright" = true ->
   InputManager.steer input = -1) /\
  (forall (ms : R) (vehicle : Vehicle),
     Game.renderLoopStep keys ms (Some vehicle)
     = Some (Vehicle.runFrame
               (Vehicle.mkFrame (InputManager.accelerate input)
                  (InputManager.steer input) (InputManager.handbrake input)
                  (ms / 1000))
               vehicle)).
Proof.
  intros input. subst input.
  rewrite getInput_accelerate, getInput_steer.
  pose proof (signed_unit_cases
                (InputManager.pressed keys "keyw"
                 || InputManager.pressed keys "arrowup")
                (InputManager.pressed keys "keys"
                 || InputManager.pressed keys "arrowdown")) as [Ha Ha'].
  pose proof (signed_unit_cases
                (InputManager.pressed keys "keya"
                 || InputManager.pressed keys "arrowleft")
                (InputManager.pressed keys "keyd"
                 || InputManager.pressed keys "arrowright")) as [Hs Hs'].
  cbv zeta in Ha, Ha', Hs, Hs'.
  split; [exact Ha | split; [exact Hs | split; [exact Ha' | split;
    [exact Hs' | split; [| split]]]]].
  - intros [H | H]; rewrite H; [reflexivity | rewrite orb_true_r; reflexivity].
  - intros [H | H]; rewrite H; [reflexivity | rewrite orb_true_r; reflexivity].
  - intros ms vehicle. reflexivity.
Qed.

Lemma getInput_controls_are_signed_units_witness :
  let keys :=
    InputManager.onKeyDown (InputManager.mkEventTarget "CANVAS" false) "KeyS"
      (InputManager.onKeyDown (InputManager.mkEventTarget "CANVAS" false)
         "KeyW" InputManager.noKeys) in
  InputManager.pressed keys "keys" = true /\
  InputManager.accelerate (InputManager.getInput keys) = -1.
Proof.
  intros keys.
  assert (H : InputManager.pressed keys "keys" = true) by reflexivity.
  split; [exact H |].
  destruct (getInput_controls_are_signed_units keys)
    as (_ & _ & _ & _ & Hrev & _).
  apply Hrev. left. exact H.
Defined.

Lemma pressed_setKey_same (keys : InputManager.Keys) (k : string) (b : bool) :
  InputManager.pressed (InputManager.setKey keys k b) k = b.
Proof.
  unfold InputManager.pressed, InputManager.setKey.
  rewrite String.eqb_refl. destruct b; reflexivity.
Qed.

Lemma pressed_setKey_other
    (keys : InputManager.Keys) (k k' : string) (b : bool) :
  k <> k' ->
  InputManager.pressed (InputManager.setKey keys k b) k'
  = InputManager.pressed keys k'.
Proof.
  intros Hne. unfold InputManager.pressed, InputManager.setKey.
  destruct (String.eqb_spec k k') as [E | _]; [contradiction | reflexivity].
Qed.

(** X26. Key events: a keydown whose target is an INPUT, a TEXTAREA or a
    content-editable element leaves the key state as it is; any other
    keydown marks the lower-cased code as pressed and a keyup (whatever its
    target) marks it as released, and neither touches any other code. *)
Theorem key_events_update_one_code
    (target : InputManager.EventTarget) (code : string)
    (keys : InputManager.Keys) :
  (InputManager.tagName target = "INPUT"%string
   \/ InputManager.tagName target = "TEXTAREA"%string
   \/ InputManager.isContentEditable target = true ->
   InputManager.onKeyDown target code keys = keys) /\
  (InputManager.tagName target <> "INPUT"%string ->
   InputManager.tagName target <> "TEXTAREA"%string ->
   InputManager.isContentEditable target = false ->
   InputManager.pressed (InputManager.onKeyDown target code keys)
     (InputManager.toLowerCase code) = true /\
   forall k : string,
     k <> InputManager.toLowerCase code ->
     InputManager.pressed (InputManager.onKeyDown target code keys) k
     = InputManager.pressed keys k) /\
  InputManager.pressed (InputManager.onKeyUp code keys)
    (InputManager.toLowerCase code) = false /\
  (forall k : string,
     k <> InputManager.toLowerCase code ->
     InputManager.pressed (InputManager.onKeyUp code keys) k
     = InputManager.pressed keys k).
Proof.
  split; [| split; [| split]].
  - intros H. unfold InputManager.onKeyDown.
    destruct H as [H | [H | H]]; rewrite H.
    + reflexivity.
    + rewrite orb_true_r. reflexivity.
    + rewrite orb_true_r. reflexivity.
  - intros H1 H2 H3. unfold InputManager.onKeyDown.
    apply String.eqb_neq in H1. apply String.eqb_neq in H2.
    rewrite H1, H2, H3. cbn [orb]. cbv zeta. split.
    + apply pressed_setKey_same.
    + intros k Hk. apply pressed_setKey_other.
      intros E. apply Hk. symmetry. exact E.
  - unfold InputManager.onKeyUp. apply pressed_setKey_same.
  - intros k Hk. unfold InputManager.onKeyUp. apply pressed_setKey_other.
    intros E. apply Hk. symmetry. exact E.
Qed.

Lemma key_events_update_one_code_witness :
  let target := InputManager.mkEventTarget "INPUT" false in
  InputManager.onKeyDown target "KeyW" InputManager.noKeys
  = InputManager.noKeys.
Proof.
  intros target.
  apply (proj1 (key_events_update_one_code target "KeyW" InputManager.noKeys)).
  left. reflexivity.
Defined.

(** X27. Pressing and releasing W on the canvas: while S and ArrowDown are
    up, the keydown of "KeyW" makes [getInput] accelerate 1, and the keyup
    of "KeyW" that follows brings it back to what ArrowUp alone asks
    for. *)
Theorem press_and_release_forward
    (target : InputManager.EventTarget) (keys : InputManager.Keys) :
  InputManager.tagName target <> "INPUT"%string ->
  InputManager.tagName target <> "TEXTAREA"%string ->
  InputManager.isContentEditable target = false ->
  InputManager.pressed keys "keys" = false ->
  InputManager.pressed keys "arrowdown" = false ->
  let down := InputManager.onKeyDown target "KeyW" keys in
  let up := InputManager.onKeyUp "KeyW" down in
  InputManager.accelerate (InputManager.getInput down) = 1 /\
  InputManager.accelerate (InputManager.getInput up)
  = if InputManager.pressed keys "arrowup" then 1 else 0.
Proof.
  intros H1 H2 H3 Hs Hd down up.
  assert (Hdown : forall k : string,
            InputManager.pressed down k
            = if String.eqb "keyw" k then true else InputManager.pressed keys k).
  { intros k. subst down. unfold InputManager.onKeyDown.
    apply String.eqb_neq in H1. apply String.eqb_neq in H2.
    rewrite H1, H2, H3. cbn [orb]. cbv zeta.
    change (InputManager.toLowerCase "KeyW") with "keyw"%string.
    unfold InputManager.pressed, InputManager.setKey.
    destruct (String.eqb "keyw" k); reflexivity. }
  assert (Hup : forall k : string,
            InputManager.pressed up k
            = if String.eqb "keyw" k then false else InputManager.pressed keys k).
  { intros k. subst up. unfold InputManager.onKeyUp.
    change (InputManager.toLowerCase "KeyW") with "keyw"%string.
    unfold InputManager.pressed at 1. unfold InputManager.setKey.
    destruct (String.eqb "keyw" k) eqn:E; [reflexivity |].
    fold (InputManager.pressed down k). rewrite Hdown, E. reflexivity. }
  rewrite !getInput_accelerate, !Hdown, !Hup. cbn [String.eqb Ascii.eqb Bool.eqb].
  rewrite Hs, Hd. cbn [orb]. split; reflexivity.
Qed.

Lemma press_and_release_forward_witness :
  let target := InputManager.mkEventTarget "CANVAS" false in
  InputManager.accelerate
    (InputManager.getInput
       (InputManager.onKeyDown target "KeyW" InputManager.noKeys)) = 1.
Proof.
  intros target.
  apply (proj1 (press_and_release_forward target InputManager.noKeys
                  ltac:(discriminate) ltac:(discriminate)
                  eq_refl eq_refl eq_refl)).
Defined.

(** ** The follow camera *)

Lemma lerpSpeedOf_bounds (speed : R) :
  0.02 <= Game.lerpSpeedOf speed <= 0.1.
Proof.
  unfold Game.lerpSpeedOf. cbv zeta.
  assert (H0 : 0 <= Rabs speed / 3).
  { pose proof (Rabs_pos speed). unfold Rdiv. nra. }
  assert (Hlo : 0 <= Rmin 1 (Rabs speed / 3)) by (apply Rmin_glb; lra).
  pose proof (Rmin_l 1 (Rabs speed / 3)) as Hhi.
  lra.
Qed.

Lemma Lerp_gap (a b : Vector3) (k : R) :
  0 <= 1 - k ->
  Vector3.Distance (Vector3.Lerp a b k) b = (1 - k) * Vector3.Distance a b.
Proof.
  intros Hk. unfold Vector3.Distance.
  rewrite <- length_scale by exact Hk.
  apply length_eq_of_sqr.
  unfold Vector3.Lerp, Vector3.subtract, Vector3.scale; simpl. ring.
Qed.

Lemma sandwich_Dot (q : Quaternion) (v w : Vector3) :
  Vector3.Dot (sandwich q v) (sandwich q w)
  = Quaternion.lengthSquared q * Quaternion.lengthSquared q
    * Vector3.Dot v w.
Proof.
  destruct v as [x y z], w as [a b c], q as [e f g h].
  unfold sandwich, Quaternion.lengthSquared, Vector3.add, Vector3.scale,
    Vector3.Cross, Vector3.Dot; simpl.
  ring.
Qed.

(** Rotating by a unit quaternion keeps dot products. *)
Lemma rotateByQuaternionToRef_Dot (q : Quaternion) (v w : Vector3) :
  Quaternion.lengthSquared q = 1 ->
  Vector3.Dot (rotateByQuaternionToRef v q) (rotateByQuaternionToRef w q)
  = Vector3.Dot v w.
Proof.
  intros Hq. rewrite !rotateByQuaternionToRef_sandwich by exact Hq.
  rewrite sandwich_Dot, Hq. ring.
Qed.

Lemma cameraTarget_offset_sqr (p : Vector3) (q : Quaternion) :
  Quaternion.lengthSquared q = 1 ->
  Vector3.Distance (Game.cameraTarget p q) p
  * Vector3.Distance (Game.cameraTarget p q) p
  = 13 * 13 + 3.5 * 3.5.
Proof.
  intros Hq. unfold Vector3.Distance. rewrite length_sqr.
  unfold Game.cameraTarget. cbv zeta.
  set (up := rotateByQuaternionToRef (mkVector3 0 1 0) q).
  set (fwd := rotateByQuaternionToRef (mkVector3 0 0 1) q).
  assert (Huu : Vector3.Dot up up = 1).
  { unfold up. rewrite rotateByQuaternionToRef_Dot by exact Hq.
    unfold Vector3.Dot; simpl. ring. }
  assert (Hff : Vector3.Dot fwd fwd = 1).
  { unfold fwd. rewrite rotateByQuaternionToRef_Dot by exact Hq.
    unfold Vector3.Dot; simpl. ring. }
  assert (Huf : Vector3.Dot up fwd = 0).
  { unfold up, fwd. rewrite rotateByQuaternionToRef_Dot by exact Hq.
    unfold Vector3.Dot; simpl. ring. }
  assert (Hbl : Vector3.length (Vector3.scale fwd (-1)) = 1).
  { rewrite <- sqrt_1. unfold Vector3.length. f_equal.
    rewrite <- Hff. unfold Vector3.Dot, Vector3.scale; simpl. ring. }
  assert (Hb : Vector3.normalize (Vector3.scale fwd (-1))
               = Vector3.scale fwd (-1)).
  { unfold Vector3.normalize, Vector3.normalizeFromLength. rewrite Hbl.
    destruct (Req_dec_T 1 0); [reflexivity |].
    destruct (Req_dec_T 1 1); [reflexivity | contradiction]. }
  rewrite Hb.
  unfold Vector3.Dot in Huu, Hff, Huf.
  destruct up as [ux uy uz], fwd as [fx fy fz], p as [px py pz].
  unfold Vector3.subtract, Vector3.add, Vector3.scale in *; simpl in *.
  nra.
Qed.

(** X28. The follow camera closes a fixed share of the gap to its target
    each frame: the interpolation factor lies in [[0.02, 0.1]] whatever the
    speed, the new distance to the target is the old one times
    [1 - factor], hence at most 0.98 of it; and for a unit orientation the
    target sits at distance [sqrt (13^2 + 3.5^2)] from the vehicle. *)
Theorem follow_camera_closes_gap
    (activePosition : Vector3) (activeRotation : Quaternion) (speed : R)
    (cameraPosition : Vector3) :
  let target := Game.cameraTarget activePosition activeRotation in
  let camera' :=
    Game.updateFollowingCamera activePosition activeRotation speed
      cameraPosition in
  0.02 <= Game.lerpSpeedOf speed <= 0.1 /\
  Vector3.Distance camera' target
  = (1 - Game.lerpSpeedOf speed) * Vector3.Distance cameraPosition target /\
  Vector3.Distance camera' target
  <= 0.98 * Vector3.Distance cameraPosition target /\
  (Quaternion.lengthSquared activeRotation = 1 ->
   Vector3.Distance target activePosition = sqrt (13 * 13 + 3.5 * 3.5)).
Proof.
  intros target camera'.
  pose proof (lerpSpeedOf_bounds speed) as Hk.
  assert (Hgap : Vector3.Distance camera' target
                 = (1 - Game.lerpSpeedOf speed)
                   * Vector3.Distance cameraPosition target).
  { subst camera'. unfold Game.updateFollowingCamera. cbv zeta.
    fold target. apply Lerp_gap. lra. }
  split; [exact Hk | split; [exact Hgap | split]].
  - rewrite Hgap.
    assert (0 <= Vector3.Distance cameraPosition target)
      by apply length_nonneg.
    nra.
  - intros Hq. symmetry. apply sqrt_lem_1.
    + lra.
    + apply length_nonneg.
    + apply cameraTarget_offset_sqr. exact Hq.
Qed.

Lemma follow_camera_closes_gap_witness :
  Quaternion.lengthSquared Quaternion.Identity = 1 /\
  Vector3.Distance
    (Game.cameraTarget (mkVector3 0 0 0) Quaternion.Identity)
    (mkVector3 0 0 0)
  = sqrt (13 * 13 + 3.5 * 3.5).
Proof.
  assert (Hq : Quaternion.lengthSquared Quaternion.Identity = 1)
    by apply lengthSquared_Identity.
  split; [exact Hq |].
  apply (proj2 (proj2 (proj2 (follow_camera_closes_gap (mkVector3 0 0 0)
                                Quaternion.Identity 0 (mkVector3 0 10 (-15)))))).
  exact Hq.
Defined.

(** ** Speed range and driving velocity *)

(** X29. A frame without handbrake brings the speed into
    [[-maxSpeed * 0.5, maxSpeed]] whatever it was before (after
    [setVelocity], say), for a [maxSpeed] that is not negative, a friction
    in (0, 1] and a time step that is not negative. *)
Theorem driven_frame_restores_speed_range
    (a s dt : R) (this : Vehicle) :
  0 <= maxSpeed this ->
  0 < friction this <= 1 ->
  0 <= dt ->
  Vehicle.speedInRange
    (Vehicle.update dt (Vehicle.setInput a s false this)).
Proof.
  intros HM Hf Hdt. unfold Vehicle.speedInRange.
  rewrite update_maxSpeed, update_speed,
    updateMovement_speed_drive by reflexivity. simpl.
  pose proof (Math_pow_unit_interval (friction this) dt Hf Hdt) as Hp.
  pose proof (clamp_in_range (maxSpeed this)
                (speed this + a * acceleration this * dt) HM) as Hc.
  nra.
Qed.

Lemma driven_frame_restores_speed_range_witness :
  let car :=
    Vehicle.setVelocity (mkVector3 20 0 0) (Examples.cruisingCar 0.5) in
  0 <= maxSpeed car /\ 0 < friction car <= 1 /\ 0 <= 0.016 /\
  Vehicle.speedInRange (Vehicle.update 0.016 (Vehicle.setInput 1 0 false car)).
Proof.
  intros car.
  assert (HM : 0 <= maxSpeed car) by (simpl; lra).
  assert (Hf : 0 < friction car <= 1) by (simpl; lra).
  assert (Hdt : 0 <= 0.016) by lra.
  split; [exact HM | split; [exact Hf | split; [exact Hdt |]]].
  apply (driven_frame_restores_speed_range 1 0 0.016 car HM Hf Hdt).
Defined.

Lemma length_scale_abs (v : Vector3) (k : R) :
  Vector3.length (Vector3.scale v k) = Rabs k * Vector3.length v.
Proof.
  rewrite <- (length_scale v (Rabs k)) by apply Rabs_pos.
  apply length_eq_of_sqr. unfold Vector3.scale; simpl.
  assert (Hk : Rabs k * Rabs k = k * k).
  { rewrite <- Rabs_mult. apply Rabs_pos_eq. nra. }
  replace (vx v * Rabs k * (vx v * Rabs k) + vy v * Rabs k * (vy v * Rabs k)
           + vz v * Rabs k * (vz v * Rabs k))
    with ((Rabs k * Rabs k) * (vx v * vx v + vy v * vy v + vz v * vz v))
    by ring.
  rewrite Hk. ring.
Qed.

Lemma add_Zero_r (v : Vector3) : Vector3.add v Vector3.Zero = v.
Proof.
  destruct v as [x y z]. unfold Vector3.add, Vector3.Zero; simpl.
  f_equal; ring.
Qed.

Lemma updatePosition_velocity_without_momentum (dt : R) (this : Vehicle) :
  momentum this = Vector3.Zero ->
  velocity (Vehicle.updatePosition dt this) = Vector3.Zero \/
  velocity (Vehicle.updatePosition dt this)
  = Vector3.scale (Vehicle.getDirection this) (speed this).
Proof.
  intros Hm.
  assert (Hmv :
    CollisionPhysics.momentumToVelocity (collisionPhysics this)
      (CollisionPhysics.applyMomentumFriction (collisionPhysics this)
         (momentum this) dt) (mass this) = Vector3.Zero)
    by (rewrite Hm, applyMomentumFriction_Zero; apply momentumToVelocity_Zero).
  unfold Vehicle.getDirection. cbv zeta.
  unfold Vehicle.updatePosition. destruct (surfaceType this).
  - unfold Vehicle.updatePositionPlanet. cbv zeta.
    cbn [velocity speed mass momentum collisionPhysics Vehicle.set_velocity
         Vehicle.updateMomentum Vehicle.set_momentum].
    destruct (Rlt_dec _ 0.1); [left; reflexivity | right].
    destruct (Rlt_dec 0.001 _);
      cbn [velocity Vehicle.set_velocity Vehicle.set_position
           Vehicle.set_rotationQuaternion];
      rewrite Hmv, add_Zero_r; reflexivity.
  - unfold Vehicle.updatePositionGround. cbv zeta.
    cbn [velocity speed mass momentum collisionPhysics Vehicle.set_velocity
         Vehicle.updateMomentum Vehicle.set_momentum].
    destruct (Rlt_dec _ 0.1); [left; reflexivity | right].
    cbn [velocity Vehicle.set_velocity Vehicle.set_position
         Vehicle.set_rotationQuaternion].
    rewrite Hmv, add_Zero_r. reflexivity.
Qed.

(** X30. With no collision momentum and a unit orientation, the velocity a
    frame leaves behind is either zero or the heading before the frame
    scaled by the new speed, so its magnitude is exactly [|speed|]; this
    holds in ground and in planet mode. *)
Theorem velocity_without_momentum_is_heading_times_speed
    (dt : R) (this : Vehicle) :
  momentum this = Vector3.Zero ->
  Quaternion.lengthSquared (Vehicle.currentRotationOf this) = 1 ->
  let this' := Vehicle.update dt this in
  velocity this' = Vector3.Zero \/
  (velocity this' = Vector3.scale (Vehicle.getDirection this) (speed this') /\
   Vector3.length (velocity this') = Rabs (speed this')).
Proof.
  intros Hm Hq this'. subst this'. rewrite update_speed.
  unfold Vehicle.update.
  destruct (updateMovement_frame dt this) as (_ & Hm' & _).
  destruct (updateMovement_geometry dt this) as (_ & Hrq & _).
  assert (Hdir : Vehicle.getDirection (Vehicle.updateMovement dt this)
                 = Vehicle.getDirection this).
  { unfold Vehicle.getDirection, Vehicle.currentRotationOf. rewrite Hrq.
    reflexivity. }
  destruct (updatePosition_velocity_without_momentum dt
              (Vehicle.updateMovement dt this)) as [E | E];
    [rewrite Hm'; exact Hm | left; exact E | right].
  rewrite Hdir in E. split; [exact E |].
  rewrite E, length_scale_abs.
  unfold Vehicle.getDirection. cbv zeta.
  rewrite rotateByQuaternionToRef_unit_length by exact Hq.
  replace (Vector3.length (mkVector3 0 0 1)) with 1; [ring |].
  symmetry. rewrite length_axis_z. apply Rabs_pos_eq. lra.
Qed.

Lemma velocity_without_momentum_is_heading_times_speed_witness :
  let car := Examples.cruisingCar 0.5 in
  momentum car = Vector3.Zero /\
  Quaternion.lengthSquared (Vehicle.currentRotationOf car) = 1 /\
  (velocity (Vehicle.update 1 car) = Vector3.Zero \/
   (velocity (Vehicle.update 1 car)
    = Vector3.scale (Vehicle.getDirection car)
        (speed (Vehicle.update 1 car)) /\
    Vector3.length (velocity (Vehicle.update 1 car))
    = Rabs (speed (Vehicle.update 1 car)))).
Proof.
  intros car.
  assert (Hm : momentum car = Vector3.Zero) by reflexivity.
  assert (Hq : Quaternion.lengthSquared (Vehicle.currentRotationOf car) = 1)
    by apply lengthSquared_Identity.
  repeat split; try assumption.
  apply (velocity_without_momentum_is_heading_times_speed 1 car Hm Hq).
Defined.

(** * Frames that leave a non-finite value *)

(** ** Rotations about a proper axis keep lengths *)

Lemma rotateByQuaternionToRef_RotationAxis_length
    (v axis : Vector3) (angle : R) :
  axis <> Vector3.Zero ->
  Vector3.length (rotateByQuaternionToRef v (Quaternion.RotationAxis axis angle))
  = Vector3.length v.
Proof.
  intros Hax. apply rotateByQuaternionToRef_unit_length.
  apply RotationAxis_lengthSquared, Hax.
Qed.

Lemma Distance_add_center_rotated (c p axis : Vector3) (angle : R) :
  axis <> Vector3.Zero ->
  Vector3.Distance
    (Vector3.add c
       (rotateByQuaternionToRef (Vector3.subtract p c)
          (Quaternion.RotationAxis axis angle)))
    c
  = Vector3.Distance p c.
Proof.
  intros Hax.
  rewrite Distance_add_center, rotateByQuaternionToRef_RotationAxis_length
    by exact Hax.
  reflexivity.
Qed.

(** ** The finite outcome is the one of the real-number reading *)

Lemma Checked_bind_Some {A B : Type} (a : option A) (k : A -> option B)
    (b : B) :
  Checked.bind a k = Some b -> exists x, a = Some x /\ k x = Some b.
Proof.
  destruct a as [x |]; simpl; intros H; [| discriminate H].
  exists x. split; [reflexivity | exact H].
Qed.

Lemma Checked_updateMovement_geometry (dt : R) (this m : Vehicle) :
  Checked.updateMovement dt this = Some m ->
  position m = position this /\
  rotationQuaternion m = rotationQuaternion this /\
  surfaceType m = surfaceType this /\
  planetCenter m = planetCenter this /\
  planetRadius m = planetRadius this /\
  heightOffset m = heightOffset this /\
  friction m = friction this.
Proof.
  unfold Checked.updateMovement. cbv zeta. intros H.
  apply Checked_bind_Some in H. destruct H as (s & Hs & Hm).
  assert (Hgeo : position s = position this /\
                 rotationQuaternion s = rotationQuaternion this /\
                 surfaceType s = surfaceType this /\
                 planetCenter s = planetCenter this /\
                 planetRadius s = planetRadius this /\
                 heightOffset s = heightOffset this /\
                 friction s = friction this).
  { destruct (inputHandbrake this).
    - destruct (Rle_dec _ _); inversion Hs; repeat split.
    - apply Checked_bind_Some in Hs. destruct Hs as (decay & _ & Hs).
      inversion Hs. repeat split. }
  destruct Hgeo as (H1 & H2 & H3 & H4 & H5 & H6 & H7).
  destruct (Rlt_dec _ 0.5); inversion Hm; cbn; repeat split; assumption.
Qed.

Lemma Checked_Math_pow_positive (b e : R) :
  0 < b -> Checked.Math_pow b e = Some (Math_pow b e).
Proof.
  intros Hb. unfold Checked.Math_pow.
  destruct (Rlt_dec 0 b) as [_ | N]; [reflexivity | contradiction].
Qed.

Lemma Checked_updateMovement_positive_friction (dt : R) (this : Vehicle) :
  0 < friction this ->
  Checked.updateMovement dt this = Some (Vehicle.updateMovement dt this).
Proof.
  intros Hf. unfold Checked.updateMovement, Vehicle.updateMovement. cbv zeta.
  destruct (inputHandbrake this).
  - destruct (Rle_dec _ _); simpl; destruct (Rlt_dec _ 0.5); reflexivity.
  - cbn [friction Vehicle.set_speed].
    rewrite Checked_Math_pow_positive by exact Hf. simpl.
    destruct (Rlt_dec _ 0.5); reflexivity.
Qed.

Lemma Checked_updatePositionPlanet_Some (dt : R) (this v : Vehicle) :
  Checked.updatePositionPlanet dt this = Some v ->
  v = Vehicle.updatePositionPlanet dt this.
Proof.
  unfold Checked.updatePositionPlanet, Vehicle.updatePositionPlanet.
  cbv zeta.
  destruct (Rlt_dec _ 0.1) as [Hslow | Hfast].
  - intros H. inversion H. reflexivity.
  - unfold Checked.RotationAxis, Checked.div.
    destruct (Req_dec_T _ 0) as [| Hup]; [discriminate |].
    cbn [Checked.bind].
    destruct (Req_dec_T _ 0) as [| Hr]; [discriminate |].
    cbn [Checked.bind].
    destruct (Req_dec_T _ 0) as [| Hax]; [discriminate |].
    cbn [Checked.bind].
    intros H. inversion H. reflexivity.
Qed.

Lemma Checked_updatePosition_Some (dt : R) (this v : Vehicle) :
  Checked.updatePosition dt this = Some v ->
  v = Vehicle.updatePosition dt this.
Proof.
  unfold Checked.updatePosition, Vehicle.updatePosition.
  destruct (surfaceType this).
  - apply Checked_updatePositionPlanet_Some.
  - unfold Checked.updatePositionGround. intros H. inversion H. reflexivity.
Qed.

(** A planet frame is finite when the vehicle's up axis, the planet radius
    and the movement axis are not zero. *)
Lemma Checked_updatePositionPlanet_finite (dt : R) (this : Vehicle) :
  Vehicle.worldUpOf (Vehicle.currentRotationOf this) <> Vector3.Zero ->
  planetRadius this <> 0 ->
  Checked.rotationAxisOf this <> Vector3.Zero ->
  Checked.updatePositionPlanet dt this
  = Some (Vehicle.updatePositionPlanet dt this).
Proof.
  intros Hup Hr Hax.
  unfold Checked.updatePositionPlanet, Vehicle.updatePositionPlanet.
  cbv zeta.
  destruct (Rlt_dec _ 0.1) as [Hslow | Hfast]; [reflexivity |].
  unfold Checked.RotationAxis, Checked.div.
  destruct (Req_dec_T _ 0) as [E | _].
  { exfalso. apply Hup. apply length_eq_0. exact E. }
  cbn [Checked.bind].
  destruct (Req_dec_T _ 0) as [E | _].
  { exfalso. apply Hr. exact E. }
  cbn [Checked.bind].
  destruct (Req_dec_T _ 0) as [E | _].
  { exfalso. apply Hax. apply length_eq_0. exact E. }
  reflexivity.
Qed.

(** A planet frame that moves the vehicle about a zero axis is not finite. *)
Lemma Checked_updatePositionPlanet_zero_axis (dt : R) (this : Vehicle) :
  0.1 <= Vector3.length (Checked.frameVelocity dt this) ->
  Checked.rotationAxisOf this = Vector3.Zero ->
  Checked.updatePositionPlanet dt this = None.
Proof.
  intros Hfast Hax.
  unfold Checked.updatePositionPlanet. cbv zeta.
  destruct (Rlt_dec _ 0.1) as [Hslow | _].
  { exfalso. unfold Checked.frameVelocity in Hfast. cbv zeta in Hfast.
    cbn [velocity Vehicle.set_velocity] in Hslow. lra. }
  unfold Checked.RotationAxis, Checked.div.
  destruct (Req_dec_T _ 0) as [| _]; [reflexivity |].
  cbn [Checked.bind].
  destruct (Req_dec_T _ 0) as [| _]; [reflexivity |].
  cbn [Checked.bind].
  destruct (Req_dec_T _ 0) as [| N]; [reflexivity |].
  exfalso. apply N.
  change (Vector3.length (Checked.rotationAxisOf this) = 0).
  rewrite Hax. apply length_Zero.
Qed.

(** ** The re-projection onto the sphere *)

Lemma rotationAxisOf_at_center (this : Vehicle) :
  position this = planetCenter this ->
  Checked.rotationAxisOf this = Vector3.Zero.
Proof.
  intros Hp. unfold Checked.rotationAxisOf. cbv zeta. rewrite Hp.
  replace (Vector3.subtract (planetCenter this) (planetCenter this))
    with Vector3.Zero
    by (unfold Vector3.subtract, Vector3.Zero; f_equal; ring).
  rewrite normalize_Zero.
  match goal with
  | |- Vector3.normalize (Vector3.Cross Vector3.Zero ?t) = _ =>
      replace (Vector3.Cross Vector3.Zero t) with Vector3.Zero
        by (unfold Vector3.Cross, Vector3.Zero; simpl; f_equal; ring)
  end.
  apply normalize_Zero.
Qed.

(** What the re-projection buys: a finite planet frame that moves the
    vehicle ends within 1e-3 of the target distance from the planet's
    centre, wherever the turn of the position has left it. *)
Lemma Checked_updatePositionPlanet_corrects (dt : R) (this v : Vehicle) :
  Checked.updatePositionPlanet dt this = Some v ->
  0 <= planetRadius this + heightOffset this ->
  velocity v <> Vector3.Zero ->
  Vehicle.radialError v <= 0.001.
Proof.
  intros Hrun Ht Hv.
  assert (Hax : Checked.rotationAxisOf this <> Vector3.Zero).
  { intros E. revert Hrun.
    unfold Checked.updatePositionPlanet. cbv zeta.
    destruct (Rlt_dec _ 0.1) as [Hslow | Hfast].
    - intros H. inversion H. subst v. apply Hv. reflexivity.
    - unfold Checked.RotationAxis, Checked.div.
      destruct (Req_dec_T _ 0) as [| _]; [discriminate |].
      cbn [Checked.bind].
      destruct (Req_dec_T _ 0) as [| _]; [discriminate |].
      cbn [Checked.bind].
      destruct (Req_dec_T _ 0) as [| N]; [discriminate |].
      exfalso. apply N.
      change (Vector3.length (Checked.rotationAxisOf this) = 0).
      rewrite E. apply length_Zero. }
  assert (Hpc : position this <> planetCenter this).
  { intros E. apply Hax, rotationAxisOf_at_center, E. }
  apply Checked_updatePositionPlanet_Some in Hrun. subst v.
  unfold Vehicle.radialError.
  destruct (updatePositionPlanet_frame dt this)
    as (_ & _ & _ & _ & _ & _ & _ & _ & _ & _ & _ & HR & HC & _ & HH & _).
  rewrite HR, HC, HH. clear HR HC HH.
  revert Hv. unfold Vehicle.updatePositionPlanet. cbv zeta.
  destruct (Rlt_dec _ 0.1) as [Hslow | Hfast].
  { intros H. exfalso. apply H. reflexivity. }
  intros _.
  cbn [position planetCenter planetRadius heightOffset
       Vehicle.set_position Vehicle.set_velocity Vehicle.set_rotationQuaternion
       Vehicle.updateMomentum Vehicle.set_momentum].
  destruct (Rlt_dec 0.001 _) as [Hdrift | Hok].
  - cbn [position Vehicle.set_position].
    rewrite reprojection_distance.
    + replace (planetRadius this + heightOffset this
               - (planetRadius this + heightOffset this)) with 0 by ring.
      rewrite Rabs_R0. lra.
    + exact Ht.
    + intros E.
      pose proof (Distance_add_center_rotated (planetCenter this)
                    (position this) (Checked.rotationAxisOf this)
                    (speed this * dt / planetRadius this) Hax) as Hd.
      assert (E' : Vector3.add (planetCenter this)
                     (rotateByQuaternionToRef
                        (Vector3.subtract (position this) (planetCenter this))
                        (Quaternion.RotationAxis (Checked.rotationAxisOf this)
                           (speed this * dt / planetRadius this)))
                   = planetCenter this) by exact E.
      rewrite E' in Hd. unfold Vector3.Distance in Hd.
      replace (Vector3.subtract (planetCenter this) (planetCenter this))
        with Vector3.Zero in Hd
        by (unfold Vector3.subtract, Vector3.Zero; f_equal; ring).
      rewrite length_Zero in Hd.
      apply Hpc, subtract_eq_Zero, length_eq_0. symmetry. exact Hd.
  - cbn [position Vehicle.set_position]. lra.
Qed.

(** ** A vehicle created with its heading along the surface normal *)

Lemma normalize_along_z (a : R) :
  0 < a -> Vector3.normalize (mkVector3 0 0 a) = mkVector3 0 0 1.
Proof.
  intros Ha. rewrite normalize_nonzero.
  - rewrite length_axis_z, Rabs_pos_eq by lra.
    unfold Vector3.scale; simpl. f_equal; field; lra.
  - intros E. apply (f_equal vz) in E. simpl in E. lra.
Qed.

Lemma spawned_eq :
  Examples.spawned
  = {| rotationQuaternion := Some Quaternion.Identity;
       position := mkVector3 0 0 1;
       speed := 0;
       velocity := Vector3.Zero;
       momentum := Vector3.Zero;
       mass := 1000;
       maxSpeed := 10;
       acceleration := 5;
       friction := 0.5;
       steerAngle := 0;
       maxSteerAngle := 1;
       inputAccelerate := 0;
       inputSteer := 0;
       inputHandbrake := false;
       surfaceType := planet;
       planetRadius := 100;
       planetCenter := mkVector3 0 0 (-100);
       groundHeight := 0;
       heightOffset := 1;
       collisionPhysics :=
         CollisionPhysics.constructor CollisionPhysics.emptyConfig |}.
Proof.
  assert (Hsub : Vector3.subtract (mkVector3 0 0 0) (mkVector3 0 0 (-100))
                 = mkVector3 0 0 100)
    by (unfold Vector3.subtract; simpl; f_equal; ring).
  assert (HR : Vector3.Distance (mkVector3 0 0 0) (mkVector3 0 0 (-100)) = 100).
  { unfold Vector3.Distance. rewrite Hsub, length_axis_z.
    apply Rabs_pos_eq. lra. }
  unfold Examples.spawned, Vehicle.create, Examples.spawnScene,
    Vehicle.detectSurface, Vehicle.positionOnGround, Vehicle.constructor,
    Examples.spawnConfig.
  cbn [Vehicle.planetMesh Vehicle.groundMesh].
  cbv zeta.
  unfold Vector3.clone.
  cbn [rotationQuaternion position speed velocity momentum mass maxSpeed
       acceleration friction steerAngle maxSteerAngle inputAccelerate
       inputSteer inputHandbrake surfaceType planetRadius planetCenter
       groundHeight heightOffset collisionPhysics
       Vehicle.set_rotationQuaternion Vehicle.set_position
       Vehicle.set_surfaceType Vehicle.set_planetRadius
       Vehicle.set_planetCenter Vehicle.cfg_maxSpeed Vehicle.cfg_acceleration
       Vehicle.cfg_friction Vehicle.cfg_maxSteerAngle Vehicle.cfg_heightOffset
       Vehicle.cfg_mass CollisionPhysics.orDefault].
  rewrite HR, Hsub, normalize_along_z by lra.
  replace (Vector3.add (mkVector3 0 0 (-100))
             (Vector3.scale (mkVector3 0 0 1) (100 + 1)))
    with (mkVector3 0 0 1)
    by (unfold Vector3.add, Vector3.scale; simpl; f_equal; ring).
  reflexivity.
Qed.

Lemma spawned_radialError : Vehicle.radialError Examples.spawned = 0.
Proof.
  rewrite spawned_eq. unfold Vehicle.radialError, Vector3.Distance.
  cbn [position planetCenter planetRadius heightOffset].
  replace (Vector3.subtract (mkVector3 0 0 1) (mkVector3 0 0 (-100)))
    with (mkVector3 0 0 101)
    by (unfold Vector3.subtract; simpl; f_equal; ring).
  rewrite length_axis_z, (Rabs_pos_eq 101) by lra.
  replace (101 - (100 + 1)) with 0 by ring. apply Rabs_R0.
Qed.

(** The first driven frame of [Examples.spawned]: full throttle for one
    second. *)
Lemma spawned_frame_speed :
  speed (Vehicle.updateMovement 1 (Vehicle.setInput 1 0 false Examples.spawned))
  = 2.5.
Proof.
  rewrite updateMovement_speed_drive by reflexivity.
  rewrite spawned_eq.
  cbn [Vehicle.setInput Vehicle.set_input maxSpeed speed inputAccelerate
       acceleration friction].
  unfold Math_pow. rewrite Rpower_1 by lra.
  replace (0 + 1 * 5 * 1) with 5 by ring.
  rewrite Rmin_right by lra. rewrite Rmax_right by lra. lra.
Qed.

Lemma spawned_frame_velocity :
  Checked.frameVelocity 1
    (Vehicle.updateMovement 1 (Vehicle.setInput 1 0 false Examples.spawned))
  = mkVector3 0 0 2.5.
Proof.
  unfold Checked.frameVelocity. cbv zeta.
  cbn [speed mass momentum collisionPhysics Vehicle.updateMomentum
       Vehicle.set_momentum].
  destruct (updateMovement_frame 1
              (Vehicle.setInput 1 0 false Examples.spawned))
    as (_ & Hmo & Hma & Hcp).
  destruct (updateMovement_geometry 1
              (Vehicle.setInput 1 0 false Examples.spawned))
    as (_ & Hq & _).
  unfold Vehicle.currentRotationOf.
  cbn [rotationQuaternion Vehicle.updateMomentum Vehicle.set_momentum].
  rewrite spawned_frame_speed, Hmo, Hma, Hcp, Hq.
  rewrite spawned_eq.
  cbn [Vehicle.setInput Vehicle.set_input momentum mass collisionPhysics
       rotationQuaternion].
  rewrite applyMomentumFriction_Zero, momentumToVelocity_Zero,
    rotateByQuaternionToRef_Identity.
  unfold Vector3.add, Vector3.scale, Vector3.Zero; simpl. f_equal; ring.
Qed.

Lemma spawned_frame_axis :
  Checked.rotationAxisOf
    (Vehicle.updateMovement 1 (Vehicle.setInput 1 0 false Examples.spawned))
  = Vector3.Zero.
Proof.
  unfold Checked.rotationAxisOf. cbv zeta.
  destruct (updateMovement_geometry 1
              (Vehicle.setInput 1 0 false Examples.spawned))
    as (Hp & Hq & _ & Hc & _).
  unfold Vehicle.currentRotationOf. rewrite Hp, Hq, Hc.
  rewrite spawned_eq.
  cbn [Vehicle.setInput Vehicle.set_input position planetCenter
       rotationQuaternion].
  rewrite rotateByQuaternionToRef_Identity.
  replace (Vector3.subtract (mkVector3 0 0 1) (mkVector3 0 0 (-100)))
    with (mkVector3 0 0 101)
    by (unfold Vector3.subtract; simpl; f_equal; ring).
  rewrite normalize_along_z by lra.
  replace (Vector3.subtract (mkVector3 0 0 1)
             (Vector3.scale (mkVector3 0 0 1)
                (Vector3.Dot (mkVector3 0 0 1) (mkVector3 0 0 1))))
    with Vector3.Zero
    by (unfold Vector3.subtract, Vector3.scale, Vector3.Dot, Vector3.Zero;
        simpl; f_equal; ring).
  rewrite normalize_Zero.
  replace (Vector3.Cross (mkVector3 0 0 1) Vector3.Zero) with Vector3.Zero
    by (unfold Vector3.Cross, Vector3.Zero; simpl; f_equal; ring).
  apply normalize_Zero.
Qed.

(** C1. The vehicle that [create] puts on a planet centred at [(0, 0, -100)]
    stands on its sphere, at the target distance from the centre, with its
    heading along the surface normal.  Its first frame at full throttle
    turns the position about an axis of length zero and leaves a non-finite
    position: the distance to the planet's centre is no longer within 1e-3
    of [planetRadius + heightOffset]. *)
Theorem planet_frame_heading_along_normal_not_finite :
  surfaceType Examples.spawned = planet /\
  Vehicle.radialError Examples.spawned < 0.001 /\
  Checked.runFrames [Vehicle.mkFrame 1 0 false 1] Examples.spawned = None.
Proof.
  split; [rewrite spawned_eq; reflexivity | split].
  - rewrite spawned_radialError. lra.
  - cbn [Checked.runFrames].
    unfold Checked.runFrame. cbn [Vehicle.frame_dt Vehicle.frame_accelerate
                                  Vehicle.frame_steer Vehicle.frame_handbrake].
    unfold Checked.update.
    rewrite Checked_updateMovement_positive_friction
      by (rewrite spawned_eq; cbn; lra).
    cbn [Checked.bind]. unfold Checked.updatePosition.
    destruct (updateMovement_geometry 1
                (Vehicle.setInput 1 0 false Examples.spawned))
      as (_ & _ & Hs & _).
    rewrite Hs.
    replace (surfaceType (Vehicle.setInput 1 0 false Examples.spawned))
      with planet by (rewrite spawned_eq; reflexivity).
    rewrite Checked_updatePositionPlanet_zero_axis.
    + reflexivity.
    + rewrite spawned_frame_velocity, length_axis_z, Rabs_pos_eq by lra. lra.
    + apply spawned_frame_axis.
Qed.

(** ** The orientation over finite frames *)

Lemma runOp_friction (o : Vehicle.Op) (this : Vehicle) :
  friction (Vehicle.runOp o this) = friction this.
Proof.
  destruct o as [f | imp | m | v | | p]; try reflexivity.
  unfold Vehicle.runOp. rewrite runFrame_unfold.
  match goal with
  | |- context [Vehicle.updatePosition ?d ?t] =>
      destruct (updatePosition_frame d t) as (_ & _ & _ & _ & Hf & _)
  end.
  rewrite Hf. unfold Vehicle.updateMovement. cbv zeta.
  split_ifs; reflexivity.
Qed.

Lemma Checked_runOp_Some (o : Vehicle.Op) (this v : Vehicle) :
  Checked.runOp o this = Some v ->
  Quaternion.lengthSquared (Vehicle.currentRotationOf this) = 1 ->
  Quaternion.lengthSquared (Vehicle.currentRotationOf v) = 1.
Proof.
  intros Hrun Hq.
  destruct o as [f | imp | m | w | | p];
    try (cbn [Checked.runOp] in Hrun; inversion Hrun; exact Hq).
  cbn [Checked.runOp] in Hrun. unfold Checked.runFrame, Checked.update in Hrun.
  apply Checked_bind_Some in Hrun. destruct Hrun as (m & Hm & Hv).
  apply Checked_updateMovement_geometry in Hm.
  destruct Hm as (_ & Hrq & _).
  apply Checked_updatePosition_Some in Hv. subst v.
  apply updatePosition_unit.
  unfold Vehicle.currentRotationOf. rewrite Hrq. exact Hq.
Qed.

Lemma Checked_update_ground (dt : R) (this : Vehicle) :
  surfaceType this = ground ->
  0 < friction this ->
  Checked.update dt this = Some (Vehicle.update dt this).
Proof.
  intros Hs Hf. unfold Checked.update, Vehicle.update.
  rewrite Checked_updateMovement_positive_friction by exact Hf.
  cbn [Checked.bind].
  destruct (updateMovement_geometry dt this) as (_ & _ & Hst & _).
  unfold Checked.updatePosition, Vehicle.updatePosition.
  rewrite Hst, Hs. reflexivity.
Qed.

Lemma Checked_runOp_ground (o : Vehicle.Op) (this : Vehicle) :
  surfaceType this = ground ->
  0 < friction this ->
  Checked.runOp o this = Some (Vehicle.runOp o this).
Proof.
  intros Hs Hf. destruct o as [f | imp | m | w | | p]; try reflexivity.
  cbn [Checked.runOp Vehicle.runOp]. unfold Checked.runFrame, Vehicle.runFrame.
  apply Checked_update_ground; assumption.
Qed.

Lemma Checked_runOps_ground (os : list Vehicle.Op) (this : Vehicle) :
  surfaceType this = ground ->
  0 < friction this ->
  Checked.runOps os this = Some (Vehicle.runOps os this).
Proof.
  revert this. induction os as [| o os IH]; intros this Hs Hf.
  - reflexivity.
  - cbn [Checked.runOps Vehicle.runOps].
    rewrite Checked_runOp_ground by assumption. cbn [Checked.bind].
    apply IH.
    + destruct (runOp_surface o this) as (H & _). rewrite H. exact Hs.
    + rewrite runOp_friction. exact Hf.
Qed.

Lemma Checked_runOps_unit (os : list Vehicle.Op) (this this' : Vehicle) :
  Checked.runOps os this = Some this' ->
  Quaternion.lengthSquared (Vehicle.currentRotationOf this) = 1 ->
  Quaternion.lengthSquared (Vehicle.currentRotationOf this') = 1.
Proof.
  revert this. induction os as [| o os IH]; intros this Hrun Hq.
  - cbn [Checked.runOps] in Hrun. inversion Hrun. subst this'. exact Hq.
  - cbn [Checked.runOps] in Hrun.
    apply Checked_bind_Some in Hrun. destruct Hrun as (v & Hv & Hrest).
    apply (IH v Hrest). apply (Checked_runOp_Some o this v Hv Hq).
Qed.

Lemma rotationAxisOf_ext (a b : Vehicle) :
  position a = position b ->
  planetCenter a = planetCenter b ->
  rotationQuaternion a = rotationQuaternion b ->
  Checked.rotationAxisOf a = Checked.rotationAxisOf b.
Proof.
  intros Hp Hc Hq. unfold Checked.rotationAxisOf, Vehicle.currentRotationOf.
  rewrite Hp, Hc, Hq. reflexivity.
Qed.

(** Which planet frames are finite: those of a vehicle with a positive
    friction, a unit orientation, a planet radius other than 0 and a
    movement axis other than zero, that is, a vehicle away from the planet's
    centre whose heading is not along the surface normal. *)
Lemma Checked_update_planet_finite (dt : R) (this : Vehicle) :
  surfaceType this = planet ->
  0 < friction this ->
  Quaternion.lengthSquared (Vehicle.currentRotationOf this) = 1 ->
  planetRadius this <> 0 ->
  Checked.rotationAxisOf this <> Vector3.Zero ->
  Checked.update dt this = Some (Vehicle.update dt this).
Proof.
  intros Hs Hf Hq Hr Hax. unfold Checked.update, Vehicle.update.
  rewrite Checked_updateMovement_positive_friction by exact Hf.
  cbn [Checked.bind].
  destruct (updateMovement_geometry dt this)
    as (Hp & Hrq & Hst & Hc & Hrad & _).
  unfold Checked.updatePosition, Vehicle.updatePosition. rewrite Hst, Hs.
  apply Checked_updatePositionPlanet_finite.
  - apply worldUp_nonzero. unfold Vehicle.currentRotationOf. rewrite Hrq.
    exact Hq.
  - rewrite Hrad. exact Hr.
  - rewrite (rotationAxisOf_ext _ this Hp Hc Hrq). exact Hax.
Qed.

(** *** The frames of [Examples.poleCar] *)

Lemma normalize_unit (v : Vector3) :
  Vector3.length v = 1 -> Vector3.normalize v = v.
Proof.
  intros H. unfold Vector3.normalize, Vector3.normalizeFromLength.
  destruct (Req_dec_T (Vector3.length v) 0); [reflexivity |].
  destruct (Req_dec_T (Vector3.length v) 1); [reflexivity | contradiction].
Qed.

Lemma length_axis_y (a : R) : Vector3.length (mkVector3 0 a 0) = Rabs a.
Proof.
  unfold Vector3.length; simpl.
  replace (0 * 0 + a * a + 0 * 0) with (Rsqr a) by (unfold Rsqr; ring).
  apply sqrt_Rsqr_abs.
Qed.

Lemma normalize_along_y (a : R) :
  0 < a -> Vector3.normalize (mkVector3 0 a 0) = mkVector3 0 1 0.
Proof.
  intros Ha. rewrite normalize_nonzero.
  - rewrite length_axis_y, Rabs_pos_eq by lra.
    unfold Vector3.scale; simpl. f_equal; field; lra.
  - intros E. apply (f_equal vy) in E. simpl in E. lra.
Qed.

(** At the pole, heading along +z, the position turns about the x axis. *)
Lemma pole_rotationAxis (this : Vehicle) :
  position this = mkVector3 0 101 0 ->
  planetCenter this = Vector3.Zero ->
  rotationQuaternion this = Some Quaternion.Identity ->
  Checked.rotationAxisOf this = mkVector3 1 0 0.
Proof.
  intros Hp Hc Hq. unfold Checked.rotationAxisOf. cbv zeta.
  unfold Vehicle.currentRotationOf. rewrite Hp, Hc, Hq.
  rewrite rotateByQuaternionToRef_Identity.
  replace (Vector3.subtract (mkVector3 0 101 0) Vector3.Zero)
    with (mkVector3 0 101 0)
    by (unfold Vector3.subtract, Vector3.Zero; simpl; f_equal; ring).
  rewrite normalize_along_y by lra.
  replace (Vector3.subtract (mkVector3 0 0 1)
             (Vector3.scale (mkVector3 0 1 0)
                (Vector3.Dot (mkVector3 0 0 1) (mkVector3 0 1 0))))
    with (mkVector3 0 0 1)
    by (unfold Vector3.subtract, Vector3.scale, Vector3.Dot; simpl;
        f_equal; ring).
  rewrite (normalize_unit (mkVector3 0 0 1))
    by (rewrite length_axis_z; apply Rabs_R1).
  replace (Vector3.Cross (mkVector3 0 1 0) (mkVector3 0 0 1))
    with (mkVector3 1 0 0)
    by (unfold Vector3.Cross; simpl; f_equal; ring).
  apply normalize_unit. apply length_axis_x. lra.
Qed.

Lemma axis_x_nonzero : mkVector3 1 0 0 <> Vector3.Zero.
Proof. intros E. apply (f_equal vx) in E. simpl in E. lra. Qed.

(** Every frame of [Examples.poleCar] is finite. *)
Lemma poleCar_frame_finite (a s : R) (h : bool) (dt : R) :
  Checked.update dt (Vehicle.setInput a s h Examples.poleCar)
  = Some (Vehicle.update dt (Vehicle.setInput a s h Examples.poleCar)).
Proof.
  apply Checked_update_planet_finite.
  - reflexivity.
  - cbn. lra.
  - apply lengthSquared_Identity.
  - cbn. lra.
  - rewrite pole_rotationAxis by reflexivity. apply axis_x_nonzero.
Qed.

(** X11. The orientation stays a unit quaternion over finite frames: when
    the current rotation has norm 1 (in particular when none is set yet, the
    identity being used then), it has norm 1 after any sequence of exposed
    operations none of whose frames leaves a non-finite value.  In ground
    mode with a positive friction no frame does, so there the orientation
    has norm 1 after every sequence of operations. *)
Theorem orientation_stays_unit (os : list Vehicle.Op) (this : Vehicle) :
  Quaternion.lengthSquared (Vehicle.currentRotationOf this) = 1 ->
  (forall this' : Vehicle,
     Checked.runOps os this = Some this' ->
     Quaternion.lengthSquared (Vehicle.currentRotationOf this') = 1) /\
  (surfaceType this = ground ->
   0 < friction this ->
   Checked.runOps os this = Some (Vehicle.runOps os this) /\
   Quaternion.lengthSquared
     (Vehicle.currentRotationOf (Vehicle.runOps os this)) = 1).
Proof.
  intros Hq. split.
  - intros this' Hrun. apply (Checked_runOps_unit os this this' Hrun Hq).
  - intros Hs Hf.
    pose proof (Checked_runOps_ground os this Hs Hf) as Hrun.
    split; [exact Hrun |].
    apply (Checked_runOps_unit os this _ Hrun Hq).
Qed.

Lemma orientation_stays_unit_witness :
  let os :=
    [Vehicle.OpFrame (Vehicle.mkFrame 0 1 false 1);
     Vehicle.OpApplyCollisionImpulse (mkVector3 0 0 (-500))] in
  let this' := Vehicle.runOps os Examples.poleCar in
  Quaternion.lengthSquared (Vehicle.currentRotationOf Examples.poleCar) = 1 /\
  Checked.runOps os Examples.poleCar = Some this' /\
  Quaternion.lengthSquared (Vehicle.currentRotationOf this') = 1.
Proof.
  intros os this'.
  assert (Hq : Quaternion.lengthSquared
                 (Vehicle.currentRotationOf Examples.poleCar) = 1)
    by apply lengthSquared_Identity.
  assert (Hrun : Checked.runOps os Examples.poleCar = Some this').
  { subst os this'. cbn [Checked.runOps Checked.runOp Vehicle.runOps].
    unfold Checked.runFrame.
    cbn [Vehicle.frame_dt Vehicle.frame_accelerate Vehicle.frame_steer
         Vehicle.frame_handbrake].
    rewrite poleCar_frame_finite. reflexivity. }
  split; [exact Hq | split; [exact Hrun |]].
  apply (proj1 (orientation_stays_unit os Examples.poleCar Hq) this' Hrun).
Defined.

(** ** Finite planet frames: the up axis follows the surface normal *)

(** X24. In planet mode, a frame that moves the vehicle and leaves finite
    values leaves the vehicle's up axis within 1e-4 of the surface normal at
    the new position (measured by [|up x normal|]), provided the orientation
    is a unit quaternion, the new position is not the planet's centre, and
    the up axis before the frame makes at most a right angle with the new
    normal. *)
Theorem planet_frame_aligns_up_with_normal (dt : R) (this this' : Vehicle) :
  surfaceType this = planet ->
  Quaternion.lengthSquared (Vehicle.currentRotationOf this) = 1 ->
  Checked.update dt this = Some this' ->
  let normal' :=
    Vector3.normalize
      (Vector3.subtract (position this') (planetCenter this')) in
  velocity this' <> Vector3.Zero ->
  position this' <> planetCenter this' ->
  0 <= Vector3.Dot (Vehicle.worldUpOf (Vehicle.currentRotationOf this))
         normal' ->
  Vector3.length
    (Vector3.Cross (Vehicle.worldUpOf (Vehicle.currentRotationOf this'))
       normal')
  < 0.0001.
Proof.
  intros Hs Hq Hrun normal' Hv Hpc Hf.
  unfold Checked.update in Hrun.
  apply Checked_bind_Some in Hrun. destruct Hrun as (m & Hm & Hrun).
  apply Checked_updateMovement_geometry in Hm.
  destruct Hm as (_ & Hrq & Hst & Hc & _).
  unfold Checked.updatePosition in Hrun. rewrite Hst, Hs in Hrun.
  apply Checked_updatePositionPlanet_Some in Hrun. rename Hrun into Hun.
  assert (Hcur : Vehicle.currentRotationOf m = Vehicle.currentRotationOf this).
  { unfold Vehicle.currentRotationOf. rewrite Hrq. reflexivity. }
  assert (Hc' : planetCenter this' = planetCenter this).
  { rewrite Hun.
    destruct (updatePositionPlanet_frame dt m)
      as (_ & _ & _ & _ & _ & _ & _ & _ & _ & _ & _ & _ & H & _).
    rewrite H. exact Hc. }
  assert (Hrot := updatePositionPlanet_rotation dt m).
  rewrite <- Hun in Hrot. specialize (Hrot Hv).
  rewrite Hcur, Hc, <- Hc' in Hrot. fold normal' in Hrot.
  unfold Vehicle.currentRotationOf at 1. rewrite Hrot.
  apply createAlignmentRotation_within_right_angle.
  - rewrite lengthSquared_multiply, RotationAxis_lengthSquared, Hq;
      [ring | apply worldUp_nonzero; exact Hq].
  - subst normal'. apply length_normalize, subtract_nonzero, Hpc.
  - rewrite steering_keeps_up by exact Hq. exact Hf.
Qed.

(** A planet frame that moves a vehicle which is on its sphere turns the
    position about the movement axis by [speed * dt / planetRadius]. *)
Lemma updatePositionPlanet_moving (dt : R) (this : Vehicle) :
  0.1 <= Vector3.length (Checked.frameVelocity dt this) ->
  Vehicle.radialError this <= 0.001 ->
  Checked.rotationAxisOf this <> Vector3.Zero ->
  velocity (Vehicle.updatePositionPlanet dt this)
  = Checked.frameVelocity dt this /\
  position (Vehicle.updatePositionPlanet dt this)
  = Vector3.add (planetCenter this)
      (rotateByQuaternionToRef
         (Vector3.subtract (position this) (planetCenter this))
         (Quaternion.RotationAxis (Checked.rotationAxisOf this)
            (speed this * dt / planetRadius this))).
Proof.
  intros Hfast Herr Hax.
  pose proof (Distance_add_center_rotated (planetCenter this) (position this)
                (Checked.rotationAxisOf this)
                (speed this * dt / planetRadius this) Hax) as Hd.
  unfold Vehicle.radialError in Herr.
  unfold Vehicle.updatePositionPlanet. cbv zeta.
  destruct (Rlt_dec _ 0.1) as [Hslow | _].
  { exfalso. unfold Checked.frameVelocity in Hfast. cbv zeta in Hfast.
    cbn [velocity Vehicle.set_velocity] in Hslow. lra. }
  destruct (Rlt_dec 0.001 _) as [Hdrift | _].
  { exfalso.
    assert (Hdrift' :
              0.001 <
              Rabs (Vector3.Distance
                      (Vector3.add (planetCenter this)
                         (rotateByQuaternionToRef
                            (Vector3.subtract (position this)
                               (planetCenter this))
                            (Quaternion.RotationAxis
                               (Checked.rotationAxisOf this)
                               (speed this * dt / planetRadius this))))
                      (planetCenter this)
                    - (planetRadius this + heightOffset this)))
      by exact Hdrift.
    rewrite Hd in Hdrift'. lra. }
  split; reflexivity.
Qed.

(** *** A driven and steered frame of [Examples.poleCar] *)

Lemma rotate_about_x (y a : R) :
  rotateByQuaternionToRef (mkVector3 0 y 0)
    (Quaternion.RotationAxis (mkVector3 1 0 0) a)
  = mkVector3 0 (y * cos a) (y * sin a).
Proof.
  unfold Quaternion.RotationAxis. cbv zeta.
  rewrite (length_axis_x 1) by lra.
  replace (cos a) with (cos (2 * (a / 2))) by (f_equal; field).
  replace (sin a) with (sin (2 * (a / 2))) by (f_equal; field).
  rewrite cos_2a_sin, sin_2a.
  unfold rotateByQuaternionToRef; simpl. f_equal; field.
Qed.

Lemma sin_005_lower : 0.04 <= sin 0.05.
Proof.
  assert (Hpi : 3 < PI) by (pose proof PI2_3_2; lra).
  destruct (SIN 0.05) as [H _]; [lra | lra |].
  apply Rle_trans with (2 := H).
  unfold sin_lb, sin_approx. cbn [sum_f_R0].
  unfold sin_term.
  replace (INR (Factorial.fact (2 * 0 + 1))) with 1 by (simpl; lra).
  replace (INR (Factorial.fact (2 * 1 + 1))) with 6 by (simpl; lra).
  replace (INR (Factorial.fact (2 * 2 + 1))) with 120 by (simpl; lra).
  replace (INR (Factorial.fact (2 * 3 + 1))) with 5040
    by (rewrite INR_IZR_INZ; apply f_equal; reflexivity).
  simpl pow. lra.
Qed.

Lemma cos_005_positive : 0 < cos 0.05.
Proof. pose proof PI2_1. apply cos_gt_0; lra. Qed.

Lemma poleCar_radialError (a s : R) (h : bool) (dt : R) :
  Vehicle.radialError
    (Vehicle.updateMovement dt (Vehicle.setInput a s h Examples.poleCar)) = 0.
Proof.
  destruct (updateMovement_geometry dt
              (Vehicle.setInput a s h Examples.poleCar))
    as (Hp & _ & _ & Hc & Hr & Hh).
  unfold Vehicle.radialError, Vector3.Distance. rewrite Hp, Hc, Hr, Hh.
  cbn [Vehicle.setInput Vehicle.set_input Examples.poleCar position
       planetCenter planetRadius heightOffset].
  replace (Vector3.subtract (mkVector3 0 101 0) Vector3.Zero)
    with (mkVector3 0 101 0)
    by (unfold Vector3.subtract, Vector3.Zero; simpl; f_equal; ring).
  rewrite length_axis_y, (Rabs_pos_eq 101) by lra.
  replace (101 - (100 + 1)) with 0 by ring. apply Rabs_R0.
Qed.

(** [Examples.poleCar] at full throttle and full steering lock for one
    second: it moves by an angle of 0.05 along the meridian. *)
Lemma poleCar_driven_frame :
  let this := Vehicle.setInput 1 1 false Examples.poleCar in
  let this' := Vehicle.update 1 this in
  velocity this' = mkVector3 0 0 5 /\
  position this' = mkVector3 0 (101 * cos 0.05) (101 * sin 0.05) /\
  planetCenter this' = Vector3.Zero.
Proof.
  intros this this'.
  set (m := Vehicle.updateMovement 1 this).
  destruct (updateMovement_geometry 1 this)
    as (Hp & Hq & Hst & Hc & Hr & Hh).
  destruct (updateMovement_frame 1 this) as (_ & Hmo & Hma & Hcp).
  fold m in Hp, Hq, Hst, Hc, Hr, Hh, Hmo, Hma, Hcp.
  assert (Hun : this' = Vehicle.updatePositionPlanet 1 m).
  { subst this'. unfold Vehicle.update, Vehicle.updatePosition. fold m.
    rewrite Hst. reflexivity. }
  assert (Hspeed : speed m = 5).
  { subst m. rewrite updateMovement_speed_drive by reflexivity.
    cbn [this Vehicle.setInput Vehicle.set_input Examples.poleCar maxSpeed
         speed inputAccelerate acceleration friction].
    unfold Math_pow. rewrite Rpower_1 by lra.
    replace (5 + 1 * 5 * 1) with 10 by ring.
    rewrite Rmin_right by lra. rewrite Rmax_right by lra. lra. }
  assert (Hax : Checked.rotationAxisOf m = mkVector3 1 0 0).
  { apply pole_rotationAxis.
    - rewrite Hp. reflexivity.
    - rewrite Hc. reflexivity.
    - rewrite Hq. reflexivity. }
  assert (Hvel : Checked.frameVelocity 1 m = mkVector3 0 0 5).
  { unfold Checked.frameVelocity. cbv zeta.
    cbn [speed mass momentum collisionPhysics Vehicle.updateMomentum
         Vehicle.set_momentum].
    unfold Vehicle.currentRotationOf.
    cbn [rotationQuaternion Vehicle.updateMomentum Vehicle.set_momentum].
    rewrite Hspeed, Hmo, Hma, Hcp, Hq.
    cbn [this Vehicle.setInput Vehicle.set_input Examples.poleCar momentum
         mass collisionPhysics rotationQuaternion].
    rewrite applyMomentumFriction_Zero, momentumToVelocity_Zero,
      rotateByQuaternionToRef_Identity.
    unfold Vector3.add, Vector3.scale, Vector3.Zero; simpl. f_equal; ring. }
  destruct (updatePositionPlanet_moving 1 m) as (Hv & Hpos).
  - rewrite Hvel, length_axis_z, Rabs_pos_eq by lra. lra.
  - subst m this. rewrite poleCar_radialError. lra.
  - rewrite Hax. apply axis_x_nonzero.
  - rewrite Hun. split; [rewrite Hv; exact Hvel | split].
    + rewrite Hpos, Hax, Hspeed, Hp, Hc, Hr.
      cbn [this Vehicle.setInput Vehicle.set_input Examples.poleCar position
           planetCenter planetRadius].
      replace (Vector3.subtract (mkVector3 0 101 0) Vector3.Zero)
        with (mkVector3 0 101 0)
        by (unfold Vector3.subtract, Vector3.Zero; simpl; f_equal; ring).
      replace (5 * 1 / 100) with 0.05 by lra.
      rewrite rotate_about_x.
      unfold Vector3.add, Vector3.Zero; simpl. f_equal; ring.
    + destruct (updatePositionPlanet_frame 1 m)
        as (_ & _ & _ & _ & _ & _ & _ & _ & _ & _ & _ & _ & H & _).
      rewrite H, Hc. reflexivity.
Qed.

Lemma planet_frame_aligns_up_with_normal_witness :
  let this := Vehicle.setInput 1 1 false Examples.poleCar in
  let this' := Vehicle.update 1 this in
  let normal' :=
    Vector3.normalize
      (Vector3.subtract (position this') (planetCenter this')) in
  surfaceType this = planet /\
  Quaternion.lengthSquared (Vehicle.currentRotationOf this) = 1 /\
  Checked.update 1 this = Some this' /\
  velocity this' <> Vector3.Zero /\
  position this' <> planetCenter this' /\
  0 <= Vector3.Dot (Vehicle.worldUpOf (Vehicle.currentRotationOf this))
         normal' /\
  0.0001 <= Vector3.length
              (Vector3.Cross
                 (Vehicle.worldUpOf (Vehicle.currentRotationOf this))
                 normal') /\
  Vector3.length
    (Vector3.Cross (Vehicle.worldUpOf (Vehicle.currentRotationOf this'))
       normal')
  < 0.0001.
Proof.
  intros this this' normal'.
  destruct poleCar_driven_frame as (Hv & Hp & Hc).
  fold this in Hv, Hp, Hc. fold this' in Hv, Hp, Hc.
  pose proof sin_005_lower as Hsin. pose proof cos_005_positive as Hcos.
  assert (Hs : surfaceType this = planet) by reflexivity.
  assert (Hq : Quaternion.lengthSquared (Vehicle.currentRotationOf this) = 1)
    by apply lengthSquared_Identity.
  assert (Hrun : Checked.update 1 this = Some this')
    by apply (poleCar_frame_finite 1 1 false 1).
  assert (Hvn : velocity this' <> Vector3.Zero).
  { rewrite Hv. intros E. apply (f_equal vz) in E. simpl in E. lra. }
  assert (Hpc : position this' <> planetCenter this').
  { rewrite Hp, Hc. intros E. apply (f_equal vy) in E. simpl in E. lra. }
  assert (Hn : normal' = mkVector3 0 (cos 0.05) (sin 0.05)).
  { subst normal'. rewrite Hp, Hc.
    replace (Vector3.subtract
               (mkVector3 0 (101 * cos 0.05) (101 * sin 0.05)) Vector3.Zero)
      with (Vector3.scale (mkVector3 0 (cos 0.05) (sin 0.05)) 101)
      by (unfold Vector3.subtract, Vector3.scale, Vector3.Zero; simpl;
          f_equal; ring).
    assert (H1 : Vector3.length (mkVector3 0 (cos 0.05) (sin 0.05)) = 1).
    { unfold Vector3.length; simpl.
      replace (0 * 0 + cos 0.05 * cos 0.05 + sin 0.05 * sin 0.05)
        with (Rsqr (sin 0.05) + Rsqr (cos 0.05)) by (unfold Rsqr; ring).
      rewrite sin2_cos2. apply sqrt_1. }
    assert (HL : Vector3.length
                   (Vector3.scale (mkVector3 0 (cos 0.05) (sin 0.05)) 101)
                 = 101)
      by (rewrite length_scale, H1 by lra; ring).
    rewrite normalize_nonzero, HL.
    - unfold Vector3.scale; simpl. f_equal; field.
    - apply length_1_nonzero. rewrite HL. lra. }
  assert (Hup : Vehicle.worldUpOf (Vehicle.currentRotationOf this)
                = mkVector3 0 1 0).
  { unfold Vehicle.worldUpOf.
    cbn [this Vehicle.setInput Vehicle.set_input Examples.poleCar
         Vehicle.currentRotationOf rotationQuaternion].
    apply rotateByQuaternionToRef_Identity. }
  assert (Hf : 0 <= Vector3.Dot
                      (Vehicle.worldUpOf (Vehicle.currentRotationOf this))
                      normal').
  { rewrite Hn, Hup. unfold Vector3.Dot; simpl. lra. }
  assert (Hoff : 0.0001 <= Vector3.length
                             (Vector3.Cross
                                (Vehicle.worldUpOf
                                   (Vehicle.currentRotationOf this))
                                normal')).
  { rewrite Hn, Hup.
    replace (Vector3.Cross (mkVector3 0 1 0)
               (mkVector3 0 (cos 0.05) (sin 0.05)))
      with (mkVector3 (sin 0.05) 0 0)
      by (unfold Vector3.Cross; simpl; f_equal; ring).
    rewrite length_axis_x by lra. lra. }
  repeat split; try assumption.
  apply (planet_frame_aligns_up_with_normal 1 this this' Hs Hq Hrun Hvn Hpc Hf).
Defined.
